(** * openttd-admin: the admin-port client of pkg/admin (admin.go)

    A shallow embedding of the Go package [admin]: the outgoing packet
    encoders ([sendSocket], the join message built in [Connect]), the
    receive loop [listenSocket] with its framing of the accumulated
    [chunk], the NUL-terminated string decoder [extractString], the
    calendar scheduler ([RegisterDateChange], [dateChanged],
    [processCommand]) and the reconnect loop of [Connect].

    Conventions.
    - A Go [[]byte] is a [list byte]; a Go [string] is a [string] (both are
      byte sequences).  Go's [int], [uint16], [uint32] are [Z], with every
      narrowing conversion written out as a [mod].
    - A run-time panic (index or slice bounds, nil dereference, an explicit
      [panic]) is the outcome [Panic]; nothing in this package recovers
      from a panic, so it ends the process.
    - Effects (writes on the connection, log lines, the send on the
      [disconnected] channel) are recorded as a trace of [event]s.
    - The reader comes twice.  [listenSocket] is the reader within
      length: it is cut, with the outcome [BeyondLen], where a decoder
      takes a slice above the length of its payload.  [Cap.listenSocket]
      carries the capacity of the buffer and follows those runs as well;
      it goes through every run of the first that is not cut
      ([socketLoop_follows]).
    - [Connect] comes twice in the same way.  [Connect_from] takes the
      two goroutines in their usual order; [Sched.Connect_from] places
      the steps of the reader among those of [Connect] by a schedule, and
      is [Connect_from] when every turn is in the usual order
      ([Connect_from_is_usual_order]). *)

From Stdlib Require Import ZArith List Bool Lia Ascii String.
From Stdlib Require Import Strings.Byte.
From Stdlib Require Import DecimalString.
From Stdlib Require DecimalFacts DecimalPos DecimalN.
Import ListNotations.

Local Open Scope Z_scope.

(* ================================================================= *)
(** ** Outcomes of a Go computation *)

Inductive result (A : Type) : Type :=
| Ok (a : A)
| Panic (msg : string)
    (** a run-time panic: the goroutine unwinds and the process exits *)
| BeyondLen (what : string)
    (** a slice expression [s[lo:hi]] with [len(s) < hi]: Go checks [hi]
        against the capacity of the backing array, which the allocator
        decides; the run either panics or reads bytes lying after [s].
        The reader within length ([slice], [listenSocket]) is cut there;
        the reader of [Cap], which carries the capacity, goes on. *)
| OutOfFuel.
    (** the iteration bound of a loop of the embedding was exhausted *)

Arguments Ok {A} a.
Arguments Panic {A} msg.
Arguments BeyondLen {A} what.
Arguments OutOfFuel {A}.

Definition is_ok {A} (r : result A) : bool :=
  match r with Ok _ => true | _ => false end.

Definition is_panic {A} (r : result A) : bool :=
  match r with Panic _ => true | _ => false end.

(** Changing the type of an outcome that is not [Ok]. *)
Definition recast {A B} (r : result A) (dflt : result B) : result B :=
  match r with
  | Ok _ => dflt
  | Panic m => Panic m
  | BeyondLen w => BeyondLen w
  | OutOfFuel => OutOfFuel
  end.

Module R.
Definition bind {A B} (r : result A) (k : A -> result B) : result B :=
  match r with
  | Ok a => k a
  | Panic m => Panic m
  | BeyondLen w => BeyondLen w
  | OutOfFuel => OutOfFuel
  end.
End R.

Declare Scope result_scope.
Delimit Scope result_scope with res.
Notation "x <- e ;; k" := (R.bind e (fun x => k))
  (at level 61, e at next level, right associativity) : result_scope.
Notation "' pat <- e ;; k" := (R.bind e (fun x => match x with pat => k end))
  (at level 61, pat pattern, e at next level, right associativity) : result_scope.

(* ================================================================= *)
(** ** Bytes, slices and the little-endian readers of encoding/binary *)

Definition byte_val (b : byte) : Z := Z.of_N (Byte.to_N b).

(** Go's conversion [byte(x)]: the low eight bits. *)
Definition to_byte (z : Z) : byte :=
  match Byte.of_N (Z.to_N (z mod 256)) with
  | Some b => b
  | None => x00
  end.

(** [uint16(x)] and [uint32(x)] on an integer. *)
Definition uint16 (z : Z) : Z := z mod 65536.
Definition uint32 (z : Z) : Z := z mod 4294967296.

Definition len {A} (s : list A) : Z := Z.of_nat (List.length s).

(** [s[i]]: checked against [len(s)]. *)
Definition index {A} (s : list A) (i : Z) : result A :=
  if (i <? 0) || (len s <=? i) then Panic "index out of range"
  else match nth_error s (Z.to_nat i) with
       | Some a => Ok a
       | None => Panic "index out of range"
       end.

(** [s[lo:hi]] within the length of [s]: [lo <= hi] is checked first; an
    upper bound above [len(s)] is the capacity-dependent case described
    at [BeyondLen], which [Cap.slice] decides from the bytes that follow
    [s] in its backing array. *)
Definition slice {A} (s : list A) (lo hi : Z) : result (list A) :=
  if (lo <? 0) || (hi <? lo) then Panic "slice bounds out of range"
  else if len s <? hi then BeyondLen "slice bounds above len"
  else Ok (firstn (Z.to_nat (hi - lo)) (skipn (Z.to_nat lo) s)).

(** [s[lo:]]: the upper bound is [len(s)]. *)
Definition slice_from {A} (s : list A) (lo : Z) : result (list A) :=
  if (lo <? 0) || (len s <? lo) then Panic "slice bounds out of range"
  else Ok (skipn (Z.to_nat lo) s).

(** [binary.LittleEndian.Uint16(b)], [Uint32], [Uint64]: each indexes the
    last byte it needs first and panics on a shorter slice. *)
Fixpoint le_value (b : list byte) : Z :=
  match b with
  | [] => 0
  | x :: rest => byte_val x + 256 * le_value rest
  end.

Definition Uint16 (b : list byte) : result Z :=
  match b with
  | b0 :: b1 :: _ => Ok (le_value [b0; b1])
  | _ => Panic "index out of range"
  end.

Definition Uint32 (b : list byte) : result Z :=
  match b with
  | b0 :: b1 :: b2 :: b3 :: _ => Ok (le_value [b0; b1; b2; b3])
  | _ => Panic "index out of range"
  end.

Definition Uint64 (b : list byte) : result Z :=
  match b with
  | b0 :: b1 :: b2 :: b3 :: b4 :: b5 :: b6 :: b7 :: _ =>
      Ok (le_value [b0; b1; b2; b3; b4; b5; b6; b7])
  | _ => Panic "index out of range"
  end.

(** [binary.LittleEndian.PutUint16(b, v)] on a fresh two-byte slice. *)
Definition PutUint16 (v : Z) : list byte :=
  [to_byte v; to_byte (v / 256)].

(* ================================================================= *)
(** ** extractString *)

Local Open Scope result_scope.

(** The loop [for i := start; i <= len(bytes); i++] of [extractString];
    [fuel] bounds the number of iterations. *)
Fixpoint extractString_loop (fuel : nat) (bytes buildString : list byte)
    (i : Z) : result (string * Z) :=
  match fuel with
  | O => OutOfFuel
  | S fuel' =>
      if i <=? len bytes then
        b <- index bytes i ;;
        if Byte.eqb b x00
        then Ok (string_of_list_byte buildString, i + 1)
        else extractString_loop fuel' bytes (buildString ++ [b]) (i + 1)
      else Ok (EmptyString, -1)
  end.

Definition extractString (bytes : list byte) (start : Z) : result (string * Z) :=
  extractString_loop (S (S (List.length bytes))) bytes [] start.

(* ================================================================= *)
(** ** fmt.Sprintf("%0wd", n) and strings.Replace *)

Local Open Scope string_scope.
Local Open Scope list_scope.
Local Open Scope Z_scope.

Definition decimal (n : Z) : string :=
  NilZero.string_of_uint (N.to_uint (Z.to_N n)).

Fixpoint zeros (k : nat) : string :=
  match k with
  | O => ""
  | S k' => String "0" (zeros k')
  end.

(** [fmt.Sprintf("%0<width>d", n)]: the decimal digits of [n], padded on the
    left with zeros up to [width] characters; a minus sign takes one of
    them.  A number with more digits than [width] is printed in full. *)
Definition Sprintf_0d (width : nat) (n : Z) : string :=
  if n <? 0
  then String "-"
         (zeros (width - 1 - String.length (decimal (- n))) ++ decimal (- n))%string
  else (zeros (width - String.length (decimal n)) ++ decimal n)%string.

(** [strings.Replace(s, old, new, n)] for a non-empty [old]: occurrences of
    [old] are replaced from left to right without overlap, at most [n] of
    them when [0 <= n], all of them when [n < 0].  [skip] counts the bytes
    of a matched occurrence that are still to be passed over. *)
Fixpoint Replace_from (s old new : string) (skip : nat) (n : Z) : string :=
  match s with
  | EmptyString => EmptyString
  | String c rest =>
      match skip with
      | S k => Replace_from rest old new k n
      | O =>
          if negb (n =? 0) && prefix old s
          then (new ++ Replace_from rest old new (String.length old - 1) (n - 1))%string
          else String c (Replace_from rest old new 0 n)
      end
  end.

(** The rule of [strings.Replace] for an empty [old] (insertion between
    runes) is used nowhere in the package; [s] is returned for it. *)
Definition Replace (s old new : string) (n : Z) : string :=
  match old with
  | EmptyString => s
  | _ => Replace_from s old new 0 n
  end.

(* ================================================================= *)
(** ** time.Time as a calendar date *)

Record date : Type := mkDate { Year : Z; Month : Z; Day : Z }.

(** [time.Date(0, time.January, 1, 0, 0, 0, 0, time.UTC).AddDate(0, 0, days)]:
    the date of the proleptic Gregorian calendar [days] days after
    January 1 of year 0.  The count is taken from March 1 of year 0 so that
    the leap day closes a year. *)
Definition epochAddDays (days : Z) : date :=
  let z := days - 60 in
  let era := z / 146097 in
  let doe := z - era * 146097 in
  let yoe := (doe - doe / 1460 + doe / 36524 - doe / 146096) / 365 in
  let doy := doe - (365 * yoe + yoe / 4 - yoe / 100) in
  let mp := (5 * doy + 2) / 153 in
  let d := doy - (153 * mp + 2) / 5 + 1 in
  let m := if mp <? 10 then mp + 3 else mp - 9 in
  let y := yoe + era * 400 + (if m <=? 2 then 1 else 0) in
  mkDate y m d.

(* ================================================================= *)
(** ** The server object, events and the effect monad *)

(** [OpenTTDServer].  [connection] is [None] for a nil [net.Conn] and
    [Some k] for the connection of the [k]-th dial.  The channels
    [connected] and [disconnected] appear as the events sent on them. *)
Record OpenTTDServer : Type := mkServer {
  connection      : option nat;
  ServerName      : string;
  ServerVersion   : string;
  ServerDedicated : bool;
  MapName         : string;
  MapSeed         : Z;
  MapLandscape    : byte;
  MapX            : Z;
  MapY            : Z;
  rconDaily       : list string;
  rconMonthly     : list string;
  rconYearly      : list string
}.

(** [admin.OpenTTDServer{}]: every field at its zero value. *)
Definition zeroServer : OpenTTDServer :=
  mkServer None "" "" false "" 0 x00 0 0 [] [] [].

Definition set_connection (c : option nat) (s : OpenTTDServer) :=
  mkServer c (ServerName s) (ServerVersion s) (ServerDedicated s) (MapName s)
    (MapSeed s) (MapLandscape s) (MapX s) (MapY s)
    (rconDaily s) (rconMonthly s) (rconYearly s).
Definition set_ServerName (v : string) (s : OpenTTDServer) :=
  mkServer (connection s) v (ServerVersion s) (ServerDedicated s) (MapName s)
    (MapSeed s) (MapLandscape s) (MapX s) (MapY s)
    (rconDaily s) (rconMonthly s) (rconYearly s).
Definition set_ServerVersion (v : string) (s : OpenTTDServer) :=
  mkServer (connection s) (ServerName s) v (ServerDedicated s) (MapName s)
    (MapSeed s) (MapLandscape s) (MapX s) (MapY s)
    (rconDaily s) (rconMonthly s) (rconYearly s).
Definition set_ServerDedicated (v : bool) (s : OpenTTDServer) :=
  mkServer (connection s) (ServerName s) (ServerVersion s) v (MapName s)
    (MapSeed s) (MapLandscape s) (MapX s) (MapY s)
    (rconDaily s) (rconMonthly s) (rconYearly s).
Definition set_MapName (v : string) (s : OpenTTDServer) :=
  mkServer (connection s) (ServerName s) (ServerVersion s) (ServerDedicated s) v
    (MapSeed s) (MapLandscape s) (MapX s) (MapY s)
    (rconDaily s) (rconMonthly s) (rconYearly s).
Definition set_MapSeed (v : Z) (s : OpenTTDServer) :=
  mkServer (connection s) (ServerName s) (ServerVersion s) (ServerDedicated s)
    (MapName s) v (MapLandscape s) (MapX s) (MapY s)
    (rconDaily s) (rconMonthly s) (rconYearly s).
Definition set_MapLandscape (v : byte) (s : OpenTTDServer) :=
  mkServer (connection s) (ServerName s) (ServerVersion s) (ServerDedicated s)
    (MapName s) (MapSeed s) v (MapX s) (MapY s)
    (rconDaily s) (rconMonthly s) (rconYearly s).
Definition set_MapX (v : Z) (s : OpenTTDServer) :=
  mkServer (connection s) (ServerName s) (ServerVersion s) (ServerDedicated s)
    (MapName s) (MapSeed s) (MapLandscape s) v (MapY s)
    (rconDaily s) (rconMonthly s) (rconYearly s).
Definition set_MapY (v : Z) (s : OpenTTDServer) :=
  mkServer (connection s) (ServerName s) (ServerVersion s) (ServerDedicated s)
    (MapName s) (MapSeed s) (MapLandscape s) (MapX s) v
    (rconDaily s) (rconMonthly s) (rconYearly s).
Definition set_rconDaily (v : list string) (s : OpenTTDServer) :=
  mkServer (connection s) (ServerName s) (ServerVersion s) (ServerDedicated s)
    (MapName s) (MapSeed s) (MapLandscape s) (MapX s) (MapY s)
    v (rconMonthly s) (rconYearly s).
Definition set_rconMonthly (v : list string) (s : OpenTTDServer) :=
  mkServer (connection s) (ServerName s) (ServerVersion s) (ServerDedicated s)
    (MapName s) (MapSeed s) (MapLandscape s) (MapX s) (MapY s)
    (rconDaily s) v (rconYearly s).
Definition set_rconYearly (v : list string) (s : OpenTTDServer) :=
  mkServer (connection s) (ServerName s) (ServerVersion s) (ServerDedicated s)
    (MapName s) (MapSeed s) (MapLandscape s) (MapX s) (MapY s)
    (rconDaily s) (rconMonthly s) v.

(** The cached server-reported attributes, as one tuple. *)
Definition cached (s : OpenTTDServer) :=
  (ServerName s, ServerVersion s, ServerDedicated s, MapName s,
   MapSeed s, MapLandscape s, MapX s, MapY s).

Inductive logline : Type :=
| LogConnecting
| LogConnectError
| LogConnected
| LogReconnecting
| LogConnectionReset
| LogSocketError
| LogWelcomeReceived
| LogPacket (packetData : list byte)
| LogNotBool (b : byte)
| LogServer (name version : string) (dedicated : bool) (map : string) (x y : Z)
| LogShutdown
| LogChat (action destType clientID : Z) (msg : string) (data : Z)
| LogRcon (colour : Z) (text : string)
| LogRconEnd (text : string)
| LogUnknown (packetData : list byte).

Inductive event : Type :=
| EvDial (ok : bool)                  (** [net.Dial] *)
| EvSpawnReader                       (** [go server.listenSocket()] *)
| EvConnected                         (** [server.connected <- true] *)
| EvWrite (data : list byte)          (** [server.connection.Write] *)
| EvLog (line : logline)
| EvFramed (packetType : Z) (packetData : list byte)
    (** ghost event: a packet was taken off the head of [chunk] *)
| EvDisconnected                      (** [server.disconnected <- true] *)
| EvSleep (seconds : Z).              (** [time.Sleep] *)

(** A computation on the server object: an outcome, the server object it
    leaves and the events it produced, in order. *)
Definition M (A : Type) : Type :=
  OpenTTDServer -> result A * OpenTTDServer * list event.

Module M.
Definition ret {A} (a : A) : M A := fun s => (Ok a, s, []).
Definition bind {A B} (m : M A) (k : A -> M B) : M B :=
  fun s =>
    match m s with
    | (Ok a, s1, e1) =>
        match k a s1 with
        | (r, s2, e2) => (r, s2, e1 ++ e2)
        end
    | (Panic msg, s1, e1) => (Panic msg, s1, e1)
    | (BeyondLen w, s1, e1) => (BeyondLen w, s1, e1)
    | (OutOfFuel, s1, e1) => (OutOfFuel, s1, e1)
    end.
Definition lift {A} (r : result A) : M A := fun s => (r, s, []).
Definition emit (e : event) : M unit := fun s => (Ok tt, s, [e]).
Definition get : M OpenTTDServer := fun s => (Ok s, s, []).
Definition modify (f : OpenTTDServer -> OpenTTDServer) : M unit :=
  fun s => (Ok tt, f s, []).
End M.

Declare Scope M_scope.
Delimit Scope M_scope with M.
Notation "x <- e ;; k" := (M.bind e (fun x => k))
  (at level 61, e at next level, right associativity) : M_scope.
Notation "' pat <- e ;; k" := (M.bind e (fun x => match x with pat => k end))
  (at level 61, pat pattern, e at next level, right associativity) : M_scope.
Notation "e ;;; k" := (M.bind e (fun _ => k))
  (at level 61, right associativity) : M_scope.

Definition outcome {A} (x : result A * OpenTTDServer * list event) : result A :=
  fst (fst x).
Definition server_of {A} (x : result A * OpenTTDServer * list event) : OpenTTDServer :=
  snd (fst x).
Definition trace {A} (x : result A * OpenTTDServer * list event) : list event :=
  snd x.

Module Mx.
(** The events of a sub-computation, handed to its continuation. *)
Definition listen {A} (m : M A) : M (A * list event) :=
  fun s =>
    match m s with
    | (Ok a, s1, e1) => (Ok (a, e1), s1, e1)
    | (Panic msg, s1, e1) => (Panic msg, s1, e1)
    | (BeyondLen w, s1, e1) => (BeyondLen w, s1, e1)
    | (OutOfFuel, s1, e1) => (OutOfFuel, s1, e1)
    end.

(** [for _, x := range l { body(x) }] *)
Fixpoint forEach {A} (l : list A) (body : A -> M unit) : M unit :=
  match l with
  | [] => M.ret tt
  | x :: rest => M.bind (body x) (fun _ => forEach rest body)
  end.
End Mx.

Local Open Scope M_scope.

(* ================================================================= *)
(** ** Protocol constants *)

Definition adminPacketAdminJOIN : Z := 0.
Definition adminPacketAdminQUIT : Z := 1.
Definition adminPacketAdminUPDATE_FREQUENCY : Z := 2.
Definition adminPacketAdminPOLL : Z := 3.
Definition adminPacketAdminCHAT : Z := 4.
Definition adminPacketAdminRCON : Z := 5.
Definition adminPacketAdminGAMESCRIPT : Z := 6.
Definition adminPacketAdminPING : Z := 7.

Definition adminPacketServerPROTOCOL : Z := 103.
Definition adminPacketServerWELCOME : Z := 104.
Definition adminPacketServerSHUTDOWN : Z := 106.
Definition adminPacketServerDATE : Z := 107.
Definition adminPacketServerCHAT : Z := 119.
Definition adminPacketServerRCON : Z := 120.
Definition adminPacketServerRCON_END : Z := 125.

Definition adminUpdateDATE : Z := 0.

Definition adminFrequencyPOLL : Z := 1.
Definition adminFrequencyDAILY : Z := 2.
Definition adminFrequencyWEEKLY : Z := 4.
Definition adminFrequencyMONTHLY : Z := 8.
Definition adminFrequencyQUARTERLY : Z := 16.
Definition adminFrequencyANUALLY : Z := 32.
Definition adminFrequencyAUTOMATIC : Z := 64.

(* ================================================================= *)
(** ** Outgoing packets *)

(** [server.connection.Write(data)]: a method call on a nil interface
    value panics; the error of [Write] is dropped by every caller. *)
Definition connWrite (data : list byte) : M unit :=
  fun s =>
    match connection s with
    | Some _ => (Ok tt, s, [EvWrite data])
    | None => (Panic "nil pointer dereference", s, [])
    end.

(** The bytes [sendSocket] assembles in [toSend]. *)
Definition sendSocket_bytes (protocol : Z) (data : list byte) : list byte :=
  let size := uint16 (len data + 3) in
  PutUint16 size ++ [to_byte protocol] ++ data.

Definition sendSocket (protocol : Z) (data : list byte) : M unit :=
  connWrite (sendSocket_bytes protocol data).

Definition rconCommand (command : string) : M unit :=
  let rconCommand := list_byte_of_string command ++ [x00] in
  sendSocket adminPacketAdminRCON rconCommand.

(** The login message built inline in [Connect]: [size] is
    [len(toSend) + 2] with the type byte already in [toSend], and the
    prefix is [[]byte{byte(size), 0x0}]. *)
Definition join_bytes (password botName botVersion : string) : list byte :=
  let toSend := [to_byte adminPacketAdminJOIN]
                  ++ list_byte_of_string password ++ [x00]
                  ++ list_byte_of_string botName ++ [x00]
                  ++ list_byte_of_string botVersion ++ [x00] in
  let size := len toSend + 2 in
  [to_byte size; x00] ++ toSend.

(** The registration for date updates sent by [Connect]. *)
Definition updateFrequency_payload (category frequency : Z) : list byte :=
  let updateDateCmd := PutUint16 category in
  let updateDateDaily := PutUint16 frequency in
  [] ++ updateDateCmd ++ updateDateDaily.

(* ================================================================= *)
(** ** The calendar scheduler *)

Definition processCommand (command : string) (dt : date) : string :=
  let command := Replace command "%Y" (Sprintf_0d 4 (Year dt)) (-1) in
  let command := Replace command "%M" (Sprintf_0d 2 (Month dt)) (-1) in
  let command := Replace command "%D" (Sprintf_0d 2 (Day dt)) (-1) in
  command.

Definition RegisterDateChange (period command : string) (server : OpenTTDServer)
    : result OpenTTDServer :=
  if (period =? "daily")%string then
    Ok (set_rconDaily (rconDaily server ++ [command]) server)
  else if (period =? "monthly")%string then
    Ok (set_rconMonthly (rconMonthly server ++ [command]) server)
  else if (period =? "yearly")%string then
    Ok (set_rconYearly (rconYearly server ++ [command]) server)
  else Panic ("bad period " ++ period).

Definition dateChanged (dt : date) : M unit :=
  server <- M.get ;;
  Mx.forEach (rconDaily server)
    (fun rconCommand_ => rconCommand (processCommand rconCommand_ dt)) ;;;
  (if Day dt =? 1
   then Mx.forEach (rconMonthly server)
          (fun rconCommand_ => rconCommand (processCommand rconCommand_ dt))
   else M.ret tt) ;;;
  (if (Day dt =? 1) && (Month dt =? 1)
   then Mx.forEach (rconYearly server)
          (fun rconCommand_ => rconCommand (processCommand rconCommand_ dt))
   else M.ret tt).


(* ================================================================= *)
(** ** Decoding of incoming packets (the branches on [packetType] in
       [listenSocket]) *)

(** [int8(b)] on a byte. *)
Definition int8 (b : byte) : Z :=
  if byte_val b <? 128 then byte_val b else byte_val b - 256.

(** Whether [listenSocket] goes on to [chunk = chunk[packetSize:]] or
    returns. *)
Inductive control : Type := Next | Exit.

Definition decodeWelcome (packetData : list byte) : M unit :=
  M.emit (EvLog LogWelcomeReceived) ;;;
  M.emit (EvLog (LogPacket packetData)) ;;;
  '(name, next) <- M.lift (extractString packetData 0) ;;
  M.modify (set_ServerName name) ;;;
  '(version, next) <- M.lift (extractString packetData next) ;;
  M.modify (set_ServerVersion version) ;;;
  flag <- M.lift (index packetData next) ;;
  (if Byte.eqb flag x00 then M.modify (set_ServerDedicated false)
   else if Byte.eqb flag x01 then M.modify (set_ServerDedicated true)
   else M.emit (EvLog (LogNotBool flag))) ;;;
  '(mapName, next) <- M.lift (extractString packetData (next + 1)) ;;
  M.modify (set_MapName mapName) ;;;
  seedBytes <- M.lift (slice packetData next (next + 4)) ;;
  seed <- M.lift (Uint32 seedBytes) ;;
  M.modify (set_MapSeed seed) ;;;
  landscape <- M.lift (index packetData (next + 4)) ;;
  M.modify (set_MapLandscape landscape) ;;;
  xBytes <- M.lift (slice packetData (next + 9) (next + 11)) ;;
  mapX <- M.lift (Uint16 xBytes) ;;
  M.modify (set_MapX mapX) ;;;
  yBytes <- M.lift (slice packetData (next + 11) (next + 13)) ;;
  mapY <- M.lift (Uint16 yBytes) ;;
  M.modify (set_MapY mapY) ;;;
  server <- M.get ;;
  M.emit (EvLog (LogServer (ServerName server) (ServerVersion server)
                   (ServerDedicated server) (MapName server)
                   (MapX server) (MapY server))).

Definition decodeShutdown : M unit :=
  M.emit (EvLog LogShutdown) ;;;
  M.modify (set_connection None) ;;;
  M.emit EvDisconnected.

(** [int(date)] keeps the value of the [uint32] (a 64-bit [int]). *)
Definition decodeDate (packetData : list byte) : M unit :=
  dateBytes <- M.lift (slice packetData 0 4) ;;
  date_ <- M.lift (Uint32 dateBytes) ;;
  let dt := epochAddDays date_ in
  dateChanged dt.

Definition decodeChat (packetData : list byte) : M unit :=
  b0 <- M.lift (index packetData 0) ;;
  let chatAction := int8 b0 in
  b1 <- M.lift (index packetData 1) ;;
  let chatDestType := int8 b1 in
  idBytes <- M.lift (slice packetData 2 6) ;;
  chatClientID <- M.lift (Uint32 idBytes) ;;
  '(chatMsg, _) <- M.lift (extractString packetData 6) ;;
  tail <- M.lift (slice_from packetData (len packetData - 8)) ;;
  chatData <- M.lift (Uint64 tail) ;;
  M.emit (EvLog (LogChat chatAction chatDestType chatClientID chatMsg chatData)).

Definition decodeRcon (packetData : list byte) : M unit :=
  colourBytes <- M.lift (slice packetData 0 2) ;;
  colour <- M.lift (Uint16 colourBytes) ;;
  '(rconRecvString, _) <- M.lift (extractString packetData 2) ;;
  M.emit (EvLog (LogRcon colour rconRecvString)).

Definition decodeRconEnd (packetData : list byte) : M unit :=
  '(rconEndRecvString, _) <- M.lift (extractString packetData 0) ;;
  M.emit (EvLog (LogRconEnd rconEndRecvString)).

Definition handlePacket (packetType : Z) (packetData : list byte) : M control :=
  if packetType =? adminPacketServerPROTOCOL then M.ret Next
  else if packetType =? adminPacketServerWELCOME then
    decodeWelcome packetData ;;; M.ret Next
  else if packetType =? adminPacketServerSHUTDOWN then
    decodeShutdown ;;; M.ret Exit
  else if packetType =? adminPacketServerDATE then
    decodeDate packetData ;;; M.ret Next
  else if packetType =? adminPacketServerCHAT then
    decodeChat packetData ;;; M.ret Next
  else if packetType =? adminPacketServerRCON then
    decodeRcon packetData ;;; M.ret Next
  else if packetType =? adminPacketServerRCON_END then
    decodeRconEnd packetData ;;; M.ret Next
  else M.emit (EvLog (LogUnknown packetData)) ;;; M.ret Next.

(* ================================================================= *)
(** ** listenSocket: the framer and the read loop *)

(** How the inner [for] of [listenSocket] is left: by
    [continue SocketLoop] with the bytes still in [chunk], or by
    [return]. *)
Inductive drained : Type :=
| NeedData (chunk : list byte)
| Stopped.

(** The inner [for] loop; [fuel] bounds its iterations. *)
Fixpoint processChunk (fuel : nat) (chunk : list byte) : M drained :=
  match fuel with
  | O => M.lift OutOfFuel
  | S fuel' =>
      if len chunk <? 2 then M.ret (NeedData chunk)
      else
        header <- M.lift (slice chunk 0 2) ;;
        packetSize <- M.lift (Uint16 header) ;;
        if packetSize >? uint16 (len chunk) then M.ret (NeedData chunk)
        else
          typeByte <- M.lift (index chunk 2) ;;
          let packetType := byte_val typeByte in
          packetData <- M.lift (slice chunk 3 packetSize) ;;
          M.emit (EvFramed packetType packetData) ;;;
          c <- handlePacket packetType packetData ;;
          match c with
          | Exit => M.ret Stopped
          | Next =>
              chunk' <- M.lift (slice_from chunk packetSize) ;;
              processChunk fuel' chunk'
          end
  end.

(** What [server.connection.Read] gives: [socketData[0:s]], or an error.
    [OpError inner] is a [*net.OpError] whose [Err.Error()] is [inner];
    [OtherError] is an error of any other dynamic type. *)
Inductive go_error : Type :=
| OpError (inner : string)
| OtherError (msg : string).

Inductive read_result : Type :=
| ReadData (data : list byte)
| ReadError (err : go_error).

(** How the reader is found when the reads of the script are used up:
    returned, or blocked in [Read] with [chunk] pending. *)
Inductive reader_exit : Type :=
| Returned
| AwaitingData (chunk : list byte).

Definition onReadError (err : go_error) : M unit :=
  match err with
  | OpError inner =>
      if (inner =? "read: connection reset by peer")%string then
        M.emit (EvLog LogConnectionReset) ;;;
        M.modify (set_connection None) ;;;
        M.emit EvDisconnected
      else M.ret tt
  | OtherError _ =>
      M.emit (EvLog LogSocketError) ;;;
      M.modify (set_connection None) ;;;
      M.emit EvDisconnected
  end.

(** [SocketLoop], run on the successive results of [Read]. *)
Fixpoint socketLoop (reads : list read_result) (chunk : list byte)
    : M reader_exit :=
  match reads with
  | [] => M.ret (AwaitingData chunk)
  | ReadError err :: _ => onReadError err ;;; M.ret Returned
  | ReadData data :: rest =>
      let chunk := chunk ++ data in
      d <- processChunk (S (List.length chunk)) chunk ;;
      match d with
      | NeedData chunk' => socketLoop rest chunk'
      | Stopped => M.ret Returned
      end
  end.

(** [listenSocket] once the receive on [connected] has gone through:
    [var chunk []byte], then [SocketLoop]. *)
Definition listenSocket (reads : list read_result) : M reader_exit :=
  socketLoop reads [].

(* ================================================================= *)
(** ** Connect: handshake and reconnect loop *)

(** One turn of the [for] of [Connect]: the dial fails, or it succeeds and
    the reader of that connection sees [reads]. *)
Inductive attempt : Type :=
| DialError
| Dialed (reads : list read_result).

(** Where [Connect] stands when the script is used up. *)
Inductive connect_exit : Type :=
| AboutToDial
    (** back at the top of the [for] *)
| Serving (chunk : list byte)
    (** waiting in [<-server.disconnected], the reader blocked in [Read] *)
| WaitingForever.
    (** waiting in [<-server.disconnected] after the reader returned
        without sending on the channel *)

Definition is_disconnected (e : event) : bool :=
  match e with EvDisconnected => true | _ => false end.

(** The two writes of [Connect] on a new connection: the login message,
    then the registration for date updates through [sendSocket]. *)
Definition handshake (password botName botVersion : string) : M unit :=
  connWrite (join_bytes password botName botVersion) ;;;
  sendSocket adminPacketAdminUPDATE_FREQUENCY
    (updateFrequency_payload adminUpdateDATE adminFrequencyDAILY).

(** [Connect] in the usual order of its two goroutines: the reader
    receives on the [connected] channel of the turn, and both writes of
    the handshake are done before it handles its first result of [Read].
    Nothing in the code enforces that order; the other orders are those
    of [Sched.Connect_from].  [k] numbers the dials. *)
Fixpoint Connect_from (k : nat) (password botName botVersion : string)
    (script : list attempt) : M connect_exit :=
  match script with
  | [] => M.ret AboutToDial
  | DialError :: rest =>
      M.emit (EvLog LogConnecting) ;;;
      M.emit (EvDial false) ;;;
      M.emit (EvLog LogConnectError) ;;;
      M.emit (EvSleep 2) ;;;
      Connect_from (S k) password botName botVersion rest
  | Dialed reads :: rest =>
      M.emit (EvLog LogConnecting) ;;;
      M.emit (EvDial true) ;;;
      M.emit (EvLog LogConnected) ;;;
      M.emit EvSpawnReader ;;;
      M.modify (set_connection (Some k)) ;;;
      M.emit EvConnected ;;;
      handshake password botName botVersion ;;;
      '(r, heard) <- Mx.listen (listenSocket reads) ;;
      match r with
      | AwaitingData chunk => M.ret (Serving chunk)
      | Returned =>
          if existsb is_disconnected heard then
            M.emit (EvLog LogReconnecting) ;;;
            M.emit (EvSleep 2) ;;;
            Connect_from (S k) password botName botVersion rest
          else M.ret WaitingForever
      end
  end.

Definition Connect (password botName botVersion : string)
    (script : list attempt) : M connect_exit :=
  Connect_from 0 password botName botVersion script.

(** The earlier, free-standing [Connect] (no server object, no reconnect):
    the same login message, and a registration at the monthly bit. *)
Module Legacy.
Definition handshake_writes (password botName botVersion : string)
    : list (list byte) :=
  [ join_bytes password botName botVersion;
    sendSocket_bytes adminPacketAdminUPDATE_FREQUENCY
      (updateFrequency_payload adminUpdateDATE adminFrequencyMONTHLY) ].
End Legacy.

(* ================================================================= *)
(** ** Vocabulary of the properties *)

(** The command list of a period name. *)
Definition commands (period : string) (server : OpenTTDServer) : list string :=
  if (period =? "daily")%string then rconDaily server
  else if (period =? "monthly")%string then rconMonthly server
  else if (period =? "yearly")%string then rconYearly server
  else [].

Definition valid_period (period : string) : Prop :=
  period = "daily" \/ period = "monthly" \/ period = "yearly".

(** The commands registered under [period], in registration order. *)
Definition registered (period : string) (regs : list (string * string))
    : list string :=
  map snd (filter (fun r => (fst r =? period)%string) regs).

(** The commands that are due on the date [dt], in dispatch order. *)
Definition due (dt : date) (regs : list (string * string)) : list string :=
  registered "daily" regs
  ++ (if Day dt =? 1 then registered "monthly" regs else [])
  ++ (if (Day dt =? 1) && (Month dt =? 1) then registered "yearly" regs else []).

(** The RCON packet of a literal command string. *)
Definition rconPacket (command : string) : list byte :=
  sendSocket_bytes adminPacketAdminRCON (list_byte_of_string command ++ [x00]).

(** One left-to-right pass that replaces each token [%Y], [%M], [%D] by
    [year], [month], [day]. *)
Fixpoint substitute (year month day s : string) : string :=
  match s with
  | EmptyString => EmptyString
  | String c rest =>
      if (c =? "%")%char then
        match rest with
        | String t rest' =>
            if (t =? "Y")%char then (year ++ substitute year month day rest')%string
            else if (t =? "M")%char then (month ++ substitute year month day rest')%string
            else if (t =? "D")%char then (day ++ substitute year month day rest')%string
            else String c (substitute year month day rest)
        | EmptyString => String c (substitute year month day rest)
        end
      else String c (substitute year month day rest)
  end.

(** The pass for a single token [%t]. *)
Fixpoint replace_token (t : ascii) (new s : string) : string :=
  match s with
  | EmptyString => EmptyString
  | String c rest =>
      if (c =? "%")%char then
        match rest with
        | String t' rest' =>
            if (t' =? t)%char then (new ++ replace_token t new rest')%string
            else String c (replace_token t new rest)
        | EmptyString => String c (replace_token t new rest)
        end
      else String c (replace_token t new rest)
  end.

Definition digit_char (d : Z) : ascii := ascii_of_nat (48 + Z.to_nat d).

(** The [k] lowest decimal digits of [n], most significant first: the
    [k]-digit zero-padded numeral of [n] when [0 <= n < 10^k]. *)
Fixpoint digits (k : nat) (n : Z) : string :=
  match k with
  | O => EmptyString
  | S k' => (digits k' (n / 10) ++ String (digit_char (n mod 10)) EmptyString)%string
  end.

(** A character that a formatted number can contain. *)
Definition plain_char (c : ascii) : bool :=
  ((48 <=? nat_of_ascii c)%nat && (nat_of_ascii c <=? 57)%nat) || (c =? "-")%char.

Fixpoint plain (s : string) : bool :=
  match s with
  | EmptyString => true
  | String c rest => plain_char c && plain rest
  end.

Definition token_letter (c : ascii) : bool :=
  (c =? "Y")%char || (c =? "M")%char || (c =? "D")%char.

(** A string that does not begin with a token letter. *)
Definition hd_ok (s : string) : Prop :=
  match s with
  | EmptyString => True
  | String c _ => token_letter c = false
  end.

Definition quote : string := String (ascii_of_nat 34) EmptyString.

(** The template [say "Hello %Y-%M-%D"] and its instance for 2020-11-05. *)
Definition hello_template : string :=
  ("say " ++ quote ++ "Hello %Y-%M-%D" ++ quote)%string.
Definition hello_2020_11_05 : string :=
  ("say " ++ quote ++ "Hello 2020-11-05" ++ quote)%string.


Definition example_server : OpenTTDServer :=
  mkServer None "" "" false "" 0 x00 0 0
    ["say day %D"%string; "say hello"%string]
    ["save mygame-%Y-%M"%string]
    ["screenshot giant screenshot-%Y%M%D"%string].

(** The wire format of a message, as the protocol states it: the two-byte
    little-endian length [3 + len(data)], the type byte [ty], the payload
    [data]. *)
Definition framed_packet (ty : byte) (data : list byte) : list byte :=
  PutUint16 (3 + len data) ++ [ty] ++ data.

(** The length a packet declares in its first two bytes. *)
Definition declared_length (packet : list byte) : result Z :=
  Uint16 packet.

(** The payload of the login message. *)
Definition join_payload (password botName botVersion : string) : list byte :=
  list_byte_of_string password ++ [x00]
  ++ list_byte_of_string botName ++ [x00]
  ++ list_byte_of_string botVersion ++ [x00].

Fixpoint string_repeat (c : ascii) (k : nat) : string :=
  match k with
  | O => EmptyString
  | S k' => String c (string_repeat c k')
  end.

(** A password of 256 characters. *)
Definition long_password : string := string_repeat "x" 256.




(** A connection whose first read fails with a [*net.OpError] for a
    timeout, and a server that would accept a second connection. *)
Definition timeout_script : list attempt :=
  [ Dialed [ReadError (OpError "read: connection timed out")];
    Dialed [] ].

(** A connection on which the server sends a length header of 0. *)
Definition undersized_script : list attempt :=
  [ Dialed [ReadData [x00; x00; x67]];
    Dialed [] ].

Definition is_dial (e : event) : bool :=
  match e with EvDial _ => true | _ => false end.

(** The packets framed in a trace, in order. *)
Fixpoint framed (tr : list event) : list (Z * list byte) :=
  match tr with
  | [] => []
  | EvFramed ty data :: rest => (ty, data) :: framed rest
  | _ :: rest => framed rest
  end.

(** A stream cut into reads of the given sizes; what is left after them
    is the last read. *)
Fixpoint cut (sizes : list nat) (stream : list byte) : list (list byte) :=
  match sizes with
  | [] => [stream]
  | n :: sizes' => firstn n stream :: cut sizes' (skipn n stream)
  end.

(** A packet of type 103 with the largest length a header can declare,
    65535, followed by a packet of type 103 without payload. *)
Definition big_packet : list byte :=
  [xff; xff; x67] ++ repeat x00 (Z.to_nat 65532).
Definition small_packet : list byte := [x03; x00; x67].
Definition two_packets : list byte := big_packet ++ small_packet.

(** Two ways in which [Read], with its buffer of 1024 bytes, can deliver
    [two_packets]: 63 full reads, one of 1023 bytes and one of 3; or 64
    full reads and one of 2 bytes. *)
Definition reads_1023 : list (list byte) :=
  cut (repeat 1024%nat 63 ++ [1023%nat]) two_packets.
Definition reads_1024 : list (list byte) :=
  cut (repeat 1024%nat 64) two_packets.

Definition connectedServer : OpenTTDServer := set_connection (Some 0%nat) zeroServer.

(** A byte other than the terminator. *)
Definition nonzero (b : byte) : Prop := b <> x00.

(** The two-byte pattern of a token. *)
Definition token_pattern (t : ascii) : string := String "%" (String t EmptyString).

(** The three replacements of [processCommand], on token passes. *)
Definition three_passes (year month day s : string) : string :=
  replace_token "D" day (replace_token "M" month (replace_token "Y" year s)).

(** A stream of packets, each given by its type byte and its payload. *)
Definition encode_stream (packets : list (byte * list byte)) : list byte :=
  List.concat (map (fun p => framed_packet (fst p) (snd p)) packets).

(** The packets handed to the decoders one after the other, for as long
    as the reader goes on. *)
Fixpoint deliver (packets : list (byte * list byte)) : M control :=
  match packets with
  | [] => M.ret Next
  | (ty, data) :: rest =>
      M.emit (EvFramed (byte_val ty) data) ;;;
      c <- handlePacket (byte_val ty) data ;;
      match c with
      | Exit => M.ret Exit
      | Next => deliver rest
      end
  end.

(** The reader after the last read of a stream of whole packets. *)
Definition finish (c : control) : reader_exit :=
  match c with
  | Next => AwaitingData []
  | Exit => Returned
  end.

(** A buffer that does not yet hold the packet at its head. *)
Definition incomplete (b : list byte) : Prop :=
  len b < 2 \/ exists v, declared_length b = Ok v /\ len b < v.

(** A run that did not exhaust an iteration bound of the embedding. *)
Definition terminates {A} (x : result A * OpenTTDServer * list event) : Prop :=
  outcome x <> OutOfFuel.

(** The calendar, day by day: leap years, month lengths and the day after
    a date. *)
Definition leap (y : Z) : bool :=
  ((y mod 4 =? 0) && negb (y mod 100 =? 0)) || (y mod 400 =? 0).

Definition days_in_month (y m : Z) : Z :=
  if m =? 2 then (if leap y then 29 else 28)
  else if (m =? 4) || (m =? 6) || (m =? 9) || (m =? 11) then 30
  else 31.

Definition nextDay (dt : date) : date :=
  if Day dt <? days_in_month (Year dt) (Month dt)
  then mkDate (Year dt) (Month dt) (Day dt + 1)
  else if Month dt <? 12
       then mkDate (Year dt) (Month dt + 1) 1
       else mkDate (Year dt + 1) 1 1.

Definition date_eqb (a b : date) : bool :=
  (Year a =? Year b) && (Month a =? Month b) && (Day a =? Day b).

(** [epochAddDays] steps like [nextDay] on the [count] days from [n] on. *)
Fixpoint steps_like_calendar (count : nat) (n : Z) : bool :=
  match count with
  | O => true
  | S count' =>
      date_eqb (epochAddDays (n + 1)) (nextDay (epochAddDays n))
      && steps_like_calendar count' (n + 1)
  end.

(** [%0wd] prints exactly the [w] low digits on the [count] numbers from
    [n] on. *)
Fixpoint prints_digits_from (w count : nat) (n : Z) : bool :=
  match count with
  | O => true
  | S count' =>
      (Sprintf_0d w n =? digits w n)%string && prints_digits_from w count' (n + 1)
  end.

(** What a run of the reader shows of the framing: the number of bytes
    left in the buffer when it waits for data, the type and payload length
    of every packet framed, and the number of events. *)
Definition run_summary (x : result reader_exit * OpenTTDServer * list event)
    : option Z * list (Z * Z) * nat :=
  (match outcome x with
   | Ok (AwaitingData chunk) => Some (len chunk)
   | _ => None
   end,
   map (fun p => (fst p, len (snd p))) (framed (trace x)),
   List.length (trace x)).

(* ================================================================= *)
(** ** Vocabulary of the further properties *)

(** The [k]-byte little-endian representation of [v], as the peer writes
    its integer fields. *)
Fixpoint le_bytes (k : nat) (v : Z) : list byte :=
  match k with
  | O => []
  | S k' => to_byte v :: le_bytes k' (v / 256)
  end.

(** The payload of a Welcome packet, field by field: server name, server
    version, dedicated flag, map name, map seed, landscape, start date,
    map width, map height. *)
Definition welcome_bytes (name version : list byte) (flag : byte)
    (mapName : list byte) (seed : Z) (landscape : byte) (startDate : Z)
    (x y : Z) : list byte :=
  name ++ [x00] ++ version ++ [x00] ++ [flag] ++ mapName ++ [x00]
  ++ le_bytes 4 seed ++ [landscape] ++ le_bytes 4 startDate
  ++ le_bytes 2 x ++ le_bytes 2 y.

(** The payload of a Chat packet: action, destination type, client id,
    message, eight bytes of data. *)
Definition chat_bytes (action destType : byte) (clientID : Z)
    (msg : list byte) (data : Z) : list byte :=
  [action; destType] ++ le_bytes 4 clientID ++ msg ++ [x00] ++ le_bytes 8 data.

(** The events of [e] put before those of a run. *)
Definition prepend {A} (e : list event)
    (x : result A * OpenTTDServer * list event)
    : result A * OpenTTDServer * list event :=
  (outcome x, server_of x, e ++ trace x).

(** A computation that leaves the part [proj] of the server object as it
    found it, whatever its outcome. *)
Definition keeps {A X} (proj : OpenTTDServer -> X) (m : M A) : Prop :=
  forall s, proj (server_of (m s)) = proj s.

(** The three command lists. *)
Definition registrations (s : OpenTTDServer) :=
  (rconDaily s, rconMonthly s, rconYearly s).

(** A string without any token [%Y], [%M], [%D]. *)
Fixpoint token_free (s : string) : bool :=
  match s with
  | EmptyString => true
  | String c rest =>
      match rest with
      | String t _ =>
          negb ((c =? "%")%char && token_letter t) && token_free rest
      | EmptyString => true
      end
  end.

(* ================================================================= *)
(** ** cmd/openttd_multitool: main *)

Definition currentVersion : string := "0.02".

(** [for _, value := range values { server.RegisterDateChange(period, value) }] *)
Fixpoint registerEach (period : string) (values : list string)
    (server : OpenTTDServer) : result OpenTTDServer :=
  match values with
  | [] => Ok server
  | value :: rest =>
      R.bind (RegisterDateChange period value server) (registerEach period rest)
  end.

(** How the process of [main] stands at the end of a script: left through
    [os.Exit], or inside [server.Connect]. *)
Inductive process_end : Type :=
| ExitStatus (code : Z) (message : string)
| Connecting (run : result connect_exit * OpenTTDServer * list event)
| Crashed (msg : string).

(** [main] after [flag.Parse()]: [daily], [monthly], [yearly] are the
    values collected by the three flags, [password] the password flag;
    the host name and the port only reach [net.Dial], whose results are
    the script. *)
Definition main (password : string) (daily monthly yearly : list string)
    (script : list attempt) : process_end :=
  if (password =? "")%string then
    ExitStatus 1 "ERROR: You must supply a password"
  else
    let server := zeroServer in
    match R.bind (registerEach "daily" daily server) (fun server =>
          R.bind (registerEach "monthly" monthly server) (fun server =>
          registerEach "yearly" yearly server)) with
    | Ok server =>
        Connecting (Connect password "openttd-multitool" currentVersion script server)
    | Panic msg => Crashed msg
    | BeyondLen what => Crashed what
    | OutOfFuel => Crashed "out of fuel"
    end.

(* ================================================================= *)
(** ** The earlier admin.go (free functions, no server object) *)

Module LegacyDecode.
(** [extractString(bytes []byte) string] of the earlier file: the same
    loop from offset 0, with the string as only result. *)
Fixpoint extractString_loop (fuel : nat) (bytes str : list byte) (i : Z)
    : result string :=
  match fuel with
  | O => OutOfFuel
  | S fuel' =>
      if i <=? len bytes then
        R.bind (index bytes i) (fun b =>
          if Byte.eqb b x00 then Ok (string_of_list_byte str)
          else extractString_loop fuel' bytes (str ++ [b]) (i + 1))
      else Ok EmptyString
  end.

Definition extractString (bytes : list byte) : result string :=
  extractString_loop (S (S (List.length bytes))) bytes [] 0.
End LegacyDecode.

(* ================================================================= *)
(** ** The reader with the capacity of its buffer

    [packetData] is a view of [chunk] ([chunk[3:packetSize]]), and Go
    checks the upper bound of a slice expression against the capacity of
    the backing array.  The bytes of that array after [len(chunk)] have
    never been written ([append] writes at the end, [chunk[packetSize:]]
    only moves the start, a new array is cleared beyond the copied part),
    so they are zero; how many there are is the choice of the run-time's
    [growslice], a parameter here.  This reader follows the runs that
    [slice] ends with [BeyondLen]: a slice above [len(packetData)] yields
    the bytes that follow the packet in the buffer, then zeros, and panics
    only above the capacity. *)

Module Cap.

(** [s[lo:hi]] where [beyond] are the bytes of the backing array between
    [len(s)] and [cap(s)]. *)
Definition slice {A} (s beyond : list A) (lo hi : Z) : result (list A) :=
  if (lo <? 0) || (hi <? lo) then Panic "slice bounds out of range"
  else if len s + len beyond <? hi then Panic "slice bounds out of range"
  else Ok (firstn (Z.to_nat (hi - lo)) (skipn (Z.to_nat lo) (s ++ beyond))).

Definition decodeWelcome (beyond packetData : list byte) : M unit :=
  M.emit (EvLog LogWelcomeReceived) ;;;
  M.emit (EvLog (LogPacket packetData)) ;;;
  '(name, next) <- M.lift (extractString packetData 0) ;;
  M.modify (set_ServerName name) ;;;
  '(version, next) <- M.lift (extractString packetData next) ;;
  M.modify (set_ServerVersion version) ;;;
  flag <- M.lift (index packetData next) ;;
  (if Byte.eqb flag x00 then M.modify (set_ServerDedicated false)
   else if Byte.eqb flag x01 then M.modify (set_ServerDedicated true)
   else M.emit (EvLog (LogNotBool flag))) ;;;
  '(mapName, next) <- M.lift (extractString packetData (next + 1)) ;;
  M.modify (set_MapName mapName) ;;;
  seedBytes <- M.lift (slice packetData beyond next (next + 4)) ;;
  seed <- M.lift (Uint32 seedBytes) ;;
  M.modify (set_MapSeed seed) ;;;
  landscape <- M.lift (index packetData (next + 4)) ;;
  M.modify (set_MapLandscape landscape) ;;;
  xBytes <- M.lift (slice packetData beyond (next + 9) (next + 11)) ;;
  mapX <- M.lift (Uint16 xBytes) ;;
  M.modify (set_MapX mapX) ;;;
  yBytes <- M.lift (slice packetData beyond (next + 11) (next + 13)) ;;
  mapY <- M.lift (Uint16 yBytes) ;;
  M.modify (set_MapY mapY) ;;;
  server <- M.get ;;
  M.emit (EvLog (LogServer (ServerName server) (ServerVersion server)
                   (ServerDedicated server) (MapName server)
                   (MapX server) (MapY server))).

Definition decodeDate (beyond packetData : list byte) : M unit :=
  dateBytes <- M.lift (slice packetData beyond 0 4) ;;
  date_ <- M.lift (Uint32 dateBytes) ;;
  let dt := epochAddDays date_ in
  dateChanged dt.

Definition decodeChat (beyond packetData : list byte) : M unit :=
  b0 <- M.lift (index packetData 0) ;;
  let chatAction := int8 b0 in
  b1 <- M.lift (index packetData 1) ;;
  let chatDestType := int8 b1 in
  idBytes <- M.lift (slice packetData beyond 2 6) ;;
  chatClientID <- M.lift (Uint32 idBytes) ;;
  '(chatMsg, _) <- M.lift (extractString packetData 6) ;;
  tail <- M.lift (slice_from packetData (len packetData - 8)) ;;
  chatData <- M.lift (Uint64 tail) ;;
  M.emit (EvLog (LogChat chatAction chatDestType chatClientID chatMsg chatData)).

Definition decodeRcon (beyond packetData : list byte) : M unit :=
  colourBytes <- M.lift (slice packetData beyond 0 2) ;;
  colour <- M.lift (Uint16 colourBytes) ;;
  '(rconRecvString, _) <- M.lift (extractString packetData 2) ;;
  M.emit (EvLog (LogRcon colour rconRecvString)).

Definition handlePacket (beyond : list byte) (packetType : Z)
    (packetData : list byte) : M control :=
  if packetType =? adminPacketServerPROTOCOL then M.ret Next
  else if packetType =? adminPacketServerWELCOME then
    decodeWelcome beyond packetData ;;; M.ret Next
  else if packetType =? adminPacketServerSHUTDOWN then
    decodeShutdown ;;; M.ret Exit
  else if packetType =? adminPacketServerDATE then
    decodeDate beyond packetData ;;; M.ret Next
  else if packetType =? adminPacketServerCHAT then
    decodeChat beyond packetData ;;; M.ret Next
  else if packetType =? adminPacketServerRCON then
    decodeRcon beyond packetData ;;; M.ret Next
  else if packetType =? adminPacketServerRCON_END then
    decodeRconEnd packetData ;;; M.ret Next
  else M.emit (EvLog (LogUnknown packetData)) ;;; M.ret Next.

(** The inner loop; [spare] is [cap(chunk) - len(chunk)], which
    [chunk = chunk[packetSize:]] does not change. *)
Fixpoint processChunk (spare : Z) (fuel : nat) (chunk : list byte) : M drained :=
  match fuel with
  | O => M.lift OutOfFuel
  | S fuel' =>
      if len chunk <? 2 then M.ret (NeedData chunk)
      else
        header <- M.lift (slice chunk (repeat x00 (Z.to_nat spare)) 0 2) ;;
        packetSize <- M.lift (Uint16 header) ;;
        if packetSize >? uint16 (len chunk) then M.ret (NeedData chunk)
        else
          typeByte <- M.lift (index chunk 2) ;;
          let packetType := byte_val typeByte in
          packetData <-
            M.lift (slice chunk (repeat x00 (Z.to_nat spare)) 3 packetSize) ;;
          let beyond :=
            skipn (Z.to_nat packetSize) chunk ++ repeat x00 (Z.to_nat spare) in
          M.emit (EvFramed packetType packetData) ;;;
          c <- handlePacket beyond packetType packetData ;;
          match c with
          | Exit => M.ret Stopped
          | Next =>
              chunk' <- M.lift (slice_from chunk packetSize) ;;
              processChunk spare fuel' chunk'
          end
  end.

(** How the reader is found when the reads of the script are used up:
    returned, or blocked in [Read] with [chunk] pending and [spare] bytes
    of its backing array after it. *)
Inductive reader_exit : Type :=
| Returned
| AwaitingData (chunk : list byte) (spare : Z).

Section Growth.
(** The capacity that [append] gives a new backing array: the old
    capacity and the length needed are what the run-time decides from. *)
Variable growslice : Z -> Z -> Z.

(** [cap - len] after [chunk = append(chunk, data...)]: the data goes
    into the spare bytes when it fits, into a new array otherwise. *)
Definition spare_after_append (chunk : list byte) (spare : Z) (data : list byte) : Z :=
  if len data <=? spare then spare - len data
  else Z.max 0 (growslice (len chunk + spare) (len chunk + len data)
                - (len chunk + len data)).

Fixpoint socketLoop (reads : list read_result) (chunk : list byte) (spare : Z)
    : M reader_exit :=
  match reads with
  | [] => M.ret (AwaitingData chunk spare)
  | ReadError err :: _ => onReadError err ;;; M.ret Returned
  | ReadData data :: rest =>
      let spare := spare_after_append chunk spare data in
      let chunk := chunk ++ data in
      d <- processChunk spare (S (List.length chunk)) chunk ;;
      match d with
      | NeedData chunk' => socketLoop rest chunk' spare
      | Stopped => M.ret Returned
      end
  end.

(** [var chunk []byte]: length 0, capacity 0. *)
Definition listenSocket (reads : list read_result) : M reader_exit :=
  socketLoop reads [] 0.

(** The reader taken up again where it was found. *)
Definition resume (reads : list read_result) (r : reader_exit) : M reader_exit :=
  match r with
  | Returned => M.ret Returned
  | AwaitingData chunk spare => socketLoop reads chunk spare
  end.
End Growth.

End Cap.

(** An exit of this reader without the capacity. *)
Definition reader_exit_of (r : Cap.reader_exit) : reader_exit :=
  match r with
  | Cap.Returned => Returned
  | Cap.AwaitingData chunk _ => AwaitingData chunk
  end.

(* ================================================================= *)
(** ** Connect with the reader as a goroutine

    [go server.listenSocket()] (line 180) starts the reader before
    [Connect] makes the channels, sets [server.connection] and sends on
    [connected]; after that the reader handles the results of [Read]
    while [Connect] goes on to its two writes, and nothing orders the
    two goroutines until [Connect] waits in [<-server.disconnected].  A
    schedule says where the steps of the reader fall among those of
    [Connect].  A write of [Connect] is placed between two results of
    [Read]: the reader clears [server.connection] only as its last step on
    a result, so a write placed within the handling of a result finds the
    field as a write placed before or after that result does, and only
    the order of the entries of the trace is another. *)

Record schedule : Type := mkSchedule {
  reader_first : bool;
    (** the reader evaluates [<-server.connected] before line 182 has
        made the channel of this turn *)
  before_join : nat;
    (** the results of [Read] the reader handles before the [Write] of
        line 202 *)
  before_register : nat
    (** those it handles after that and before the [Write] of line 299 *)
}.

(** The order in which [Connect] does both writes before the reader
    handles its first result. *)
Definition usual : schedule := mkSchedule false 0 0.

Module Sched.

(** Where [Connect] stands when the script is used up. *)
Inductive connect_exit : Type :=
| AboutToDial
| Serving (chunk : list byte) (spare : Z)
| WaitingForever
| BothBlocked.
    (** the reader receives on the channel [server.connected] held before
        this turn (nil in the first turn, of the last connection later)
        and [Connect] sends on the new one: neither goes on *)

Section Growth.
Variable growslice : Z -> Z -> Z.

Fixpoint Connect_from (k : nat) (password botName botVersion : string)
    (script : list (schedule * attempt)) : M connect_exit :=
  match script with
  | [] => M.ret AboutToDial
  | (_, DialError) :: rest =>
      M.emit (EvLog LogConnecting) ;;;
      M.emit (EvDial false) ;;;
      M.emit (EvLog LogConnectError) ;;;
      M.emit (EvSleep 2) ;;;
      Connect_from (S k) password botName botVersion rest
  | (sch, Dialed reads) :: rest =>
      M.emit (EvLog LogConnecting) ;;;
      M.emit (EvDial true) ;;;
      M.emit (EvLog LogConnected) ;;;
      M.emit EvSpawnReader ;;;
      M.modify (set_connection (Some k)) ;;;
      if reader_first sch then M.ret BothBlocked
      else
        M.emit EvConnected ;;;
        let reads1 := firstn (before_join sch) reads in
        let reads2 := firstn (before_register sch) (skipn (before_join sch) reads) in
        let reads3 := skipn (before_register sch) (skipn (before_join sch) reads) in
        '(r1, heard1) <- Mx.listen (Cap.listenSocket growslice reads1) ;;
        connWrite (join_bytes password botName botVersion) ;;;
        '(r2, heard2) <- Mx.listen (Cap.resume growslice reads2 r1) ;;
        sendSocket adminPacketAdminUPDATE_FREQUENCY
          (updateFrequency_payload adminUpdateDATE adminFrequencyDAILY) ;;;
        '(r3, heard3) <- Mx.listen (Cap.resume growslice reads3 r2) ;;
        match r3 with
        | Cap.AwaitingData chunk spare => M.ret (Serving chunk spare)
        | Cap.Returned =>
            if existsb is_disconnected (heard1 ++ heard2 ++ heard3) then
              M.emit (EvLog LogReconnecting) ;;;
              M.emit (EvSleep 2) ;;;
              Connect_from (S k) password botName botVersion rest
            else M.ret WaitingForever
        end
  end.

Definition Connect (password botName botVersion : string)
    (script : list (schedule * attempt)) : M connect_exit :=
  Connect_from 0 password botName botVersion script.
End Growth.

End Sched.

(** An exit of this [Connect] without the capacity.  [BothBlocked], which
    the usual order does not have, is shown as the wait without end that
    it is for [Connect]. *)
Definition connect_exit_of (c : Sched.connect_exit) : connect_exit :=
  match c with
  | Sched.AboutToDial => AboutToDial
  | Sched.Serving chunk _ => Serving chunk
  | Sched.WaitingForever | Sched.BothBlocked => WaitingForever
  end.

(** A run with its result seen through [f]. *)
Definition map_run {A B} (f : A -> B) (x : result A * OpenTTDServer * list event)
    : result B * OpenTTDServer * list event :=
  (match outcome x with
   | Ok a => Ok (f a)
   | Panic msg => Panic msg
   | BeyondLen w => BeyondLen w
   | OutOfFuel => OutOfFuel
   end, server_of x, trace x).

Definition is_beyond {A} (r : result A) : bool :=
  match r with BeyondLen _ => true | _ => false end.

(** The second run is the first one, unless the first one was cut at a
    slice above the length. *)
Definition followed_by {A} (x y : result A * OpenTTDServer * list event) : Prop :=
  is_beyond (outcome x) = false -> y = x.

(** Every dial in the usual order. *)
Definition in_usual_order (script : list attempt) : list (schedule * attempt) :=
  map (fun a => (usual, a)) script.

(** An outcome of the code itself: a result or a panic. *)
Definition of_code {A} (r : result A) : Prop :=
  is_ok r = true \/ is_panic r = true.

(** A run that ended as the code can end. *)
Definition ends_as_code {A} (x : result A * OpenTTDServer * list event) : Prop :=
  of_code (outcome x).

(** The second computation does what the first does, on every server
    object, unless the first is cut at a slice above the length. *)
Definition follows {A} (m m' : M A) : Prop :=
  forall s, followed_by (m s) (m' s).

(** The reader of the connection of dial [k] once it has handled the
    first [n] results of [Read]. *)
Definition reader_after (growslice : Z -> Z -> Z) (k : nat)
    (reads : list read_result) (n : nat) (s : OpenTTDServer)
    : result Cap.reader_exit * OpenTTDServer * list event :=
  Cap.listenSocket growslice (firstn n reads) (set_connection (Some k) s).

(** What a turn of [Connect] that gets a connection records before the
    two goroutines meet on [connected]. *)
Definition dialed : list event :=
  [EvLog LogConnecting; EvDial true; EvLog LogConnected; EvSpawnReader].

(** The registration for daily date updates on the wire. *)
Definition registration : list byte := [x07; x00; x02; x00; x00; x02; x00].

(** The number that a string of decimal digits denotes; no number for a
    string with any other character. *)
Definition numeral_value (s : string) : option Z :=
  match NilEmpty.uint_of_string s with
  | Some d => Some (Z.of_N (N.of_uint d))
  | None => None
  end.

(** A Welcome payload whose three strings are followed by the thirteen
    bytes of the fixed fields (seed, landscape, start date, width and
    height).  A payload on which a string is not terminated makes the
    decoder panic before it takes a slice. *)
Definition welcome_fits (packetData : list byte) : bool :=
  match extractString packetData 0 with
  | Ok (_, next) =>
      match extractString packetData next with
      | Ok (_, next) =>
          match extractString packetData (next + 1) with
          | Ok (_, next) => next + 13 <=? len packetData
          | _ => true
          end
      | _ => true
      end
  | _ => true
  end.

(** A payload that holds the bytes its decoder takes with a slice: the
    fixed fields of a Welcome packet, four bytes of a Date packet, six of
    a Chat packet, two of an RCON packet.  The other decoders take no
    slice. *)
Definition long_enough (p : byte * list byte) : bool :=
  let ty := byte_val (fst p) in
  if ty =? adminPacketServerPROTOCOL then true
  else if ty =? adminPacketServerWELCOME then welcome_fits (snd p)
  else if ty =? adminPacketServerSHUTDOWN then true
  else if ty =? adminPacketServerDATE then 4 <=? len (snd p)
  else if ty =? adminPacketServerCHAT then 6 <=? len (snd p)
  else if ty =? adminPacketServerRCON then 2 <=? len (snd p)
  else true.

(** Packets as the reader records them: the type as a number. *)
Definition tagged (packets : list (byte * list byte)) : list (Z * list byte) :=
  map (fun p => (byte_val (fst p), snd p)) packets.

(** A run that frames no packet. *)
Definition frames_nothing {A} (x : result A * OpenTTDServer * list event) : Prop :=
  framed (trace x) = [].

(** [growslice] that allocates exactly the length needed, and one that
    rounds it up to a multiple of 8: two choices a run-time could make. *)
Definition grow_exact (oldCap needed : Z) : Z := needed.
Definition grow_round8 (oldCap needed : Z) : Z := 8 * ((needed + 7) / 8).

(** A Date packet with a payload of two bytes, followed by an RCON-end
    packet with the text "ok". *)
Definition short_date_stream : list byte :=
  [x05; x00; x6b; x01; x00] ++ [x06; x00; x7d; x6f; x6b; x00].

(** A connected server object with one daily command. *)
Definition dailyServer : OpenTTDServer :=
  set_rconDaily ["d %Y-%M-%D"%string] connectedServer.

(* ################################################################# *)
(** * Properties *)

(* ================================================================= *)
(** ** Bytes and lengths *)

Lemma len_nil {A} : len (@nil A) = 0.
Proof. reflexivity. Qed.

Lemma len_cons {A} (a : A) (l : list A) : len (a :: l) = len l + 1.
Proof. unfold len. cbn [List.length]. lia. Qed.

Lemma len_app {A} (l1 l2 : list A) : len (l1 ++ l2) = len l1 + len l2.
Proof. unfold len. rewrite length_app. lia. Qed.

Lemma len_nonneg {A} (l : list A) : 0 <= len l.
Proof. unfold len. lia. Qed.

Lemma byte_val_range (b : byte) : 0 <= byte_val b < 256.
Proof.
  unfold byte_val. pose proof (Byte.to_N_bounded b). lia.
Qed.

Lemma byte_val_to_byte (z : Z) : byte_val (to_byte z) = z mod 256.
Proof.
  unfold byte_val, to_byte.
  pose proof (Z.mod_pos_bound z 256 ltac:(lia)) as Hm.
  destruct (Byte.of_N (Z.to_N (z mod 256))) as [b|] eqn:E.
  - apply Byte.to_of_N in E. rewrite E. lia.
  - apply Byte.of_N_None_iff in E. lia.
Qed.

Lemma to_byte_byte_val (b : byte) : to_byte (byte_val b) = b.
Proof.
  unfold to_byte, byte_val.
  pose proof (Byte.to_N_bounded b) as Hb.
  rewrite Z.mod_small by lia.
  rewrite N2Z.id, Byte.of_to_N. reflexivity.
Qed.

Lemma byte_eqb_eq (a b : byte) : Byte.eqb a b = true <-> a = b.
Proof.
  split.
  - apply Byte.byte_dec_bl.
  - apply Byte.byte_dec_lb.
Qed.

Lemma byte_eqb_neq (a b : byte) : Byte.eqb a b = false <-> a <> b.
Proof.
  split.
  - apply Byte.eqb_false.
  - intros Hne. destruct (Byte.eqb a b) eqn:E; [|reflexivity].
    apply byte_eqb_eq in E. contradiction.
Qed.

(** The two bytes written by [PutUint16] read back as the value. *)
Lemma le_value_PutUint16 (v : Z) :
  0 <= v < 65536 -> le_value (PutUint16 v) = v.
Proof.
  intros Hv. unfold PutUint16. cbn [le_value].
  rewrite !byte_val_to_byte.
  rewrite (Z.mod_small (v / 256) 256)
    by (split; [apply Z.div_pos; lia | apply Z.div_lt_upper_bound; lia]).
  pose proof (Z.div_mod v 256 ltac:(lia)). lia.
Qed.

Lemma index_app_len {A} (pre : list A) (a : A) (post : list A) :
  index (pre ++ a :: post) (len pre) = Ok a.
Proof.
  unfold index. rewrite len_app, len_cons.
  pose proof (len_nonneg pre). pose proof (len_nonneg post).
  replace (len pre <? 0) with false by (symmetry; apply Z.ltb_ge; lia).
  replace (len pre + (len post + 1) <=? len pre) with false
    by (symmetry; apply Z.leb_gt; lia).
  cbn [orb]. unfold len. rewrite Nat2Z.id.
  rewrite nth_error_app2 by lia. rewrite Nat.sub_diag. reflexivity.
Qed.

Lemma index_at_len {A} (s : list A) : index s (len s) = Panic "index out of range".
Proof.
  unfold index. rewrite Z.leb_refl, orb_true_r. reflexivity.
Qed.

(* ================================================================= *)
(** ** extractString *)

Lemma extractString_loop_unterminated (s : list byte) :
  forall (pre acc : list byte) (fuel : nat),
    Forall nonzero s ->
    (List.length s < fuel)%nat ->
    extractString_loop fuel (pre ++ s) acc (len pre) = Panic "index out of range".
Proof.
  induction s as [|b s IH]; intros pre acc fuel Hnz Hfuel.
  - destruct fuel as [|fuel]; [inversion Hfuel|].
    cbn [extractString_loop]. rewrite app_nil_r, Z.leb_refl.
    rewrite index_at_len. reflexivity.
  - destruct fuel as [|fuel]; [inversion Hfuel|].
    cbn [extractString_loop].
    replace (len pre <=? len (pre ++ b :: s)) with true
      by (symmetry; apply Z.leb_le; rewrite len_app; pose proof (len_nonneg (b :: s)); lia).
    rewrite index_app_len. cbn [R.bind].
    inversion Hnz as [|? ? Hb Hs]; subst.
    replace (Byte.eqb b x00) with false by (symmetry; apply byte_eqb_neq; exact Hb).
    replace (pre ++ b :: s) with ((pre ++ [b]) ++ s) by (rewrite <- app_assoc; reflexivity).
    replace (len pre + 1) with (len (pre ++ [b])) by (rewrite len_app; reflexivity).
    apply IH; [exact Hs | cbn [List.length] in Hfuel; lia].
Qed.

Lemma extractString_loop_terminated (s : list byte) :
  forall (pre acc post : list byte) (fuel : nat),
    Forall nonzero s ->
    (List.length s < fuel)%nat ->
    extractString_loop fuel (pre ++ s ++ x00 :: post) acc (len pre)
    = Ok (string_of_list_byte (acc ++ s), len pre + len s + 1).
Proof.
  induction s as [|b s IH]; intros pre acc post fuel Hnz Hfuel.
  - destruct fuel as [|fuel]; [inversion Hfuel|].
    cbn [extractString_loop app].
    replace (len pre <=? len (pre ++ x00 :: post)) with true
      by (symmetry; apply Z.leb_le; rewrite len_app; pose proof (len_nonneg (x00 :: post)); lia).
    rewrite index_app_len. cbn [R.bind].
    rewrite app_nil_r, len_nil. cbn. repeat f_equal. lia.
  - destruct fuel as [|fuel]; [inversion Hfuel|].
    cbn [extractString_loop].
    replace (len pre <=? len (pre ++ (b :: s) ++ x00 :: post)) with true
      by (symmetry; apply Z.leb_le; rewrite len_app;
          pose proof (len_nonneg ((b :: s) ++ x00 :: post)); lia).
    cbn [app]. rewrite index_app_len. cbn [R.bind].
    inversion Hnz as [|? ? Hb Hs]; subst.
    replace (Byte.eqb b x00) with false by (symmetry; apply byte_eqb_neq; exact Hb).
    replace (pre ++ b :: s ++ x00 :: post) with ((pre ++ [b]) ++ s ++ x00 :: post)
      by (rewrite <- app_assoc; reflexivity).
    replace (len pre + 1) with (len (pre ++ [b])) by (rewrite len_app; reflexivity).
    rewrite IH; [|exact Hs | cbn [List.length] in Hfuel; lia].
    rewrite <- app_assoc. cbn [app]. rewrite len_app, !len_cons, len_nil.
    f_equal. f_equal. lia.
Qed.

(** A string that is terminated inside the slice is returned together with
    the offset just after its terminator. *)
Lemma extractString_terminated (pre s post : list byte) :
  Forall nonzero s ->
  extractString (pre ++ s ++ x00 :: post) (len pre)
  = Ok (string_of_list_byte s, len pre + len s + 1).
Proof.
  intros Hnz. unfold extractString.
  rewrite (extractString_loop_terminated s pre [] post); [reflexivity | exact Hnz |].
  rewrite !length_app. cbn [List.length]. lia.
Qed.

(** C4. The decoder scans from [start] to the first zero byte; without a
    zero byte between [start] and the end of the slice the loop condition
    [i <= len(bytes)] lets it index [bytes[len(bytes)]], which panics: no
    decode failure is returned, the [return "", -1] after the loop is
    not reached. *)
Theorem extractString_unterminated_panics (pre s : list byte) :
  Forall nonzero s ->
  extractString (pre ++ s) (len pre) = Panic "index out of range".
Proof.
  intros Hnz. unfold extractString.
  apply extractString_loop_unterminated; [exact Hnz|].
  rewrite length_app. lia.
Qed.

Lemma extractString_unterminated_panics_witness :
  Forall nonzero [x41; x42] /\
  extractString [x41; x42] 0 = Panic "index out of range".
Proof.
  assert (H : Forall nonzero [x41; x42])
    by (repeat constructor; unfold nonzero; discriminate).
  split; [exact H|].
  exact (extractString_unterminated_panics [] [x41; x42] H).
Defined.

(* ================================================================= *)
(** ** RegisterDateChange *)

Lemma RegisterDateChange_daily command server :
  RegisterDateChange "daily" command server
  = Ok (set_rconDaily (rconDaily server ++ [command]) server).
Proof. reflexivity. Qed.

Lemma RegisterDateChange_monthly command server :
  RegisterDateChange "monthly" command server
  = Ok (set_rconMonthly (rconMonthly server ++ [command]) server).
Proof. reflexivity. Qed.

Lemma RegisterDateChange_yearly command server :
  RegisterDateChange "yearly" command server
  = Ok (set_rconYearly (rconYearly server ++ [command]) server).
Proof. reflexivity. Qed.

Lemma RegisterDateChange_other period command server :
  ~ valid_period period ->
  RegisterDateChange period command server = Panic ("bad period " ++ period).
Proof.
  intros Hbad. unfold RegisterDateChange, valid_period in *.
  destruct (String.eqb_spec period "daily") as [->|_]; [tauto|].
  destruct (String.eqb_spec period "monthly") as [->|_]; [tauto|].
  destruct (String.eqb_spec period "yearly") as [->|_]; [tauto|].
  reflexivity.
Qed.


(** C9. A registration under "daily", "monthly" or "yearly" succeeds and
    appends the command to the list of that period, leaving the other two
    lists and the rest of the server object as they were; a registration
    under any other period name panics with the message
    "bad period <name>". *)
Theorem RegisterDateChange_contract (period command : string) (server : OpenTTDServer) :
  (valid_period period ->
     exists server',
       RegisterDateChange period command server = Ok server'
       /\ commands period server' = commands period server ++ [command]
       /\ (forall p, p <> period -> commands p server' = commands p server)
       /\ cached server' = cached server
       /\ connection server' = connection server)
  /\ (~ valid_period period ->
        RegisterDateChange period command server = Panic ("bad period " ++ period)).
Proof.
  split; [|apply RegisterDateChange_other].
  intros [-> | [-> | ->]].
  - eexists. split; [apply RegisterDateChange_daily|].
    repeat split. intros p Hp. unfold commands.
    destruct (String.eqb_spec p "daily"); [contradiction | reflexivity].
  - eexists. split; [apply RegisterDateChange_monthly|].
    repeat split. intros p Hp. unfold commands.
    destruct (String.eqb_spec p "monthly"); [contradiction | reflexivity].
  - eexists. split; [apply RegisterDateChange_yearly|].
    repeat split. intros p Hp. unfold commands.
    destruct (String.eqb_spec p "yearly"); [contradiction | reflexivity].
Qed.

Lemma RegisterDateChange_contract_witness :
  (exists server',
     RegisterDateChange "monthly" "save m-%Y-%M" zeroServer = Ok server'
     /\ commands "monthly" server' = commands "monthly" zeroServer ++ ["save m-%Y-%M"%string]
     /\ (forall p, p <> "monthly"%string -> commands p server' = commands p zeroServer)
     /\ cached server' = cached zeroServer
     /\ connection server' = connection zeroServer)
  /\ RegisterDateChange "weekly" "save w" zeroServer = Panic "bad period weekly".
Proof.
  split.
  - apply (proj1 (RegisterDateChange_contract "monthly" "save m-%Y-%M" zeroServer)).
    right; left; reflexivity.
  - apply (proj2 (RegisterDateChange_contract "weekly" "save w" zeroServer)).
    intros [H | [H | H]]; discriminate H.
Defined.

(* ================================================================= *)
(** ** dateChanged *)




Lemma rconCommand_run (command : string) (server : OpenTTDServer) (k : nat) :
  connection server = Some k ->
  rconCommand command server = (Ok tt, server, [EvWrite (rconPacket command)]).
Proof.
  intros Hc. unfold rconCommand, sendSocket, connWrite. rewrite Hc. reflexivity.
Qed.

Lemma forEach_rconCommand (f : string -> string) (l : list string)
    (server : OpenTTDServer) (k : nat) :
  connection server = Some k ->
  Mx.forEach l (fun c => rconCommand (f c)) server
  = (Ok tt, server, map (fun c => EvWrite (rconPacket (f c))) l).
Proof.
  intros Hc. induction l as [|c l IH].
  - reflexivity.
  - cbn [Mx.forEach map]. unfold M.bind.
    rewrite (rconCommand_run _ _ k Hc), IH. reflexivity.
Qed.

(** [dateChanged] on a server object with a live connection. *)
Lemma dateChanged_run (dt : date) (server : OpenTTDServer) (k : nat) :
  connection server = Some k ->
  dateChanged dt server
  = (Ok tt, server,
     map (fun c => EvWrite (rconPacket (processCommand c dt)))
       (rconDaily server
        ++ (if Day dt =? 1 then rconMonthly server else [])
        ++ (if (Day dt =? 1) && (Month dt =? 1) then rconYearly server else []))).
Proof.
  intros Hc. unfold dateChanged, M.bind, M.get.
  rewrite (forEach_rconCommand (fun c => processCommand c dt) _ _ k Hc).
  rewrite !map_app.
  destruct (Day dt =? 1); cbn [andb].
  - rewrite (forEach_rconCommand (fun c => processCommand c dt) _ _ k Hc).
    destruct (Month dt =? 1).
    + rewrite (forEach_rconCommand (fun c => processCommand c dt) _ _ k Hc).
      reflexivity.
    + cbn. rewrite !app_nil_r. reflexivity.
  - cbn. rewrite !app_nil_r. reflexivity.
Qed.


(* ================================================================= *)
(** ** processCommand *)

Section StringFacts.
Lemma append_assoc (a b c : string) : ((a ++ b) ++ c = a ++ (b ++ c))%string.
Proof. induction a as [|x a IH]; cbn; [reflexivity | now rewrite IH]. Qed.

Lemma plain_append (a b : string) : plain (a ++ b)%string = plain a && plain b.
Proof.
  induction a as [|x a IH]; cbn; [reflexivity|].
  rewrite IH, andb_assoc. reflexivity.
Qed.

Lemma plain_zeros (k : nat) : plain (zeros k) = true.
Proof. induction k as [|k IH]; cbn; [reflexivity | exact IH]. Qed.

Lemma plain_string_of_uint (d : Decimal.uint) :
  plain (NilEmpty.string_of_uint d) = true.
Proof. induction d; cbn; try reflexivity; assumption. Qed.

Lemma plain_decimal (n : Z) : plain (decimal n) = true.
Proof.
  unfold decimal, NilZero.string_of_uint.
  destruct (N.to_uint (Z.to_N n)); try reflexivity;
    apply (plain_string_of_uint (_ _)).
Qed.

Lemma decimal_nonempty (n : Z) : decimal n <> "".
Proof.
  unfold decimal, NilZero.string_of_uint.
  destruct (N.to_uint (Z.to_N n)); cbn; discriminate.
Qed.

Lemma plain_Sprintf_0d (w : nat) (n : Z) : plain (Sprintf_0d w n) = true.
Proof.
  unfold Sprintf_0d. destruct (n <? 0).
  - cbn [plain]. rewrite plain_append, plain_zeros, plain_decimal. reflexivity.
  - rewrite plain_append, plain_zeros, plain_decimal. reflexivity.
Qed.

Lemma append_nonempty_r (a b : string) : b <> "" -> (a ++ b)%string <> "".
Proof. destruct a; cbn; [tauto | discriminate]. Qed.

Lemma Sprintf_0d_nonempty (w : nat) (n : Z) : Sprintf_0d w n <> "".
Proof.
  unfold Sprintf_0d. destruct (n <? 0); [discriminate|].
  apply append_nonempty_r, decimal_nonempty.
Qed.
End StringFacts.

Section Tokens.
Variable t : ascii.
Hypothesis t_token : token_letter t = true.

Lemma plain_char_not_percent (c : ascii) :
  plain_char c = true -> (c =? "%")%char = false.
Proof.
  intros Hc. destruct (Ascii.eqb_spec c "%"); [subst; discriminate Hc | reflexivity].
Qed.

Lemma plain_char_not_token (c : ascii) :
  plain_char c = true -> token_letter c = false.
Proof.
  intros Hc. unfold token_letter.
  destruct (Ascii.eqb_spec c "Y"); [subst; discriminate Hc|].
  destruct (Ascii.eqb_spec c "M"); [subst; discriminate Hc|].
  destruct (Ascii.eqb_spec c "D"); [subst; discriminate Hc|].
  reflexivity.
Qed.

(** A formatted number is copied as it is. *)
Lemma replace_token_plain_app (new p x : string) :
  plain p = true ->
  replace_token t new (p ++ x)%string = (p ++ replace_token t new x)%string.
Proof.
  induction p as [|c p IH]; intros Hp; [reflexivity|].
  cbn [plain] in Hp. apply andb_prop in Hp as [Hc Hp].
  cbn [append replace_token]. rewrite (plain_char_not_percent c Hc).
  rewrite IH by exact Hp. reflexivity.
Qed.

(** A [%] that is not followed by a token letter is copied. *)
Lemma replace_token_percent (new x : string) :
  hd_ok x ->
  replace_token t new (String "%" x) = String "%" (replace_token t new x).
Proof.
  intros Hx. cbn [replace_token]. rewrite Ascii.eqb_refl.
  destruct x as [|c x]; [reflexivity|].
  cbn [hd_ok] in Hx.
  destruct (Ascii.eqb_spec c t) as [->|_]; [congruence | reflexivity].
Qed.

Lemma hd_ok_plain_app (p x : string) :
  plain p = true -> p <> "" -> hd_ok (p ++ x)%string.
Proof.
  intros Hp Hne. destruct p as [|c p]; [contradiction|].
  cbn [plain] in Hp. apply andb_prop in Hp as [Hc _].
  cbn. apply plain_char_not_token. exact Hc.
Qed.

Lemma replace_token_hd_ok (new x : string) :
  plain new = true -> new <> "" ->
  hd_ok x -> hd_ok (replace_token t new x).
Proof.
  intros Hn Hne Hx. destruct x as [|c x]; [exact I|].
  cbn [replace_token].
  destruct (Ascii.eqb_spec c "%") as [->|Hc].
  - destruct x as [|c' x]; [reflexivity|].
    destruct (c' =? t)%char.
    + apply hd_ok_plain_app; assumption.
    + reflexivity.
  - exact Hx.
Qed.
End Tokens.

Section ReplaceIsTokenPass.
Variable t : ascii.
Variable new : string.

Lemma prefix_token (s : string) :
  prefix (token_pattern t) s =
  match s with
  | String c (String t' _) => (c =? "%")%char && (t' =? t)%char
  | _ => false
  end.
Proof.
  unfold token_pattern. destruct s as [|c [|t' s]]; cbn [prefix].
  - reflexivity.
  - destruct (ascii_dec "%" c); reflexivity.
  - destruct (ascii_dec "%" c) as [<-|Hc].
    + rewrite Ascii.eqb_refl. destruct (ascii_dec t t') as [<-|Ht].
      * rewrite Ascii.eqb_refl. destruct s; reflexivity.
      * destruct (Ascii.eqb_spec t' t); [subst; contradiction | reflexivity].
    + destruct (Ascii.eqb_spec c "%"); [subst; contradiction | reflexivity].
Qed.

Lemma Replace_from_token (s : string) :
  (forall n, n < 0 -> Replace_from s (token_pattern t) new 0 n = replace_token t new s)
  /\ (forall c s', s = String c s' ->
        forall n, n < 0 -> Replace_from s' (token_pattern t) new 0 n = replace_token t new s').
Proof.
  induction s as [|c s [IH1 IH2]].
  - split; [reflexivity | discriminate].
  - split; [|intros c' s' E; injection E as _ <-; exact IH1].
    intros n Hn. cbn [Replace_from replace_token].
    rewrite prefix_token.
    replace (n =? 0) with false by (symmetry; apply Z.eqb_neq; lia).
    cbn [negb andb].
    destruct (c =? "%")%char; cbn [andb].
    + destruct s as [|t' s].
      * reflexivity.
      * destruct (t' =? t)%char.
        -- unfold token_pattern at 2. cbn [String.length Nat.sub Replace_from].
           rewrite (IH2 t' s eq_refl) by lia. reflexivity.
        -- rewrite IH1 by lia. reflexivity.
    + destruct s as [|t' s]; rewrite IH1 by lia; reflexivity.
Qed.

(** [strings.Replace(s, "%t", new, -1)] is the pass for the token. *)
Lemma Replace_token (s : string) :
  Replace s (token_pattern t) new (-1) = replace_token t new s.
Proof.
  unfold Replace, token_pattern. apply (proj1 (Replace_from_token s)). lia.
Qed.
End ReplaceIsTokenPass.

Ltac tok_side :=
  repeat first
    [ assumption | reflexivity | discriminate
    | apply replace_token_hd_ok ].

Section ThreePasses.
Variables year month day : string.
Hypothesis year_plain : plain year = true.
Hypothesis year_nonempty : year <> "".
Hypothesis month_plain : plain month = true.
Hypothesis month_nonempty : month <> "".

Lemma passes_cons (c : ascii) (s : string) :
  c <> "%"%char -> three_passes year month day (String c s) = String c (three_passes year month day s).
Proof.
  intros Hc. unfold three_passes. cbn [replace_token].
  destruct (Ascii.eqb_spec c "%"); [contradiction|]. cbn [replace_token].
  destruct (Ascii.eqb_spec c "%"); [contradiction|]. cbn [replace_token].
  destruct (Ascii.eqb_spec c "%"); [contradiction|]. reflexivity.
Qed.

Lemma passes_percent (s : string) :
  hd_ok s -> three_passes year month day (String "%" s) = String "%" (three_passes year month day s).
Proof.
  intros Hs. unfold three_passes.
  rewrite (replace_token_percent "Y") by tok_side.
  rewrite (replace_token_percent "M") by tok_side.
  rewrite (replace_token_percent "D") by tok_side.
  reflexivity.
Qed.

Lemma substitute_cons (c : ascii) (r : string) :
  c <> "%"%char ->
  substitute year month day (String c r) = String c (substitute year month day r).
Proof.
  intros Hc. cbn [substitute].
  destruct (Ascii.eqb_spec c "%"); [contradiction | reflexivity].
Qed.

Lemma substitute_percent (t : ascii) (r : string) :
  t <> "Y"%char -> t <> "M"%char -> t <> "D"%char ->
  substitute year month day (String "%" (String t r))
  = String "%" (substitute year month day (String t r)).
Proof.
  intros HY HM HD. cbn [substitute]. rewrite Ascii.eqb_refl.
  destruct (Ascii.eqb_spec t "Y"); [contradiction|].
  destruct (Ascii.eqb_spec t "M"); [contradiction|].
  destruct (Ascii.eqb_spec t "D"); [contradiction|].
  reflexivity.
Qed.

Lemma passes_Y (r : string) :
  three_passes year month day (String "%" (String "Y" r)) = (year ++ three_passes year month day r)%string.
Proof.
  unfold three_passes. cbn [replace_token Ascii.eqb Bool.eqb].
  rewrite (replace_token_plain_app "M") by tok_side.
  rewrite (replace_token_plain_app "D") by tok_side.
  reflexivity.
Qed.

Lemma passes_M (r : string) :
  three_passes year month day (String "%" (String "M" r)) = (month ++ three_passes year month day r)%string.
Proof.
  unfold three_passes. cbn [replace_token Ascii.eqb Bool.eqb].
  destruct r; cbn [replace_token Ascii.eqb Bool.eqb];
    rewrite (replace_token_plain_app "D") by tok_side; reflexivity.
Qed.

Lemma passes_D (r : string) :
  three_passes year month day (String "%" (String "D" r)) = (day ++ three_passes year month day r)%string.
Proof.
  unfold three_passes. cbn [replace_token Ascii.eqb Bool.eqb].
  destruct r; cbn [replace_token Ascii.eqb Bool.eqb]; reflexivity.
Qed.

(** The three passes of [processCommand] amount to one pass over the
    template. *)
Lemma three_passes_strong (s : string) :
  three_passes year month day s = substitute year month day s
  /\ (forall c s', s = String c s' -> three_passes year month day s' = substitute year month day s').
Proof.
  induction s as [|c s [IH1 IH2]].
  - split; [reflexivity | discriminate].
  - split; [|intros c' s' E; injection E as _ <-; exact IH1].
    destruct (Ascii.eqb_spec c "%") as [->|Hc].
    + destruct s as [|t s]; [reflexivity|].
      specialize (IH2 t s eq_refl).
      destruct (Ascii.eqb_spec t "Y") as [->|HY];
        [rewrite passes_Y, IH2; reflexivity|].
      destruct (Ascii.eqb_spec t "M") as [->|HM];
        [rewrite passes_M, IH2; reflexivity|].
      destruct (Ascii.eqb_spec t "D") as [->|HD];
        [rewrite passes_D, IH2; reflexivity|].
      rewrite substitute_percent by assumption.
      rewrite <- IH1. apply passes_percent.
      cbn [hd_ok]. unfold token_letter.
      destruct (Ascii.eqb_spec t "Y"); [contradiction|].
      destruct (Ascii.eqb_spec t "M"); [contradiction|].
      destruct (Ascii.eqb_spec t "D"); [contradiction|].
      reflexivity.
    + rewrite passes_cons, substitute_cons by exact Hc.
      rewrite IH1. reflexivity.
Qed.
End ThreePasses.

Lemma processCommand_one_pass (command : string) (dt : date) :
  processCommand command dt
  = substitute (Sprintf_0d 4 (Year dt)) (Sprintf_0d 2 (Month dt))
      (Sprintf_0d 2 (Day dt)) command.
Proof.
  unfold processCommand.
  change "%Y"%string with (token_pattern "Y").
  change "%M"%string with (token_pattern "M").
  change "%D"%string with (token_pattern "D").
  rewrite !Replace_token.
  apply (proj1 (three_passes_strong _ _ _
                  (plain_Sprintf_0d _ _) (Sprintf_0d_nonempty _ _)
                  (plain_Sprintf_0d _ _) (Sprintf_0d_nonempty _ _) command)).
Qed.

Lemma prints_digits_from_sound (w count : nat) :
  forall n, prints_digits_from w count n = true ->
  forall k, n <= k < n + Z.of_nat count -> Sprintf_0d w k = digits w k.
Proof.
  induction count as [|count IH]; intros n Hall k Hk; [lia|].
  cbn [prints_digits_from] in Hall. apply andb_prop in Hall as [Hn Hrest].
  destruct (Z.eq_dec k n) as [->|Hne].
  - apply String.eqb_eq. exact Hn.
  - apply (IH (n + 1) Hrest). lia.
Qed.

Lemma Sprintf_04d_digits (n : Z) : 0 <= n <= 9999 -> Sprintf_0d 4 n = digits 4 n.
Proof.
  intros Hn. apply (prints_digits_from_sound 4 (Z.to_nat 10000) 0).
  - vm_compute. reflexivity.
  - rewrite Z2Nat.id; lia.
Qed.

Lemma Sprintf_02d_digits (n : Z) : 0 <= n <= 99 -> Sprintf_0d 2 n = digits 2 n.
Proof.
  intros Hn. apply (prints_digits_from_sound 2 (Z.to_nat 100) 0).
  - vm_compute. reflexivity.
  - rewrite Z2Nat.id; lia.
Qed.

(* ================================================================= *)
(** ** The numerals printed by Sprintf *)

Lemma of_uint_acc_bounds (d : Decimal.uint) :
  forall acc : positive,
    Z.pos acc * 10 ^ Z.of_nat (Decimal.nb_digits d) <= Z.pos (Pos.of_uint_acc d acc)
    /\ Z.pos (Pos.of_uint_acc d acc) < (Z.pos acc + 1) * 10 ^ Z.of_nat (Decimal.nb_digits d).
Proof.
  induction d as [|d IH|d IH|d IH|d IH|d IH|d IH|d IH|d IH|d IH|d IH]; intros acc;
    cbn [Pos.of_uint_acc Decimal.nb_digits];
    [ rewrite Z.pow_0_r; lia | .. ];
    rewrite Nat2Z.inj_succ, Z.pow_succ_r by lia;
    match goal with
    | |- context [Pos.of_uint_acc d ?a] => specialize (IH a)
    end;
    assert (HP : 0 < 10 ^ Z.of_nat (Decimal.nb_digits d)) by (apply Z.pow_pos_nonneg; lia);
    rewrite ?Pos2Z.inj_add, ?Pos2Z.inj_mul in IH;
    nia.
Qed.

Lemma of_uint_upper (d : Decimal.uint) :
  Z.of_N (N.of_uint d) < 10 ^ Z.of_nat (Decimal.nb_digits d).
Proof.
  unfold N.of_uint.
  induction d as [|d IH|d IH|d IH|d IH|d IH|d IH|d IH|d IH|d IH|d IH];
    cbn [Pos.of_uint Decimal.nb_digits];
    [ rewrite Z.pow_0_r; lia | .. ];
    rewrite Nat2Z.inj_succ, Z.pow_succ_r by lia;
    assert (HP : 0 < 10 ^ Z.of_nat (Decimal.nb_digits d)) by (apply Z.pow_pos_nonneg; lia);
    [ lia | .. ];
    match goal with
    | |- context [Pos.of_uint_acc d ?a] => pose proof (of_uint_acc_bounds d a)
    end; cbn [Z.of_N]; nia.
Qed.

Lemma of_uint_lower (d : Decimal.uint) :
  d <> Decimal.Nil -> (forall d', d <> Decimal.D0 d') ->
  10 ^ (Z.of_nat (Decimal.nb_digits d) - 1) <= Z.of_N (N.of_uint d).
Proof.
  intros Hnil Hzero. unfold N.of_uint.
  destruct d as [|d|d|d|d|d|d|d|d|d|d];
    [ contradiction | exfalso; exact (Hzero d eq_refl) | .. ];
    cbn [Pos.of_uint Decimal.nb_digits Z.of_N];
    rewrite Nat2Z.inj_succ;
    replace (Z.succ (Z.of_nat (Decimal.nb_digits d)) - 1)
      with (Z.of_nat (Decimal.nb_digits d)) by lia;
    match goal with
    | |- context [Pos.of_uint_acc d ?a] => pose proof (of_uint_acc_bounds d a)
    end;
    assert (HP : 0 < 10 ^ Z.of_nat (Decimal.nb_digits d)) by (apply Z.pow_pos_nonneg; lia);
    nia.
Qed.

Lemma length_string_of_uint (d : Decimal.uint) :
  String.length (NilEmpty.string_of_uint d) = Decimal.nb_digits d.
Proof.
  induction d; cbn [NilEmpty.string_of_uint String.length Decimal.nb_digits];
    congruence.
Qed.

Lemma to_uint_nonnil (n : N) : N.to_uint n <> Decimal.Nil.
Proof.
  destruct n as [|p]; [discriminate|]. apply DecimalPos.Unsigned.to_uint_nonnil.
Qed.

Lemma to_uint_head (n : N) (d' : Decimal.uint) :
  (0 < n)%N -> N.to_uint n <> Decimal.D0 d'.
Proof.
  intros Hn Hd.
  pose proof (DecimalN.Unsigned.to_of (N.to_uint n)) as Hnorm.
  rewrite DecimalN.Unsigned.of_to in Hnorm.
  rewrite Hd in Hnorm at 2. unfold Decimal.unorm in Hnorm.
  destruct (Decimal.nzhead (Decimal.D0 d')) eqn:Hz.
  - assert (Hv : N.of_uint (N.to_uint n) = 0%N) by (rewrite Hnorm; reflexivity).
    rewrite DecimalN.Unsigned.of_to in Hv. lia.
  - rewrite Hd in Hnorm. rewrite Hnorm in Hz.
    exact (DecimalFacts.nzhead_nonzero _ _ Hz).
  - rewrite Hd in Hnorm. discriminate.
  - rewrite Hd in Hnorm. discriminate.
  - rewrite Hd in Hnorm. discriminate.
  - rewrite Hd in Hnorm. discriminate.
  - rewrite Hd in Hnorm. discriminate.
  - rewrite Hd in Hnorm. discriminate.
  - rewrite Hd in Hnorm. discriminate.
  - rewrite Hd in Hnorm. discriminate.
  - rewrite Hd in Hnorm. discriminate.
Qed.

Lemma decimal_string (n : Z) :
  decimal n = NilEmpty.string_of_uint (N.to_uint (Z.to_N n)).
Proof.
  unfold decimal, NilZero.string_of_uint.
  pose proof (to_uint_nonnil (Z.to_N n)).
  destruct (N.to_uint (Z.to_N n)); [contradiction | reflexivity ..].
Qed.

Lemma numeral_value_zeros (k : nat) (s : string) (v : Z) :
  numeral_value s = Some v -> numeral_value (zeros k ++ s) = Some v.
Proof.
  intros Hs. induction k as [|k IH]; [exact Hs|].
  cbn [zeros String.append]. unfold numeral_value in *.
  cbn [NilEmpty.uint_of_string].
  destruct (NilEmpty.uint_of_string (zeros k ++ s)) as [d|]; [|discriminate].
  exact IH.
Qed.

Lemma numeral_value_decimal (n : Z) : 0 <= n -> numeral_value (decimal n) = Some n.
Proof.
  intros Hn. unfold numeral_value. rewrite decimal_string, NilEmpty.usu.
  rewrite DecimalN.Unsigned.of_to, Z2N.id by exact Hn. reflexivity.
Qed.

(** [%0wd] of a number that is not negative: a string of digits that
    denotes the number, of at least [w] characters. *)
Lemma numeral_value_Sprintf_0d (w : nat) (n : Z) :
  0 <= n -> numeral_value (Sprintf_0d w n) = Some n.
Proof.
  intros Hn. unfold Sprintf_0d.
  destruct (Z.ltb_spec n 0); [lia|].
  apply numeral_value_zeros, numeral_value_decimal, Hn.
Qed.

Lemma length_zeros (k : nat) : String.length (zeros k) = k.
Proof. induction k; cbn [zeros String.length]; congruence. Qed.

Lemma length_append (a b : string) :
  String.length (a ++ b) = (String.length a + String.length b)%nat.
Proof. induction a; cbn [String.append String.length Nat.add]; congruence. Qed.

Lemma length_Sprintf_0d (w : nat) (n : Z) :
  0 <= n -> (w <= String.length (Sprintf_0d w n))%nat.
Proof.
  intros Hn. unfold Sprintf_0d. destruct (Z.ltb_spec n 0); [lia|].
  rewrite length_append, length_zeros. lia.
Qed.

(** A number with more digits than the width is printed without padding:
    its numeral has no zero in front. *)
Lemma Sprintf_0d_full (w : nat) (n : Z) :
  10 ^ Z.of_nat w <= n ->
  Sprintf_0d w n = decimal n
  /\ (w < String.length (Sprintf_0d w n))%nat
  /\ 10 ^ (Z.of_nat (String.length (Sprintf_0d w n)) - 1) <= n.
Proof.
  intros Hn.
  assert (Hpos : 0 < 10 ^ Z.of_nat w) by (apply Z.pow_pos_nonneg; lia).
  assert (Hlen : (w < String.length (decimal n))%nat).
  { rewrite decimal_string, length_string_of_uint.
    pose proof (of_uint_upper (N.to_uint (Z.to_N n))) as Hup.
    rewrite DecimalN.Unsigned.of_to, Z2N.id in Hup by lia.
    destruct (Nat.lt_ge_cases w (Decimal.nb_digits (N.to_uint (Z.to_N n))))
      as [Hlt | Hge]; [exact Hlt|].
    assert (10 ^ Z.of_nat (Decimal.nb_digits (N.to_uint (Z.to_N n))) <= 10 ^ Z.of_nat w)
      by (apply Z.pow_le_mono_r; lia).
    lia. }
  assert (Heq : Sprintf_0d w n = decimal n).
  { unfold Sprintf_0d. destruct (Z.ltb_spec n 0); [lia|].
    replace (w - String.length (decimal n))%nat with 0%nat by lia. reflexivity. }
  rewrite Heq. split; [reflexivity | split; [exact Hlen|]].
  rewrite decimal_string, length_string_of_uint.
  pose proof (of_uint_lower (N.to_uint (Z.to_N n)) (to_uint_nonnil _)
                (fun d' => to_uint_head (Z.to_N n) d' ltac:(lia))) as Hlow.
  rewrite DecimalN.Unsigned.of_to, Z2N.id in Hlow by lia. exact Hlow.
Qed.

(** The date of every date packet is a date of the calendar, in a year
    that is not negative. *)
Lemma epochAddDays_is_date (days : Z) :
  0 <= days ->
  0 <= Year (epochAddDays days)
  /\ 1 <= Month (epochAddDays days) <= 12
  /\ 1 <= Day (epochAddDays days) <= 31.
Proof.
  intros Hd. unfold epochAddDays. cbn [Year Month Day].
  set (z := days - 60).
  set (era := z / 146097).
  set (doe := z - era * 146097).
  assert (Hdoe : 0 <= doe < 146097).
  { subst doe era. pose proof (Z.div_mod z 146097 ltac:(lia)).
    pose proof (Z.mod_pos_bound z 146097 ltac:(lia)). lia. }
  assert (Hera : 0 <= era \/ era = -1 /\ 146037 <= doe).
  { assert (-1 <= era) by (subst era z; apply Z.div_le_lower_bound; lia).
    subst doe z. lia. }
  clearbody doe era. clear z Hd days.
  set (yoe := (doe - doe / 1460 + doe / 36524 - doe / 146096) / 365).
  assert (Hyoe : 0 <= yoe <= 399 /\ (146037 <= doe -> yoe = 399))
    by (subst yoe; Z.to_euclidean_division_equations; lia).
  set (doy := doe - (365 * yoe + yoe / 4 - yoe / 100)).
  assert (Hdoy : 0 <= doy <= 365 /\ (146037 <= doe -> 306 <= doy))
    by (subst doy yoe; Z.to_euclidean_division_equations; lia).
  clearbody doy.
  set (mp := (5 * doy + 2) / 153).
  assert (Hmp : 0 <= mp <= 11 /\ (306 <= doy -> 10 <= mp))
    by (subst mp; Z.to_euclidean_division_equations; lia).
  assert (Hday : 1 <= doy - (153 * mp + 2) / 5 + 1 <= 31)
    by (subst mp; Z.to_euclidean_division_equations; lia).
  clearbody mp yoe.
  split; [|split; [|exact Hday]].
  - destruct (Z.ltb_spec mp 10).
    + destruct (Z.leb_spec (mp + 3) 2); lia.
    + destruct (Z.leb_spec (mp - 9) 2); lia.
  - destruct (Z.ltb_spec mp 10); lia.
Qed.

(** C3. [processCommand] is one left-to-right pass over the template in
    which every [%Y] is replaced by the year, every [%M] by the two digits
    of the month and every [%D] by the two digits of the day, zero-padded.
    The year is written in decimal digits, zero-padded to at least four:
    exactly its four digits up to the year 9999, and all its digits, five
    or more and none of them a padding zero, from the year 10000 on. *)
Theorem processCommand_substitution (command : string) (dt : date) :
  0 <= Year dt -> 1 <= Month dt <= 12 -> 1 <= Day dt <= 31 ->
  exists year : string,
    processCommand command dt
    = substitute year (digits 2 (Month dt)) (digits 2 (Day dt)) command
    /\ numeral_value year = Some (Year dt)
    /\ (4 <= String.length year)%nat
    /\ (Year dt <= 9999 -> year = digits 4 (Year dt))
    /\ (10000 <= Year dt ->
        (5 <= String.length year)%nat
        /\ 10 ^ (Z.of_nat (String.length year) - 1) <= Year dt).
Proof.
  intros Hy Hm Hd. exists (Sprintf_0d 4 (Year dt)).
  split; [|split; [|split; [|split]]].
  - rewrite processCommand_one_pass, !Sprintf_02d_digits by lia. reflexivity.
  - apply numeral_value_Sprintf_0d, Hy.
  - apply length_Sprintf_0d, Hy.
  - intros Hsmall. apply Sprintf_04d_digits. lia.
  - intros Hbig.
    destruct (Sprintf_0d_full 4 (Year dt)) as (_ & Hlen & Hlow);
      [exact Hbig | split; [lia | exact Hlow]].
Qed.

(** The template [say "Hello %Y-%M-%D"] on 2020-11-05. *)
Lemma processCommand_substitution_witness :
  processCommand hello_template (mkDate 2020 11 5) = hello_2020_11_05.
Proof.
  destruct (processCommand_substitution hello_template (mkDate 2020 11 5))
    as (year & Heq & _ & _ & Hyear & _); [cbn; lia | cbn; lia | cbn; lia |].
  rewrite Heq, Hyear by (cbn; lia). reflexivity.
Defined.

(** C3, the year 10000.  The date packet with the day count 3652425 is
    January 1 of the year 10000; [%Y] is then replaced by the five
    characters [10000], not by four digits. *)
Lemma year_10000_is_not_four_digits :
  epochAddDays 3652425 = mkDate 10000 1 1
  /\ processCommand "%Y" (epochAddDays 3652425) = "10000"%string
  /\ String.length (processCommand "%Y" (epochAddDays 3652425)) = 5%nat
  /\ processCommand "%Y" (epochAddDays 3652425)
     <> substitute (digits 4 (Year (epochAddDays 3652425)))
          (digits 2 (Month (epochAddDays 3652425)))
          (digits 2 (Day (epochAddDays 3652425))) "%Y".
Proof.
  split; [reflexivity|]. split; [reflexivity|]. split; [reflexivity|].
  vm_compute. discriminate.
Qed.

(** The day count 738099 of a date packet is 2020-11-05. *)
Lemma epochAddDays_2020_11_05 : epochAddDays 738099 = mkDate 2020 11 5.
Proof. reflexivity. Qed.

Lemma epochAddDays_zero : epochAddDays 0 = mkDate 0 1 1.
Proof. reflexivity. Qed.

(* ================================================================= *)
(** ** The calendar of date packets *)

Lemma date_eqb_eq (a b : date) : date_eqb a b = true -> a = b.
Proof.
  destruct a as [ya ma da], b as [yb mb db]. unfold date_eqb. cbn [Year Month Day].
  intros H. apply andb_prop in H as [H Hd]. apply andb_prop in H as [Hy Hm].
  apply Z.eqb_eq in Hy, Hm, Hd. subst. reflexivity.
Qed.

Lemma steps_like_calendar_sound (count : nat) :
  forall n, steps_like_calendar count n = true ->
  forall k, n <= k < n + Z.of_nat count ->
  epochAddDays (k + 1) = nextDay (epochAddDays k).
Proof.
  induction count as [|count IH]; intros n Hall k Hk; [lia|].
  cbn [steps_like_calendar] in Hall. apply andb_prop in Hall as [Hn Hrest].
  destruct (Z.eq_dec k n) as [->|Hne].
  - apply date_eqb_eq. exact Hn.
  - apply (IH (n + 1) Hrest). lia.
Qed.

(** From 1950-01-01 to July 2059 the date of a day count is the
    date reached by stepping through the calendar day by day. *)
Lemma epochAddDays_calendar (k : Z) :
  712223 <= k < 752223 ->
  epochAddDays 712223 = mkDate 1950 1 1
  /\ epochAddDays (k + 1) = nextDay (epochAddDays k).
Proof.
  intros Hk. split; [reflexivity|].
  apply (steps_like_calendar_sound (Z.to_nat 40000) 712223).
  - vm_compute. reflexivity.
  - rewrite Z2Nat.id; lia.
Qed.


(** A yearly command is due on January 1 and not on February 1; a command
    registered as daily and as monthly is due twice on the first of a
    month, the daily one first. *)
Lemma due_examples :
  due (mkDate 2021 1 1) [("yearly", "y")] = ["y"]
  /\ due (mkDate 2021 2 1) [("yearly", "y")] = []
  /\ due (mkDate 2021 2 1) [("monthly", "c"); ("daily", "c")] = ["c"; "c"]
  /\ due (mkDate 2021 2 2) [("monthly", "m"); ("daily", "d")] = ["d"].
Proof. repeat split. Qed.

(* ================================================================= *)
(** ** Outgoing packets *)

(** [sendSocket] frames its payload with the length [3 + len(data)], as
    long as that length fits the two bytes of the prefix. *)
Lemma sendSocket_bytes_framed (protocol : Z) (data : list byte) :
  len data + 3 < 65536 ->
  sendSocket_bytes protocol data = framed_packet (to_byte protocol) data.
Proof.
  intros Hlen. unfold sendSocket_bytes, framed_packet, uint16.
  pose proof (len_nonneg data).
  rewrite Z.mod_small by lia. rewrite (Z.add_comm (len data) 3). reflexivity.
Qed.

Lemma sendSocket_bytes_declared (protocol : Z) (data : list byte) :
  len data + 3 < 65536 ->
  declared_length (sendSocket_bytes protocol data) = Ok (3 + len data)
  /\ len (sendSocket_bytes protocol data) = 3 + len data.
Proof.
  intros Hlen. pose proof (len_nonneg data).
  rewrite sendSocket_bytes_framed by exact Hlen.
  unfold framed_packet, declared_length. split.
  - change (Uint16 (PutUint16 (3 + len data) ++ [to_byte protocol] ++ data))
      with (@Ok Z (le_value (PutUint16 (3 + len data)))).
    rewrite le_value_PutUint16 by lia. reflexivity.
  - rewrite !len_app. unfold PutUint16. rewrite !len_cons, len_nil. lia.
Qed.

Lemma join_bytes_shape (password botName botVersion : string) :
  join_bytes password botName botVersion
  = [to_byte (3 + len (join_payload password botName botVersion)); x00]
    ++ [x00] ++ join_payload password botName botVersion.
Proof.
  unfold join_bytes, join_payload.
  cbn [app]. rewrite len_cons. do 2 f_equal. lia.
Qed.

(** The login message is framed correctly while [3 + payload] stays below
    256: its second length byte is the constant 0. *)
Lemma join_bytes_framed_short (password botName botVersion : string) :
  3 + len (join_payload password botName botVersion) < 256 ->
  join_bytes password botName botVersion
  = framed_packet x00 (join_payload password botName botVersion).
Proof.
  intros Hlen. rewrite join_bytes_shape. unfold framed_packet, PutUint16.
  pose proof (len_nonneg (join_payload password botName botVersion)).
  rewrite Z.div_small by lia. reflexivity.
Qed.

Lemma framed_packet_cons (ty : byte) (data : list byte) :
  framed_packet ty data
  = to_byte (3 + len data) :: to_byte ((3 + len data) / 256) :: ty :: data.
Proof. reflexivity. Qed.

Lemma len_framed_packet (ty : byte) (data : list byte) :
  len (framed_packet ty data) = 3 + len data.
Proof. rewrite framed_packet_cons, !len_cons. lia. Qed.

Lemma declared_length_framed (ty : byte) (data rest : list byte) :
  3 + len data < 65536 ->
  declared_length (framed_packet ty data ++ rest) = Ok (3 + len data).
Proof.
  intros Hlen. pose proof (len_nonneg data).
  rewrite framed_packet_cons. cbn [app].
  change (declared_length (?a :: ?b :: ?l)) with (@Ok Z (le_value [a; b])).
  change [to_byte (3 + len data); to_byte ((3 + len data) / 256)]
    with (PutUint16 (3 + len data)).
  rewrite le_value_PutUint16 by lia. reflexivity.
Qed.

Lemma declared_length_join (password botName botVersion : string) :
  declared_length (join_bytes password botName botVersion)
  = Ok ((3 + len (join_payload password botName botVersion)) mod 256).
Proof.
  rewrite join_bytes_shape. cbn [app].
  change (declared_length (?a :: ?b :: ?l)) with (@Ok Z (le_value [a; b])).
  cbn [le_value]. rewrite byte_val_to_byte.
  change (byte_val x00) with 0. f_equal. lia.
Qed.

(** C7. When the login payload has 253 bytes or
    more (and the message still fits a 16-bit length), the length prefix
    of the login message is the true length reduced modulo 256, because
    its second byte is the constant 0: the message sent is not the packet
    that the framing rule prescribes for its payload. *)
Theorem join_length_prefix_truncated (password botName botVersion : string) :
  256 <= 3 + len (join_payload password botName botVersion) < 65536 ->
  len (join_bytes password botName botVersion)
  = 3 + len (join_payload password botName botVersion)
  /\ declared_length (join_bytes password botName botVersion)
     = Ok ((3 + len (join_payload password botName botVersion)) mod 256)
  /\ (3 + len (join_payload password botName botVersion)) mod 256
     < 3 + len (join_payload password botName botVersion)
  /\ join_bytes password botName botVersion
     <> framed_packet x00 (join_payload password botName botVersion).
Proof.
  intros Hlen.
  set (payload := join_payload password botName botVersion) in *.
  pose proof (Z.mod_pos_bound (3 + len payload) 256 ltac:(lia)) as Hmod.
  split; [|split; [|split]].
  - rewrite join_bytes_shape. fold payload. rewrite !len_app, !len_cons, len_nil. lia.
  - apply declared_length_join.
  - lia.
  - intros E. apply (f_equal declared_length) in E.
    rewrite declared_length_join in E. fold payload in E.
    rewrite <- (app_nil_r (framed_packet x00 payload)) in E.
    rewrite declared_length_framed in E by lia.
    assert (E' : (3 + len payload) mod 256 = 3 + len payload) by congruence.
    lia.
Qed.

(** The password of 256 characters with the identity that [main] passes:
    283 bytes are sent under a length prefix of 27. *)
Lemma join_length_prefix_truncated_witness :
  256 <= 3 + len (join_payload long_password "openttd-multitool" "0.02") < 65536
  /\ len (join_bytes long_password "openttd-multitool" "0.02") = 283
  /\ declared_length (join_bytes long_password "openttd-multitool" "0.02") = Ok 27.
Proof.
  assert (H : 256 <= 3 + len (join_payload long_password "openttd-multitool" "0.02")
              < 65536) by (vm_compute; split; congruence).
  split; [exact H|].
  destruct (join_length_prefix_truncated long_password "openttd-multitool" "0.02" H)
    as (Hl & Hd & _ & _).
  split; [exact Hl | exact Hd].
Defined.

(* ================================================================= *)
(** ** Connect *)

Lemma handshake_run (password botName botVersion : string)
    (server : OpenTTDServer) (k : nat) :
  connection server = Some k ->
  handshake password botName botVersion server
  = (Ok tt, server,
     [EvWrite (join_bytes password botName botVersion);
      EvWrite (framed_packet x02 (PutUint16 0 ++ PutUint16 2))]).
Proof.
  intros Hc. unfold handshake, sendSocket, connWrite, M.bind. rewrite !Hc.
  reflexivity.
Qed.

(** In the usual order every turn of the loop that gets a connection
    starts with the same events. *)
Lemma Connect_from_dialed (k : nat) (password botName botVersion : string)
    (reads : list read_result) (rest : list attempt) (server : OpenTTDServer) :
  exists tail,
    trace (Connect_from k password botName botVersion (Dialed reads :: rest) server)
    = [EvLog LogConnecting; EvDial true; EvLog LogConnected; EvSpawnReader;
       EvConnected;
       EvWrite (join_bytes password botName botVersion);
       EvWrite (framed_packet x02 (PutUint16 0 ++ PutUint16 2))] ++ tail.
Proof.
  cbn [Connect_from]. unfold M.bind at 1 2 3 4 5 6 7. unfold M.emit, M.modify.
  rewrite (handshake_run _ _ _ _ k) by reflexivity.
  unfold M.bind.
  destruct (Mx.listen (listenSocket reads) (set_connection (Some k) server))
    as [[[[r heard]| | |] s1] e1]; try (eexists; reflexivity).
  destruct r; [|eexists; reflexivity].
  destruct (existsb is_disconnected heard); [|eexists; reflexivity].
  unfold M.emit.
  destruct (Connect_from (S k) password botName botVersion rest s1) as [[r2 s2] e2].
  eexists. unfold trace. cbn [snd app]. reflexivity.
Qed.

(** The earlier free-standing [Connect] registered the monthly bit. *)
Lemma Legacy_registers_monthly (password botName botVersion : string) :
  Legacy.handshake_writes password botName botVersion
  = [ join_bytes password botName botVersion;
      [x07; x00; x02; x00; x00; x08; x00] ].
Proof. reflexivity. Qed.

(* ================================================================= *)
(** ** Read errors *)

(** A reset by peer, and an error that is not a [*net.OpError], are
    logged and signalled once on [disconnected]; the reader returns. *)
Lemma read_error_signalled (err : go_error) (chunk : list byte)
    (rest : list read_result) (server : OpenTTDServer) :
  err = OpError "read: connection reset by peer" \/ (exists msg, err = OtherError msg) ->
  exists line,
    socketLoop (ReadError err :: rest) chunk server
    = (Ok Returned, set_connection None server, [EvLog line; EvDisconnected]).
Proof.
  intros [-> | [msg ->]]; eexists; reflexivity.
Qed.

(** In the usual order, after a signalled read error [Connect] sleeps
    and dials again. *)
Lemma Connect_from_reconnects (err : go_error) (k : nat)
    (password botName botVersion : string) (server : OpenTTDServer) :
  err = OpError "read: connection reset by peer" \/ (exists msg, err = OtherError msg) ->
  outcome (Connect_from k password botName botVersion
             [Dialed [ReadError err]; Dialed []] server) = Ok (Serving [])
  /\ List.length (filter is_dial
       (trace (Connect_from k password botName botVersion
                 [Dialed [ReadError err]; Dialed []] server))) = 2%nat.
Proof.
  intros [-> | [msg ->]]; split; reflexivity.
Qed.

Lemma onReadError_other_OpError (inner : string) (server : OpenTTDServer) :
  inner <> "read: connection reset by peer"%string ->
  onReadError (OpError inner) server = (Ok tt, server, []).
Proof.
  intros Hne. unfold onReadError.
  destruct (String.eqb_spec inner "read: connection reset by peer");
    [contradiction | reflexivity].
Qed.

Lemma socketLoop_other_OpError (inner : string) (chunk : list byte)
    (rest : list read_result) (server : OpenTTDServer) :
  inner <> "read: connection reset by peer"%string ->
  socketLoop (ReadError (OpError inner) :: rest) chunk server
  = (Ok Returned, server, []).
Proof.
  intros Hne. cbn [socketLoop]. unfold M.bind.
  rewrite onReadError_other_OpError by exact Hne. reflexivity.
Qed.

(** C6. A read error that is a [*net.OpError] with
    any text other than "read: connection reset by peer" makes the reader
    return without a log line, without clearing [connection] and without
    sending on [disconnected]: [Connect] stays in its receive on that
    channel and never dials again, whatever the rest of the script. *)
Theorem other_OpError_is_not_signalled (inner : string) (k : nat)
    (password botName botVersion : string) (rest : list attempt)
    (server : OpenTTDServer) :
  inner <> "read: connection reset by peer"%string ->
  Connect_from k password botName botVersion
    (Dialed [ReadError (OpError inner)] :: rest) server
  = (Ok WaitingForever, set_connection (Some k) server,
     [EvLog LogConnecting; EvDial true; EvLog LogConnected; EvSpawnReader;
      EvConnected;
      EvWrite (join_bytes password botName botVersion);
      EvWrite (framed_packet x02 (PutUint16 0 ++ PutUint16 2))]).
Proof.
  intros Hne. cbn [Connect_from]. unfold M.bind at 1 2 3 4 5 6 7.
  unfold M.emit, M.modify.
  rewrite (handshake_run _ _ _ _ k) by reflexivity.
  unfold M.bind at 1. unfold Mx.listen, listenSocket.
  rewrite socketLoop_other_OpError by exact Hne.
  reflexivity.
Qed.

Lemma other_OpError_is_not_signalled_witness :
  "read: connection timed out"%string <> "read: connection reset by peer"%string
  /\ Connect "pw" "bot" "1" timeout_script zeroServer
     = (Ok WaitingForever, set_connection (Some 0%nat) zeroServer,
        [EvLog LogConnecting; EvDial true; EvLog LogConnected; EvSpawnReader;
         EvConnected;
         EvWrite (join_bytes "pw" "bot" "1");
         EvWrite (framed_packet x02 (PutUint16 0 ++ PutUint16 2))]).
Proof.
  assert (H : "read: connection timed out"%string
              <> "read: connection reset by peer"%string) by discriminate.
  split; [exact H|].
  exact (other_OpError_is_not_signalled "read: connection timed out" 0
           "pw" "bot" "1" [Dialed []] zeroServer H).
Defined.

(* ================================================================= *)
(** ** The cached server attributes across connections *)




(* ================================================================= *)
(** ** The framer *)

Lemma uint16_small (z : Z) : 0 <= z < 65536 -> uint16 z = z.
Proof. intros Hz. unfold uint16. apply Z.mod_small. exact Hz. Qed.

Lemma slice_header {A} (a b : A) (rest : list A) :
  slice (a :: b :: rest) 0 2 = Ok [a; b].
Proof.
  unfold slice. rewrite !len_cons. pose proof (len_nonneg rest).
  replace (len rest + 1 + 1 <? 2) with false by (symmetry; apply Z.ltb_ge; lia).
  reflexivity.
Qed.

(** A length header of 0 from the server, in the usual order of the two
    goroutines, ends the run of [Connect] with a panic: there is no send
    on [disconnected] and no second dial. *)
Lemma undersized_header_is_not_a_disconnect :
  outcome (Connect "pw" "bot" "1" undersized_script zeroServer)
  = Panic "slice bounds out of range"
  /\ existsb is_disconnected
       (trace (Connect "pw" "bot" "1" undersized_script zeroServer)) = false
  /\ List.length (filter is_dial
       (trace (Connect "pw" "bot" "1" undersized_script zeroServer))) = 1%nat.
Proof. repeat split. Qed.

(* ================================================================= *)
(** ** Framing of streams that stay below 65536 buffered bytes *)

Lemma bind_ret_l {A B} (a : A) (k : A -> M B) (s : OpenTTDServer) :
  M.bind (M.ret a) k s = k a s.
Proof.
  unfold M.bind, M.ret. destruct (k a s) as [[r s2] e2]. reflexivity.
Qed.

Lemma bind_lift_ok {A B} (a : A) (k : A -> M B) (s : OpenTTDServer) :
  M.bind (M.lift (Ok a)) k s = k a s.
Proof. apply (bind_ret_l a k s). Qed.

Lemma bind_ext {A B} (m : M A) (f g : A -> M B) (s : OpenTTDServer) :
  (forall a s', f a s' = g a s') -> M.bind m f s = M.bind m g s.
Proof.
  intros Hfg. unfold M.bind. destruct (m s) as [[[a| | |] s1] e1]; try reflexivity.
  rewrite Hfg. reflexivity.
Qed.

Lemma bind_assoc {A B C} (m : M A) (f : A -> M B) (g : B -> M C)
    (s : OpenTTDServer) :
  M.bind (M.bind m f) g s = M.bind m (fun a => M.bind (f a) g) s.
Proof.
  unfold M.bind. destruct (m s) as [[[a| | |] s1] e1]; try reflexivity.
  destruct (f a s1) as [[[b| | |] s2] e2]; try reflexivity.
  destruct (g b s2) as [[r s3] e3]. rewrite app_assoc. reflexivity.
Qed.

Lemma firstn_len_app {A} (l1 l2 : list A) :
  firstn (Z.to_nat (len l1)) (l1 ++ l2) = l1.
Proof.
  unfold len. rewrite Nat2Z.id, firstn_app, Nat.sub_diag, firstn_all.
  cbn. apply app_nil_r.
Qed.

Lemma skipn_len_app {A} (l1 l2 : list A) :
  skipn (Z.to_nat (len l1)) (l1 ++ l2) = l2.
Proof.
  unfold len. rewrite Nat2Z.id, skipn_app, Nat.sub_diag, skipn_all.
  reflexivity.
Qed.

(** One turn of the inner loop on a buffer that starts with a whole
    packet. *)
Lemma processChunk_packet (fuel : nat) (ty : byte) (data rest : list byte)
    (s : OpenTTDServer) :
  len (framed_packet ty data ++ rest) < 65536 ->
  processChunk (S fuel) (framed_packet ty data ++ rest) s
  = (M.emit (EvFramed (byte_val ty) data) ;;;
     c <- handlePacket (byte_val ty) data ;;
     match c with
     | Exit => M.ret Stopped
     | Next => processChunk fuel rest
     end) s.
Proof.
  intros Hlen. pose proof (len_nonneg data) as Hd. pose proof (len_nonneg rest) as Hr.
  rewrite len_app, len_framed_packet in Hlen.
  pose proof (declared_length_framed ty data rest ltac:(lia)) as Hdecl.
  set (chunk := framed_packet ty data ++ rest) in *.
  assert (Hchunk : chunk = to_byte (3 + len data) :: to_byte ((3 + len data) / 256)
                             :: ty :: data ++ rest) by reflexivity.
  assert (Hlc : len chunk = 3 + len data + len rest)
    by (unfold chunk; rewrite len_app, len_framed_packet; reflexivity).
  cbn [processChunk].
  replace (len chunk <? 2) with false by (symmetry; apply Z.ltb_ge; lia).
  rewrite Hchunk at 1. rewrite slice_header, bind_lift_ok.
  change (Uint16 [to_byte (3 + len data); to_byte ((3 + len data) / 256)])
    with (declared_length chunk).
  rewrite Hdecl, bind_lift_ok.
  rewrite uint16_small by lia.
  replace (3 + len data >? len chunk) with false
    by (symmetry; rewrite Z.gtb_ltb; apply Z.ltb_ge; lia).
  assert (Hidx : index chunk 2 = Ok ty).
  { rewrite Hchunk.
    change (index ([to_byte (3 + len data); to_byte ((3 + len data) / 256)]
                     ++ ty :: data ++ rest) (len [to_byte (3 + len data);
                                                  to_byte ((3 + len data) / 256)])
            = Ok ty).
    apply index_app_len. }
  rewrite Hidx, bind_lift_ok.
  assert (Hsl : slice chunk 3 (3 + len data) = Ok data).
  { unfold slice. rewrite Hlc.
    replace (3 + len data <? 3) with false by (symmetry; apply Z.ltb_ge; lia).
    replace (3 + len data + len rest <? 3 + len data) with false
      by (symmetry; apply Z.ltb_ge; lia).
    cbn [orb Z.ltb Z.compare]. rewrite Hchunk.
    change (skipn (Z.to_nat 3) (?a :: ?b :: ?c :: ?l)) with l.
    replace (3 + len data - 3) with (len data) by lia.
    rewrite firstn_len_app. reflexivity. }
  rewrite Hsl, bind_lift_ok.
  apply bind_ext. intros [] s1.
  apply bind_ext. intros c s2. destruct c; [|reflexivity].
  assert (Hsf : slice_from chunk (3 + len data) = Ok rest).
  { unfold slice_from. rewrite Hlc.
    replace (3 + len data <? 0) with false by (symmetry; apply Z.ltb_ge; lia).
    replace (3 + len data + len rest <? 3 + len data) with false
      by (symmetry; apply Z.ltb_ge; lia).
    cbn [orb]. unfold chunk.
    rewrite <- (len_framed_packet ty data). rewrite skipn_len_app. reflexivity. }
  rewrite Hsf, bind_lift_ok. reflexivity.
Qed.

(** The inner loop leaves an incomplete buffer as it is. *)
Lemma processChunk_incomplete (fuel : nat) (b : list byte) (s : OpenTTDServer) :
  incomplete b -> len b < 65536 ->
  processChunk (S fuel) b s = (Ok (NeedData b), s, []).
Proof.
  intros Hinc Hlen. cbn [processChunk].
  destruct (Z.ltb_spec (len b) 2) as [Hlt | Hge]; [reflexivity|].
  destruct Hinc as [Hshort | (v & Hdecl & Hv)]; [lia|].
  destruct b as [|b0 [|b1 rest]];
    [rewrite len_nil in Hge; lia | rewrite len_cons, len_nil in Hge; lia |].
  rewrite slice_header, bind_lift_ok.
  change (Uint16 [b0; b1]) with (declared_length (b0 :: b1 :: rest)).
  rewrite Hdecl, bind_lift_ok.
  rewrite uint16_small by lia.
  replace (v >? len (b0 :: b1 :: rest)) with true
    by (symmetry; rewrite Z.gtb_ltb; apply Z.ltb_lt; lia).
  reflexivity.
Qed.

Lemma encode_stream_cons (p : byte * list byte) (ps : list (byte * list byte)) :
  encode_stream (p :: ps) = framed_packet (fst p) (snd p) ++ encode_stream ps.
Proof. reflexivity. Qed.

Lemma encode_stream_app (ps1 ps2 : list (byte * list byte)) :
  encode_stream (ps1 ++ ps2) = encode_stream ps1 ++ encode_stream ps2.
Proof.
  unfold encode_stream. rewrite map_app, concat_app. reflexivity.
Qed.

(** The inner loop on whole packets followed by an incomplete rest. *)
Lemma processChunk_stream (ps : list (byte * list byte)) :
  forall (b : list byte) (fuel : nat) (s : OpenTTDServer),
    incomplete b ->
    len (encode_stream ps ++ b) < 65536 ->
    (List.length (encode_stream ps ++ b) < fuel)%nat ->
    processChunk fuel (encode_stream ps ++ b) s
    = (c <- deliver ps ;;
       M.ret (match c with Next => NeedData b | Exit => Stopped end)) s.
Proof.
  induction ps as [|[ty data] ps IH]; intros b fuel s Hinc Hlen Hfuel.
  - destruct fuel as [|fuel]; [inversion Hfuel|].
    cbn [encode_stream map List.concat app deliver] in *.
    rewrite bind_ret_l. apply processChunk_incomplete; assumption.
  - destruct fuel as [|fuel]; [inversion Hfuel|].
    rewrite encode_stream_cons in *. cbn [fst snd] in *.
    rewrite <- app_assoc in *.
    rewrite processChunk_packet by exact Hlen.
    cbn [deliver]. rewrite !bind_assoc.
    apply bind_ext. intros [] s1. rewrite bind_assoc.
    apply bind_ext. intros c s2. destruct c.
    + apply IH; [exact Hinc | |].
      * rewrite len_app in Hlen. pose proof (len_nonneg (framed_packet ty data)). lia.
      * rewrite length_app in Hfuel. rewrite framed_packet_cons in Hfuel.
        cbn [List.length] in Hfuel. lia.
    + rewrite bind_ret_l. reflexivity.
Qed.

Lemma deliver_app (ps1 ps2 : list (byte * list byte)) (s : OpenTTDServer) :
  deliver (ps1 ++ ps2) s
  = (c <- deliver ps1 ;;
     match c with Next => deliver ps2 | Exit => M.ret Exit end) s.
Proof.
  revert s. induction ps1 as [|[ty data] ps1 IH]; intros s.
  - cbn [app deliver]. rewrite bind_ret_l. reflexivity.
  - cbn [app deliver]. rewrite !bind_assoc.
    apply bind_ext. intros [] s1. rewrite bind_assoc.
    apply bind_ext. intros c s2. destruct c.
    + apply IH.
    + rewrite bind_ret_l. reflexivity.
Qed.

(** A buffer that starts with a whole packet is not incomplete. *)
Lemma packet_not_incomplete (ty : byte) (data rest : list byte) :
  3 + len data < 65536 ->
  ~ incomplete (framed_packet ty data ++ rest).
Proof.
  intros Hlen [Hshort | (v & Hdecl & Hv)].
  - rewrite len_app, len_framed_packet in Hshort.
    pose proof (len_nonneg data). pose proof (len_nonneg rest). lia.
  - rewrite declared_length_framed in Hdecl by exact Hlen.
    assert (Ev : v = 3 + len data) by congruence. subst v.
    rewrite len_app, len_framed_packet in Hv. pose proof (len_nonneg rest). lia.
Qed.

(** A proper prefix of a packet is incomplete. *)
Lemma packet_prefix_incomplete (ty : byte) (data x l : list byte) :
  3 + len data < 65536 ->
  framed_packet ty data = x ++ l -> l <> [] ->
  incomplete x.
Proof.
  intros Hlen Hsplit Hl.
  assert (Hlx : len x < 3 + len data).
  { rewrite <- (len_framed_packet ty data), Hsplit, len_app.
    destruct l; [contradiction|]. rewrite len_cons. pose proof (len_nonneg l). lia. }
  destruct x as [|b0 [|b1 x]].
  - left. rewrite len_nil. lia.
  - left. rewrite len_cons, len_nil. lia.
  - right. exists (3 + len data). split; [|exact Hlx].
    rewrite <- (declared_length_framed ty data [] Hlen).
    rewrite app_nil_r, Hsplit. reflexivity.
Qed.

(** What has arrived of a stream of packets is a number of whole packets
    and an incomplete rest. *)
Lemma stream_prefix (ps : list (byte * list byte)) :
  forall x y : list byte,
    x ++ y = encode_stream ps ->
    len (encode_stream ps) < 65536 ->
    exists ps1 ps2 b,
      ps = ps1 ++ ps2
      /\ x = encode_stream ps1 ++ b
      /\ incomplete b
      /\ b ++ y = encode_stream ps2.
Proof.
  induction ps as [|[ty data] ps IH]; intros x y Hxy Hlen.
  - apply app_eq_nil in Hxy as [-> ->].
    exists [], [], []. repeat split. left. rewrite len_nil. lia.
  - rewrite encode_stream_cons in Hxy, Hlen. cbn [fst snd] in Hxy, Hlen.
    rewrite len_app, len_framed_packet in Hlen.
    pose proof (len_nonneg data). pose proof (len_nonneg (encode_stream ps)).
    assert (Hwhole : forall l, x = framed_packet ty data ++ l ->
                               l ++ y = encode_stream ps ->
              exists ps1 ps2 b,
                (ty, data) :: ps = ps1 ++ ps2
                /\ x = encode_stream ps1 ++ b
                /\ incomplete b
                /\ b ++ y = encode_stream ps2).
    { intros l Hx Hl.
      destruct (IH l y Hl ltac:(lia)) as (ps1 & ps2 & b & Hps & Hl' & Hinc & Hb).
      exists ((ty, data) :: ps1), ps2, b. repeat split.
      - rewrite Hps. reflexivity.
      - rewrite encode_stream_cons, <- app_assoc, <- Hl'. exact Hx.
      - exact Hinc.
      - exact Hb. }
    apply app_eq_app in Hxy as [l [[Hx Hl] | [Hx Hl]]].
    + apply (Hwhole l Hx). symmetry. exact Hl.
    + destruct l as [|c l].
      * rewrite app_nil_r in Hx. apply (Hwhole []).
        -- rewrite app_nil_r. symmetry. exact Hx.
        -- rewrite Hl. reflexivity.
      * exists [], ((ty, data) :: ps), x. repeat split.
        -- apply (packet_prefix_incomplete ty data x (c :: l)); [lia | exact Hx | discriminate].
        -- rewrite encode_stream_cons. cbn [fst snd]. rewrite Hx, Hl, <- app_assoc.
           reflexivity.
Qed.

Lemma bind_cong_l {A B} (m m' : M A) (k : A -> M B) (s : OpenTTDServer) :
  m s = m' s -> M.bind m k s = M.bind m' k s.
Proof. intros E. unfold M.bind. rewrite E. reflexivity. Qed.

(** The read loop on a stream of whole packets that arrives in any
    pieces, started with an incomplete buffer. *)
Lemma socketLoop_stream (reads : list (list byte)) :
  forall (ps : list (byte * list byte)) (b : list byte) (s : OpenTTDServer),
    incomplete b ->
    b ++ List.concat reads = encode_stream ps ->
    len (encode_stream ps) < 65536 ->
    socketLoop (map ReadData reads) b s
    = (c <- deliver ps ;; M.ret (finish c)) s.
Proof.
  induction reads as [|r reads IH]; intros ps b s Hinc Hstream Hlen.
  - cbn [List.concat] in Hstream. rewrite app_nil_r in Hstream. subst b.
    destruct ps as [|[ty data] ps].
    + reflexivity.
    + exfalso. rewrite encode_stream_cons in Hinc, Hlen. cbn [fst snd] in Hinc, Hlen.
      apply (packet_not_incomplete ty data (encode_stream ps)); [|exact Hinc].
      rewrite len_app, len_framed_packet in Hlen.
      pose proof (len_nonneg (encode_stream ps)). lia.
  - cbn [map socketLoop List.concat] in *. rewrite app_assoc in Hstream.
    destruct (stream_prefix ps (b ++ r) (List.concat reads) Hstream Hlen)
      as (ps1 & ps2 & b' & Hps & Hx & Hinc' & Hrest).
    assert (Hlen1 : len (b ++ r) < 65536).
    { rewrite <- Hstream, len_app in Hlen. pose proof (len_nonneg (List.concat reads)). lia. }
    assert (Hlen2 : len (encode_stream ps2) < 65536).
    { rewrite Hps, encode_stream_app, len_app in Hlen.
      pose proof (len_nonneg (encode_stream ps1)). lia. }
    rewrite Hx in *. subst ps.
    rewrite (bind_cong_l _ _ _ s
               (processChunk_stream ps1 b' _ s Hinc' Hlen1 (Nat.lt_succ_diag_r _))).
    rewrite (bind_cong_l _ _ _ s (deliver_app ps1 ps2 s)).
    rewrite !bind_assoc. apply bind_ext. intros c s1. destruct c.
    + rewrite !bind_ret_l. apply IH; assumption.
    + rewrite !bind_ret_l. reflexivity.
Qed.

(** Framing below 65536 buffered bytes by the reader within length: a
    stream of whole packets, delivered in any pieces, makes it frame
    exactly these packets, in order and once each, for as long as the
    decoders go on (a decoder cut at a slice above the length cuts both
    sides); nothing is left in the buffer. *)
Lemma listenSocket_frames_stream (packets : list (byte * list byte))
    (reads : list (list byte)) (s : OpenTTDServer) :
  List.concat reads = encode_stream packets ->
  len (encode_stream packets) < 65536 ->
  listenSocket (map ReadData reads) s
  = (c <- deliver packets ;; M.ret (finish c)) s.
Proof.
  intros Hstream Hlen. unfold listenSocket.
  apply socketLoop_stream; [left; rewrite len_nil; lia | exact Hstream | exact Hlen].
Qed.

(** Split invariance below 65536 buffered bytes for the reader within
    length: two ways of cutting the same stream of whole packets into
    reads give the same run, the same trace and the same server object,
    a run that is cut being cut at the same place. *)
Lemma listenSocket_split_invariant (packets : list (byte * list byte))
    (reads reads' : list (list byte)) (s : OpenTTDServer) :
  List.concat reads = encode_stream packets ->
  List.concat reads' = encode_stream packets ->
  len (encode_stream packets) < 65536 ->
  listenSocket (map ReadData reads) s = listenSocket (map ReadData reads') s.
Proof.
  intros H1 H2 Hlen.
  rewrite (listenSocket_frames_stream packets reads s H1 Hlen).
  rewrite (listenSocket_frames_stream packets reads' s H2 Hlen).
  reflexivity.
Qed.


(* ================================================================= *)
(** ** The iteration bounds are never reached *)

Lemma extractString_loop_bounded (fuel : nat) :
  forall (bytes acc : list byte) (i : Z),
    (1 <= fuel)%nat ->
    len bytes - i + 2 <= Z.of_nat fuel \/ i < 0 ->
    extractString_loop fuel bytes acc i <> OutOfFuel.
Proof.
  induction fuel as [|fuel IH]; intros bytes acc i Hpos Hfuel; [lia|].
  cbn [extractString_loop].
  destruct (Z.leb_spec i (len bytes)) as [Hle | Hgt]; [|discriminate].
  unfold index.
  destruct (Z.ltb_spec i 0) as [Hneg | Hnn]; cbn [orb R.bind]; [discriminate|].
  destruct (Z.leb_spec (len bytes) i) as [Hend | Hin]; cbn [R.bind]; [discriminate|].
  destruct (nth_error bytes (Z.to_nat i)) as [b|]; cbn [R.bind]; [|discriminate].
  destruct (Byte.eqb b x00); [discriminate|].
  apply IH; lia.
Qed.

Lemma extractString_bounded (bytes : list byte) (start : Z) :
  extractString bytes start <> OutOfFuel.
Proof.
  unfold extractString. apply extractString_loop_bounded; [lia|].
  destruct (Z.ltb_spec start 0); [right; assumption | left].
  unfold len. lia.
Qed.

Lemma index_bounded {A} (s : list A) (i : Z) : index s i <> OutOfFuel.
Proof.
  unfold index. destruct ((i <? 0) || (len s <=? i)); [discriminate|].
  destruct (nth_error s (Z.to_nat i)); discriminate.
Qed.

Lemma slice_bounded {A} (s : list A) (lo hi : Z) : slice s lo hi <> OutOfFuel.
Proof.
  unfold slice. destruct ((lo <? 0) || (hi <? lo)); [discriminate|].
  destruct (len s <? hi); discriminate.
Qed.

Lemma slice_from_bounded {A} (s : list A) (lo : Z) : slice_from s lo <> OutOfFuel.
Proof.
  unfold slice_from. destruct ((lo <? 0) || (len s <? lo)); discriminate.
Qed.

Lemma Uint16_bounded (b : list byte) : Uint16 b <> OutOfFuel.
Proof. destruct b as [|? [|? ?]]; discriminate. Qed.

Lemma Uint32_bounded (b : list byte) : Uint32 b <> OutOfFuel.
Proof. destruct b as [|? [|? [|? [|? ?]]]]; discriminate. Qed.

Lemma Uint64_bounded (b : list byte) : Uint64 b <> OutOfFuel.
Proof.
  destruct b as [|? [|? [|? [|? [|? [|? [|? [|? ?]]]]]]]]; discriminate.
Qed.

Lemma terminates_bind {A B} (m : M A) (k : A -> M B) (s : OpenTTDServer) :
  terminates (m s) -> (forall a s', terminates (k a s')) ->
  terminates (M.bind m k s).
Proof.
  unfold terminates, outcome, M.bind. intros Hm Hk.
  destruct (m s) as [[[a| | |] s1] e1]; cbn [fst] in *; try discriminate.
  - specialize (Hk a s1). destruct (k a s1) as [[r s2] e2]. exact Hk.
  - contradiction.
Qed.

Lemma terminates_lift {A} (r : result A) (s : OpenTTDServer) :
  r <> OutOfFuel -> terminates (M.lift r s).
Proof. intros Hr. exact Hr. Qed.

Lemma terminates_ok {A} (a : A) (s : OpenTTDServer) (e : list event) :
  terminates (Ok a, s, e).
Proof. discriminate. Qed.

Ltac terminates_step :=
  first
    [ apply terminates_bind; [|intros ? ?]
    | apply terminates_lift;
      first [ apply extractString_bounded | apply index_bounded
            | apply slice_bounded | apply slice_from_bounded
            | apply Uint16_bounded | apply Uint32_bounded | apply Uint64_bounded ]
    | apply terminates_ok
    | match goal with
      | |- terminates (match ?x with pair _ _ => _ end _) => destruct x
      | |- terminates ((if ?c then _ else _) _) => destruct c
      end ].

Lemma connWrite_terminates (data : list byte) (s : OpenTTDServer) :
  terminates (connWrite data s).
Proof. unfold connWrite. destruct (connection s); discriminate. Qed.

Lemma forEach_terminates {A} (l : list A) (body : A -> M unit) :
  (forall a s, terminates (body a s)) ->
  forall s, terminates (Mx.forEach l body s).
Proof.
  intros Hbody. induction l as [|a l IH]; intros s.
  - discriminate.
  - cbn [Mx.forEach]. apply terminates_bind; [apply Hbody | intros _ s'; apply IH].
Qed.

Lemma dateChanged_terminates (dt : date) (s : OpenTTDServer) :
  terminates (dateChanged dt s).
Proof.
  assert (Hcmd : forall (c : string) s', terminates (rconCommand (processCommand c dt) s'))
    by (intros; apply connWrite_terminates).
  unfold dateChanged.
  apply terminates_bind; [discriminate | intros server s1].
  apply terminates_bind; [apply forEach_terminates, Hcmd | intros _ s2].
  apply terminates_bind.
  - destruct (Day dt =? 1); [apply forEach_terminates, Hcmd | discriminate].
  - intros _ s3.
    destruct ((Day dt =? 1) && (Month dt =? 1));
      [apply forEach_terminates, Hcmd | discriminate].
Qed.

Lemma handlePacket_terminates (packetType : Z) (packetData : list byte)
    (s : OpenTTDServer) :
  terminates (handlePacket packetType packetData s).
Proof.
  unfold handlePacket.
  repeat match goal with
         | |- terminates ((if ?c then _ else _) _) => destruct c
         end.
  - discriminate.
  - unfold decodeWelcome, M.emit, M.modify, M.get, M.ret. repeat terminates_step.
  - unfold decodeShutdown, M.emit, M.modify, M.ret. repeat terminates_step.
  - apply terminates_bind; [|discriminate]. unfold decodeDate.
    apply terminates_bind; [apply terminates_lift, slice_bounded | intros dateBytes s1].
    apply terminates_bind; [apply terminates_lift, Uint32_bounded | intros date_ s2].
    apply dateChanged_terminates.
  - unfold decodeChat, M.emit, M.ret. repeat terminates_step.
  - unfold decodeRcon, M.emit, M.ret. repeat terminates_step.
  - unfold decodeRconEnd, M.emit, M.ret. repeat terminates_step.
  - unfold M.emit, M.ret. repeat terminates_step.
Qed.

Lemma slice_ok_bounds {A} (s data : list A) (lo hi : Z) :
  slice s lo hi = Ok data -> 0 <= lo <= hi /\ hi <= len s.
Proof.
  unfold slice.
  destruct (Z.ltb_spec lo 0); cbn [orb]; [discriminate|].
  destruct (Z.ltb_spec hi lo); [discriminate|].
  destruct (Z.ltb_spec (len s) hi); [discriminate|].
  intros _. lia.
Qed.

Lemma processChunk_terminates (fuel : nat) :
  forall (chunk : list byte) (s : OpenTTDServer),
    (List.length chunk < fuel)%nat ->
    terminates (processChunk fuel chunk s).
Proof.
  induction fuel as [|fuel IH]; intros chunk s Hfuel; [inversion Hfuel|].
  cbn [processChunk].
  destruct (len chunk <? 2); [discriminate|].
  apply terminates_bind; [apply terminates_lift, slice_bounded | intros header s1].
  apply terminates_bind; [apply terminates_lift, Uint16_bounded | intros packetSize s2].
  destruct (packetSize >? uint16 (len chunk)); [discriminate|].
  apply terminates_bind; [apply terminates_lift, index_bounded | intros typeByte s3].
  destruct (slice chunk 3 packetSize) as [packetData| | |] eqn:Hslice;
    [| discriminate | discriminate
     | exfalso; exact (slice_bounded _ _ _ Hslice)].
  rewrite bind_lift_ok.
  apply slice_ok_bounds in Hslice as [Hlo Hhi].
  apply terminates_bind; [discriminate | intros _ s4].
  apply terminates_bind; [apply handlePacket_terminates | intros c s5].
  destruct c; [|discriminate].
  unfold slice_from.
  destruct (Z.ltb_spec packetSize 0); cbn [orb]; [discriminate|].
  destruct (Z.ltb_spec (len chunk) packetSize); [discriminate|].
  rewrite bind_lift_ok. apply IH.
  rewrite length_skipn. unfold len in Hhi. lia.
Qed.

(** The embedding of [listenSocket] always yields an outcome of the code:
    a return, a wait for more data, a panic or the capacity-dependent
    slice; its iteration bounds are never the reason for stopping. *)
Lemma socketLoop_terminates (reads : list read_result) :
  forall (chunk : list byte) (s : OpenTTDServer),
    terminates (socketLoop reads chunk s).
Proof.
  induction reads as [|[data | err] reads IH]; intros chunk s.
  - discriminate.
  - cbn [socketLoop].
    apply terminates_bind;
      [apply processChunk_terminates; apply Nat.lt_succ_diag_r | intros d s1].
    destruct d; [apply IH | discriminate].
  - cbn [socketLoop]. apply terminates_bind; [|discriminate].
    destruct err as [inner | msg]; unfold onReadError.
    + destruct (inner =? "read: connection reset by peer")%string; discriminate.
    + discriminate.
Qed.

(* ================================================================= *)
(** ** Framing once the buffer reaches 65536 bytes *)

Lemma concat_cut (sizes : list nat) :
  forall stream, List.concat (cut sizes stream) = stream.
Proof.
  induction sizes as [|n sizes IH]; intros stream.
  - cbn. apply app_nil_r.
  - cbn [cut List.concat]. rewrite IH. apply firstn_skipn.
Qed.

Lemma len_repeat {A} (a : A) (n : nat) : len (repeat a n) = Z.of_nat n.
Proof. unfold len. rewrite repeat_length. reflexivity. Qed.

(** [two_packets] is a valid stream: two packets whose headers count the
    two length bytes, the type byte and the payload. *)
Lemma two_packets_valid :
  two_packets
  = framed_packet x67 (repeat x00 (Z.to_nat 65532)) ++ framed_packet x67 [].
Proof.
  unfold two_packets, big_packet, small_packet, framed_packet.
  rewrite len_repeat. reflexivity.
Qed.

(** C1. The same valid stream of two packets, delivered in reads of at
    most 1024 bytes, is framed into both packets (with an empty buffer
    left) when the first packet is complete at 65535 buffered bytes, and
    into none when a read takes the buffer from 64512 to 65536 bytes: the
    comparison [packetSize > uint16(len(chunk))] then sees a length of 0,
    later of 2, and all 65538 bytes stay in the buffer without any
    event. *)
Theorem framing_depends_on_split :
  List.concat reads_1023 = two_packets
  /\ List.concat reads_1024 = two_packets
  /\ forallb (fun r : list byte => len r <=? 1024) (reads_1023 ++ reads_1024) = true
  /\ run_summary (listenSocket (map ReadData reads_1023) connectedServer)
     = (Some 0, [(103, 65532); (103, 0)], 2%nat)
  /\ run_summary (listenSocket (map ReadData reads_1024) connectedServer)
     = (Some 65538, [], 0%nat).
Proof.
  split; [apply concat_cut|].
  split; [apply concat_cut|].
  split; [vm_compute; reflexivity|].
  split; vm_compute; reflexivity.
Qed.

(* ################################################################# *)
(** * Further properties of the package *)

(* ================================================================= *)
(** ** Little-endian fields and positions in a payload *)

Lemma le_value_le_bytes (k : nat) :
  forall v, 0 <= v < 256 ^ Z.of_nat k -> le_value (le_bytes k v) = v.
Proof.
  induction k as [|k IH]; intros v Hv.
  - cbn in *. lia.
  - cbn [le_bytes le_value]. rewrite byte_val_to_byte.
    rewrite Nat2Z.inj_succ, Z.pow_succ_r in Hv by lia.
    rewrite IH.
    + pose proof (Z.div_mod v 256 ltac:(lia)). lia.
    + split; [apply Z.div_pos; lia | apply Z.div_lt_upper_bound; lia].
Qed.

Lemma len_le_bytes (k : nat) (v : Z) : len (le_bytes k v) = Z.of_nat k.
Proof.
  revert v. induction k as [|k IH]; intros v; [reflexivity|].
  cbn [le_bytes]. rewrite len_cons, IH. lia.
Qed.

Lemma extractString_split (bytes pre s post : list byte) (start : Z) :
  bytes = pre ++ s ++ x00 :: post ->
  start = len pre ->
  Forall nonzero s ->
  extractString bytes start = Ok (string_of_list_byte s, start + len s + 1).
Proof. intros -> -> Hs. apply extractString_terminated. exact Hs. Qed.

Lemma index_split {A} (l pre : list A) (a : A) (post : list A) (i : Z) :
  l = pre ++ a :: post -> i = len pre -> index l i = Ok a.
Proof. intros -> ->. apply index_app_len. Qed.

Lemma slice_split {A} (l pre mid post : list A) (lo hi : Z) :
  l = pre ++ mid ++ post -> lo = len pre -> hi = lo + len mid ->
  slice l lo hi = Ok mid.
Proof.
  intros -> -> ->. unfold slice. rewrite !len_app.
  pose proof (len_nonneg pre). pose proof (len_nonneg mid). pose proof (len_nonneg post).
  replace (len pre <? 0) with false by (symmetry; apply Z.ltb_ge; lia).
  replace (len pre + len mid <? len pre) with false by (symmetry; apply Z.ltb_ge; lia).
  replace (len pre + (len mid + len post) <? len pre + len mid) with false
    by (symmetry; apply Z.ltb_ge; lia).
  cbn [orb]. rewrite skipn_len_app.
  replace (len pre + len mid - len pre) with (len mid) by lia.
  rewrite firstn_len_app. reflexivity.
Qed.

Lemma slice_from_split {A} (l pre post : list A) (lo : Z) :
  l = pre ++ post -> lo = len pre -> slice_from l lo = Ok post.
Proof.
  intros -> ->. unfold slice_from. rewrite len_app.
  pose proof (len_nonneg pre). pose proof (len_nonneg post).
  replace (len pre <? 0) with false by (symmetry; apply Z.ltb_ge; lia).
  replace (len pre + len post <? len pre) with false by (symmetry; apply Z.ltb_ge; lia).
  cbn [orb]. rewrite skipn_len_app. reflexivity.
Qed.

Lemma Uint16_le_bytes (v : Z) :
  0 <= v < 65536 -> Uint16 (le_bytes 2 v) = Ok v.
Proof.
  intros Hv. change (Uint16 (le_bytes 2 v)) with (@Ok Z (le_value (le_bytes 2 v))).
  rewrite (le_value_le_bytes 2) by (cbn; lia). reflexivity.
Qed.

Lemma Uint32_le_bytes (v : Z) :
  0 <= v < 4294967296 -> Uint32 (le_bytes 4 v) = Ok v.
Proof.
  intros Hv. change (Uint32 (le_bytes 4 v)) with (@Ok Z (le_value (le_bytes 4 v))).
  rewrite (le_value_le_bytes 4) by (cbn; lia). reflexivity.
Qed.

Lemma Uint64_le_bytes (v : Z) :
  0 <= v < 18446744073709551616 -> Uint64 (le_bytes 8 v) = Ok v.
Proof.
  intros Hv. change (Uint64 (le_bytes 8 v)) with (@Ok Z (le_value (le_bytes 8 v))).
  rewrite (le_value_le_bytes 8) by (cbn; lia). reflexivity.
Qed.

(* ================================================================= *)
(** ** Running a computation step by step *)

Lemma bind_emit {B} (e : event) (k : unit -> M B) (s : OpenTTDServer) :
  M.bind (M.emit e) k s = prepend [e] (k tt s).
Proof.
  unfold M.bind, M.emit, prepend, outcome, server_of, trace.
  destruct (k tt s) as [[r s2] e2]. reflexivity.
Qed.

Lemma bind_modify {B} (f : OpenTTDServer -> OpenTTDServer) (k : unit -> M B)
    (s : OpenTTDServer) :
  M.bind (M.modify f) k s = k tt (f s).
Proof.
  unfold M.bind, M.modify. destruct (k tt (f s)) as [[r s2] e2]. reflexivity.
Qed.

Lemma bind_get {B} (k : OpenTTDServer -> M B) (s : OpenTTDServer) :
  M.bind M.get k s = k s s.
Proof.
  unfold M.bind, M.get. destruct (k s s) as [[r s2] e2]. reflexivity.
Qed.

Lemma prepend_prepend {A} (e1 e2 : list event)
    (x : result A * OpenTTDServer * list event) :
  prepend e1 (prepend e2 x) = prepend (e1 ++ e2) x.
Proof.
  unfold prepend, outcome, server_of, trace. cbn [fst snd].
  rewrite app_assoc. reflexivity.
Qed.

Ltac len_simpl :=
  repeat first [ rewrite len_app | rewrite len_cons | rewrite len_le_bytes ];
  change (len (@nil byte)) with 0.

Ltac list_eq :=
  repeat (rewrite <- ?app_assoc; cbn [app]); reflexivity.

(* ================================================================= *)
(** ** Decoding of well-formed packets *)

(** The dedicated flag as the Welcome branch reads it: 0 is false, 1 is
    true, any other byte leaves the field as it was. *)
Lemma decodeWelcome_fields (name version : list byte) (flag : byte)
    (mapName : list byte) (seed : Z) (landscape : byte) (startDate x y : Z)
    (rest : list byte) (s : OpenTTDServer) :
  Forall nonzero name -> Forall nonzero version -> Forall nonzero mapName ->
  0 <= seed < 4294967296 -> 0 <= x < 65536 -> 0 <= y < 65536 ->
  decodeWelcome
    (welcome_bytes name version flag mapName seed landscape startDate x y ++ rest) s
  = (Ok tt,
     mkServer (connection s)
       (string_of_list_byte name) (string_of_list_byte version)
       (if Byte.eqb flag x00 then false
        else if Byte.eqb flag x01 then true else ServerDedicated s)
       (string_of_list_byte mapName) seed landscape x y
       (rconDaily s) (rconMonthly s) (rconYearly s),
     [EvLog LogWelcomeReceived;
      EvLog (LogPacket
        (welcome_bytes name version flag mapName seed landscape startDate x y ++ rest))]
     ++ (if Byte.eqb flag x00 then []
         else if Byte.eqb flag x01 then [] else [EvLog (LogNotBool flag)])
     ++ [EvLog (LogServer (string_of_list_byte name) (string_of_list_byte version)
                  (if Byte.eqb flag x00 then false
                   else if Byte.eqb flag x01 then true else ServerDedicated s)
                  (string_of_list_byte mapName) x y)]).
Proof.
  intros Hname Hversion Hmap Hseed Hx Hy.
  set (payload := welcome_bytes name version flag mapName seed landscape startDate x y
                  ++ rest).
  assert (Hp : payload
               = name ++ x00 :: version ++ x00 :: flag :: mapName ++ x00
                   :: le_bytes 4 seed ++ landscape :: le_bytes 4 startDate
                   ++ le_bytes 2 x ++ le_bytes 2 y ++ rest).
  { unfold payload, welcome_bytes. list_eq. }
  unfold decodeWelcome.
  rewrite !bind_emit.
  rewrite (extractString_split payload [] name
             (version ++ x00 :: flag :: mapName ++ x00
                :: le_bytes 4 seed ++ landscape :: le_bytes 4 startDate
                ++ le_bytes 2 x ++ le_bytes 2 y ++ rest) 0 Hp eq_refl Hname).
  rewrite bind_lift_ok. cbn beta iota. rewrite bind_modify.
  rewrite (extractString_split payload (name ++ [x00]) version
             (flag :: mapName ++ x00
                :: le_bytes 4 seed ++ landscape :: le_bytes 4 startDate
                ++ le_bytes 2 x ++ le_bytes 2 y ++ rest) (0 + len name + 1));
    [| rewrite Hp; list_eq | len_simpl; lia | exact Hversion].
  rewrite bind_lift_ok. cbn beta iota. rewrite bind_modify.
  rewrite (index_split payload (name ++ x00 :: version ++ [x00]) flag
             (mapName ++ x00
                :: le_bytes 4 seed ++ landscape :: le_bytes 4 startDate
                ++ le_bytes 2 x ++ le_bytes 2 y ++ rest));
    [| rewrite Hp; list_eq | len_simpl; lia].
  rewrite bind_lift_ok.
  set (o2 := 0 + len name + 1 + len version + 1).
  assert (Hrest : forall (s1 : OpenTTDServer)
            (k := fun _ : unit =>
                '(mapName0, next) <- M.lift (extractString payload (o2 + 1)) ;;
                M.modify (set_MapName mapName0) ;;;
                seedBytes <- M.lift (slice payload next (next + 4)) ;;
                seed0 <- M.lift (Uint32 seedBytes) ;;
                M.modify (set_MapSeed seed0) ;;;
                landscape0 <- M.lift (index payload (next + 4)) ;;
                M.modify (set_MapLandscape landscape0) ;;;
                xBytes <- M.lift (slice payload (next + 9) (next + 11)) ;;
                mapX <- M.lift (Uint16 xBytes) ;;
                M.modify (set_MapX mapX) ;;;
                yBytes <- M.lift (slice payload (next + 11) (next + 13)) ;;
                mapY <- M.lift (Uint16 yBytes) ;;
                M.modify (set_MapY mapY) ;;;
                server <- M.get ;;
                M.emit (EvLog (LogServer (ServerName server) (ServerVersion server)
                                 (ServerDedicated server) (MapName server)
                                 (MapX server) (MapY server)))),
            k tt s1
            = (Ok tt,
               set_MapY y (set_MapX x (set_MapLandscape landscape
                 (set_MapSeed seed (set_MapName (string_of_list_byte mapName) s1)))),
               [EvLog (LogServer (ServerName s1) (ServerVersion s1)
                         (ServerDedicated s1) (string_of_list_byte mapName) x y)])).
  { intros s1 k. unfold k.
    rewrite (extractString_split payload
               (name ++ x00 :: version ++ x00 :: [flag]) mapName
               (le_bytes 4 seed ++ landscape :: le_bytes 4 startDate
                  ++ le_bytes 2 x ++ le_bytes 2 y ++ rest) (o2 + 1));
      [| rewrite Hp; list_eq | unfold o2; len_simpl; lia | exact Hmap].
    rewrite bind_lift_ok. cbn beta iota. rewrite bind_modify.
    set (o3 := o2 + 1 + len mapName + 1).
    rewrite (slice_split payload
               (name ++ x00 :: version ++ x00 :: flag :: mapName ++ [x00])
               (le_bytes 4 seed)
               (landscape :: le_bytes 4 startDate
                  ++ le_bytes 2 x ++ le_bytes 2 y ++ rest) o3 (o3 + 4));
      [| rewrite Hp; list_eq | unfold o3, o2; len_simpl; lia | len_simpl; lia].
    rewrite bind_lift_ok, Uint32_le_bytes by exact Hseed.
    rewrite bind_lift_ok, bind_modify.
    rewrite (index_split payload
               (name ++ x00 :: version ++ x00 :: flag :: mapName ++ x00 :: le_bytes 4 seed)
               landscape
               (le_bytes 4 startDate ++ le_bytes 2 x ++ le_bytes 2 y ++ rest));
      [| rewrite Hp; list_eq | unfold o3, o2; len_simpl; lia].
    rewrite bind_lift_ok, bind_modify.
    rewrite (slice_split payload
               (name ++ x00 :: version ++ x00 :: flag :: mapName ++ x00
                  :: le_bytes 4 seed ++ landscape :: le_bytes 4 startDate)
               (le_bytes 2 x) (le_bytes 2 y ++ rest) (o3 + 9) (o3 + 11));
      [| rewrite Hp; list_eq | unfold o3, o2; len_simpl; lia | len_simpl; lia].
    rewrite bind_lift_ok, Uint16_le_bytes by exact Hx.
    rewrite bind_lift_ok, bind_modify.
    rewrite (slice_split payload
               (name ++ x00 :: version ++ x00 :: flag :: mapName ++ x00
                  :: le_bytes 4 seed ++ landscape :: le_bytes 4 startDate
                  ++ le_bytes 2 x)
               (le_bytes 2 y) rest (o3 + 11) (o3 + 13));
      [| rewrite Hp; list_eq | unfold o3, o2; len_simpl; lia | len_simpl; lia].
    rewrite bind_lift_ok, Uint16_le_bytes by exact Hy.
    rewrite bind_lift_ok, bind_modify, bind_get. reflexivity. }
  cbv zeta in Hrest.
  destruct (Byte.eqb flag x00); [|destruct (Byte.eqb flag x01)].
  - rewrite bind_modify, Hrest. reflexivity.
  - rewrite bind_modify, Hrest. reflexivity.
  - rewrite bind_emit, Hrest. reflexivity.
Qed.

Lemma decodeChat_fields (action destType : byte) (clientID : Z) (msg : list byte)
    (data : Z) (s : OpenTTDServer) :
  Forall nonzero msg ->
  0 <= clientID < 4294967296 ->
  0 <= data < 18446744073709551616 ->
  decodeChat (chat_bytes action destType clientID msg data) s
  = (Ok tt, s,
     [EvLog (LogChat (int8 action) (int8 destType) clientID
               (string_of_list_byte msg) data)]).
Proof.
  intros Hmsg Hid Hdata.
  set (payload := chat_bytes action destType clientID msg data).
  assert (Hp : payload
               = action :: destType :: le_bytes 4 clientID ++ msg ++ x00 :: le_bytes 8 data).
  { unfold payload, chat_bytes. list_eq. }
  unfold decodeChat.
  rewrite (index_split payload [] action
             (destType :: le_bytes 4 clientID ++ msg ++ x00 :: le_bytes 8 data) 0 Hp eq_refl).
  rewrite bind_lift_ok.
  rewrite (index_split payload [action] destType
             (le_bytes 4 clientID ++ msg ++ x00 :: le_bytes 8 data) 1 Hp eq_refl).
  rewrite bind_lift_ok.
  rewrite (slice_split payload [action; destType] (le_bytes 4 clientID)
             (msg ++ x00 :: le_bytes 8 data) 2 6);
    [| rewrite Hp; list_eq | reflexivity | len_simpl; lia].
  rewrite bind_lift_ok, Uint32_le_bytes by exact Hid. rewrite bind_lift_ok.
  rewrite (extractString_split payload (action :: destType :: le_bytes 4 clientID) msg
             (le_bytes 8 data) 6);
    [| rewrite Hp; list_eq | len_simpl; lia | exact Hmsg].
  rewrite bind_lift_ok. cbn beta iota.
  rewrite (slice_from_split payload
             (action :: destType :: le_bytes 4 clientID ++ msg ++ [x00])
             (le_bytes 8 data) (len payload - 8));
    [| rewrite Hp; list_eq | rewrite Hp; len_simpl; lia].
  rewrite bind_lift_ok, Uint64_le_bytes by exact Hdata. rewrite bind_lift_ok.
  reflexivity.
Qed.

Lemma decodeRcon_fields (colour : Z) (text rest : list byte) (s : OpenTTDServer) :
  Forall nonzero text ->
  0 <= colour < 65536 ->
  decodeRcon (le_bytes 2 colour ++ text ++ x00 :: rest) s
  = (Ok tt, s, [EvLog (LogRcon colour (string_of_list_byte text))]).
Proof.
  intros Htext Hcolour. unfold decodeRcon.
  rewrite (slice_split _ [] (le_bytes 2 colour) (text ++ x00 :: rest) 0 2);
    [| reflexivity | reflexivity | len_simpl; lia].
  rewrite bind_lift_ok, Uint16_le_bytes by exact Hcolour. rewrite bind_lift_ok.
  rewrite (extractString_split _ (le_bytes 2 colour) text rest 2);
    [| reflexivity | len_simpl; lia | exact Htext].
  rewrite bind_lift_ok. reflexivity.
Qed.

Lemma decodeRconEnd_fields (text rest : list byte) (s : OpenTTDServer) :
  Forall nonzero text ->
  decodeRconEnd (text ++ x00 :: rest) s
  = (Ok tt, s, [EvLog (LogRconEnd (string_of_list_byte text))]).
Proof.
  intros Htext. unfold decodeRconEnd.
  rewrite (extractString_split (text ++ x00 :: rest) [] text rest 0 eq_refl eq_refl Htext).
  rewrite bind_lift_ok. reflexivity.
Qed.

Lemma decodeDate_days (days : Z) (rest : list byte) (s : OpenTTDServer) :
  0 <= days < 4294967296 ->
  decodeDate (le_bytes 4 days ++ rest) s = dateChanged (epochAddDays days) s.
Proof.
  intros Hdays. unfold decodeDate.
  rewrite (slice_split _ [] (le_bytes 4 days) rest 0 4);
    [| reflexivity | reflexivity | len_simpl; lia].
  rewrite bind_lift_ok, Uint32_le_bytes by exact Hdays. rewrite bind_lift_ok.
  reflexivity.
Qed.

Lemma bind_run_ok {A B} (m : M A) (k : A -> M B) (s s1 : OpenTTDServer)
    (a : A) (e1 : list event) :
  m s = (Ok a, s1, e1) -> M.bind m k s = prepend e1 (k a s1).
Proof.
  intros Hm. unfold M.bind, prepend, outcome, server_of, trace. rewrite Hm.
  destruct (k a s1) as [[r s2] e2]. reflexivity.
Qed.

(** X1. A Welcome packet whose payload carries the fields in the order
    of the wire format (three NUL-terminated strings without inner NUL,
    little-endian seed, width and height), followed by any further bytes,
    is decoded into exactly these fields: name, version, map name, seed,
    landscape, width and height are stored; the dedicated flag is stored
    as false for 0 and true for 1 and is left as it was for any other
    byte; the four bytes of start date are skipped; the connection and the
    command lists are untouched and the reader goes on. *)
Theorem handlePacket_welcome (name version : list byte) (flag : byte)
    (mapName : list byte) (seed : Z) (landscape : byte) (startDate x y : Z)
    (rest : list byte) (s : OpenTTDServer) :
  Forall nonzero name -> Forall nonzero version -> Forall nonzero mapName ->
  0 <= seed < 4294967296 -> 0 <= x < 65536 -> 0 <= y < 65536 ->
  outcome (handlePacket adminPacketServerWELCOME
             (welcome_bytes name version flag mapName seed landscape startDate x y
              ++ rest) s) = Ok Next
  /\ server_of (handlePacket adminPacketServerWELCOME
                  (welcome_bytes name version flag mapName seed landscape startDate x y
                   ++ rest) s)
     = mkServer (connection s)
         (string_of_list_byte name) (string_of_list_byte version)
         (if Byte.eqb flag x00 then false
          else if Byte.eqb flag x01 then true else ServerDedicated s)
         (string_of_list_byte mapName) seed landscape x y
         (rconDaily s) (rconMonthly s) (rconYearly s).
Proof.
  intros Hname Hversion Hmap Hseed Hx Hy.
  change (handlePacket adminPacketServerWELCOME ?p)
    with (decodeWelcome p ;;; M.ret Next).
  rewrite (bind_run_ok _ _ _ _ _ _
             (decodeWelcome_fields name version flag mapName seed landscape startDate
                x y rest s Hname Hversion Hmap Hseed Hx Hy)).
  split; reflexivity.
Qed.

(** X2. A Date packet whose payload starts with the four little-endian
    bytes of a day count (further bytes are ignored) makes the reader send,
    on a live connection, exactly the RCON packets of the commands due on
    the date that lies that many days after January 1 of year 0, in
    dispatch order; the server object is unchanged and the reader goes
    on. *)
Theorem handlePacket_date (days : Z) (rest : list byte) (s : OpenTTDServer) (k : nat) :
  0 <= days < 4294967296 ->
  connection s = Some k ->
  handlePacket adminPacketServerDATE (le_bytes 4 days ++ rest) s
  = (Ok Next, s,
     map (fun c => EvWrite (rconPacket (processCommand c (epochAddDays days))))
       (rconDaily s
        ++ (if Day (epochAddDays days) =? 1 then rconMonthly s else [])
        ++ (if (Day (epochAddDays days) =? 1) && (Month (epochAddDays days) =? 1)
            then rconYearly s else []))).
Proof.
  intros Hdays Hconn.
  change (handlePacket adminPacketServerDATE ?p) with (decodeDate p ;;; M.ret Next).
  assert (Hrun := dateChanged_run (epochAddDays days) s k Hconn).
  rewrite <- (decodeDate_days days rest s Hdays) in Hrun.
  rewrite (bind_run_ok _ _ _ _ _ _ Hrun).
  unfold prepend, M.ret, outcome, server_of, trace. cbn [fst snd].
  rewrite app_nil_r. reflexivity.
Qed.

(** X3. Chat, RCON-reply and RCON-end packets with well-formed payloads
    are decoded into one log line each with exactly the fields of the
    payload (action and destination type as signed bytes, little-endian
    client id, colour and trailing data, the text up to its NUL); none of
    them changes the server object or writes on the connection, and the
    reader goes on. *)
Theorem handlePacket_chat_rcon (action destType : byte) (clientID : Z)
    (msg : list byte) (data colour : Z) (text rest : list byte) (s : OpenTTDServer) :
  Forall nonzero msg -> Forall nonzero text ->
  0 <= clientID < 4294967296 ->
  0 <= data < 18446744073709551616 ->
  0 <= colour < 65536 ->
  handlePacket adminPacketServerCHAT (chat_bytes action destType clientID msg data) s
  = (Ok Next, s,
     [EvLog (LogChat (int8 action) (int8 destType) clientID
               (string_of_list_byte msg) data)])
  /\ handlePacket adminPacketServerRCON (le_bytes 2 colour ++ text ++ x00 :: rest) s
     = (Ok Next, s, [EvLog (LogRcon colour (string_of_list_byte text))])
  /\ handlePacket adminPacketServerRCON_END (text ++ x00 :: rest) s
     = (Ok Next, s, [EvLog (LogRconEnd (string_of_list_byte text))]).
Proof.
  intros Hmsg Htext Hid Hdata Hcolour.
  split; [|split].
  - change (handlePacket adminPacketServerCHAT ?p) with (decodeChat p ;;; M.ret Next).
    rewrite (bind_run_ok _ _ _ _ _ _ (decodeChat_fields _ _ _ _ _ s Hmsg Hid Hdata)).
    reflexivity.
  - change (handlePacket adminPacketServerRCON ?p) with (decodeRcon p ;;; M.ret Next).
    rewrite (bind_run_ok _ _ _ _ _ _ (decodeRcon_fields _ _ rest s Htext Hcolour)).
    reflexivity.
  - change (handlePacket adminPacketServerRCON_END ?p)
      with (decodeRconEnd p ;;; M.ret Next).
    rewrite (bind_run_ok _ _ _ _ _ _ (decodeRconEnd_fields _ rest s Htext)).
    reflexivity.
Qed.

(* ================================================================= *)
(** ** What the reader and [Connect] leave alone *)

Section Keeps.
Context {X : Type} (proj : OpenTTDServer -> X).

Lemma keeps_ret {A} (a : A) : keeps proj (M.ret a).
Proof. intros s. reflexivity. Qed.

Lemma keeps_lift {A} (r : result A) : keeps proj (M.lift r).
Proof. intros s. reflexivity. Qed.

Lemma keeps_emit (e : event) : keeps proj (M.emit e).
Proof. intros s. reflexivity. Qed.

Lemma keeps_get : keeps proj M.get.
Proof. intros s. reflexivity. Qed.

Lemma keeps_modify (f : OpenTTDServer -> OpenTTDServer) :
  (forall s, proj (f s) = proj s) -> keeps proj (M.modify f).
Proof. intros Hf s. apply Hf. Qed.

Lemma keeps_bind {A B} (m : M A) (k : A -> M B) :
  keeps proj m -> (forall a, keeps proj (k a)) -> keeps proj (M.bind m k).
Proof.
  intros Hm Hk s. specialize (Hm s). unfold M.bind, server_of in *.
  destruct (m s) as [[[a| | |] s1] e1]; cbn [fst snd] in *; try exact Hm.
  specialize (Hk a s1). unfold server_of in Hk.
  destruct (k a s1) as [[r s2] e2]. cbn [fst snd] in *. congruence.
Qed.

Lemma keeps_listen {A} (m : M A) : keeps proj m -> keeps proj (Mx.listen m).
Proof.
  intros Hm s. specialize (Hm s). unfold Mx.listen, server_of in *.
  destruct (m s) as [[[a| | |] s1] e1]; exact Hm.
Qed.

Lemma keeps_forEach {A} (l : list A) (body : A -> M unit) :
  (forall a, keeps proj (body a)) -> keeps proj (Mx.forEach l body).
Proof.
  intros Hbody. induction l as [|a l IH].
  - apply keeps_ret.
  - cbn [Mx.forEach]. apply keeps_bind; [apply Hbody | intros _; exact IH].
Qed.

Lemma keeps_connWrite (data : list byte) : keeps proj (connWrite data).
Proof. intros s. unfold connWrite. destruct (connection s); reflexivity. Qed.

Lemma keeps_dateChanged (dt : date) : keeps proj (dateChanged dt).
Proof.
  assert (Hcmd : forall c : string, keeps proj (rconCommand (processCommand c dt)))
    by (intros c; apply keeps_connWrite).
  unfold dateChanged.
  apply keeps_bind; [apply keeps_get | intros server].
  apply keeps_bind; [apply keeps_forEach, Hcmd | intros _].
  apply keeps_bind.
  - destruct (Day dt =? 1); [apply keeps_forEach, Hcmd | apply keeps_ret].
  - intros _. destruct ((Day dt =? 1) && (Month dt =? 1));
      [apply keeps_forEach, Hcmd | apply keeps_ret].
Qed.
End Keeps.

Ltac keeps_step :=
  first
    [ apply keeps_dateChanged
    | apply keeps_bind; [|intros ?]
    | apply keeps_lift | apply keeps_emit | apply keeps_get | apply keeps_ret
    | apply keeps_modify; intros ?; reflexivity
    | match goal with
      | |- keeps _ (match ?x with pair _ _ => _ end) => destruct x
      | |- keeps _ (if ?c then _ else _) => destruct c
      end ].

(** The decoders other than the Welcome branch never assign a field of
    the server object except [connection]. *)
Lemma handlePacket_keeps {X} (proj : OpenTTDServer -> X)
    (packetType : Z) (packetData : list byte) :
  (forall c s, proj (set_connection c s) = proj s) ->
  packetType <> adminPacketServerWELCOME ->
  keeps proj (handlePacket packetType packetData).
Proof.
  intros Hconn Hty. unfold handlePacket.
  destruct (packetType =? adminPacketServerPROTOCOL); [apply keeps_ret|].
  destruct (Z.eqb_spec packetType adminPacketServerWELCOME); [contradiction|].
  destruct (packetType =? adminPacketServerSHUTDOWN).
  { unfold decodeShutdown. repeat keeps_step. apply keeps_modify. intros s. apply Hconn. }
  destruct (packetType =? adminPacketServerDATE).
  { unfold decodeDate. repeat keeps_step. }
  destruct (packetType =? adminPacketServerCHAT).
  { unfold decodeChat. repeat keeps_step. }
  destruct (packetType =? adminPacketServerRCON).
  { unfold decodeRcon. repeat keeps_step. }
  destruct (packetType =? adminPacketServerRCON_END).
  { unfold decodeRconEnd. repeat keeps_step. }
  repeat keeps_step.
Qed.

Lemma decodeWelcome_keeps_registrations (packetData : list byte) :
  keeps registrations (decodeWelcome packetData)
  /\ keeps connection (decodeWelcome packetData).
Proof.
  split; unfold decodeWelcome; repeat keeps_step.
Qed.

Lemma handlePacket_keeps_registrations (packetType : Z) (packetData : list byte) :
  keeps registrations (handlePacket packetType packetData).
Proof.
  destruct (Z.eq_dec packetType adminPacketServerWELCOME) as [->|Hne].
  - change (handlePacket adminPacketServerWELCOME packetData)
      with (decodeWelcome packetData ;;; M.ret Next).
    apply keeps_bind; [apply decodeWelcome_keeps_registrations | intros _; apply keeps_ret].
  - apply handlePacket_keeps; [reflexivity | exact Hne].
Qed.

Lemma processChunk_keeps {X} (proj : OpenTTDServer -> X) (fuel : nat) :
  (forall ty data, keeps proj (handlePacket ty data)) ->
  forall chunk, keeps proj (processChunk fuel chunk).
Proof.
  intros Hh. induction fuel as [|fuel IH]; intros chunk.
  - apply keeps_lift.
  - cbn [processChunk].
    destruct (len chunk <? 2); [apply keeps_ret|].
    apply keeps_bind; [apply keeps_lift | intros header].
    apply keeps_bind; [apply keeps_lift | intros packetSize].
    destruct (packetSize >? uint16 (len chunk)); [apply keeps_ret|].
    apply keeps_bind; [apply keeps_lift | intros typeByte].
    apply keeps_bind; [apply keeps_lift | intros packetData].
    apply keeps_bind; [apply keeps_emit | intros _].
    apply keeps_bind; [apply Hh | intros c].
    destruct c; [|apply keeps_ret].
    apply keeps_bind; [apply keeps_lift | intros chunk']. apply IH.
Qed.

Lemma socketLoop_keeps {X} (proj : OpenTTDServer -> X) (reads : list read_result) :
  (forall c s, proj (set_connection c s) = proj s) ->
  (forall ty data, keeps proj (handlePacket ty data)) ->
  forall chunk, keeps proj (socketLoop reads chunk).
Proof.
  intros Hconn Hh. induction reads as [|[data | err] reads IH]; intros chunk.
  - apply keeps_ret.
  - cbn [socketLoop].
    apply keeps_bind; [apply processChunk_keeps, Hh | intros d].
    destruct d; [apply IH | apply keeps_ret].
  - cbn [socketLoop]. apply keeps_bind; [|intros _; apply keeps_ret].
    destruct err as [inner | msg]; unfold onReadError.
    + destruct (inner =? "read: connection reset by peer")%string;
        [|apply keeps_ret].
      repeat keeps_step. apply keeps_modify. intros s. apply Hconn.
    + repeat keeps_step. apply keeps_modify. intros s. apply Hconn.
Qed.

Lemma Connect_from_keeps {X} (proj : OpenTTDServer -> X)
    (password botName botVersion : string) (script : list attempt) :
  (forall c s, proj (set_connection c s) = proj s) ->
  (forall ty data, keeps proj (handlePacket ty data)) ->
  forall k, keeps proj (Connect_from k password botName botVersion script).
Proof.
  intros Hconn Hh. induction script as [|[|reads] script IH]; intros k.
  - apply keeps_ret.
  - cbn [Connect_from]. repeat (apply keeps_bind; [apply keeps_emit | intros _]).
    apply IH.
  - cbn [Connect_from].
    repeat (apply keeps_bind; [apply keeps_emit | intros _]).
    apply keeps_bind; [apply keeps_modify; intros s; apply Hconn | intros _].
    apply keeps_bind; [apply keeps_emit | intros _].
    apply keeps_bind.
    { unfold handshake, sendSocket.
      apply keeps_bind; [apply keeps_connWrite | intros _; apply keeps_connWrite]. }
    intros _.
    apply keeps_bind.
    { apply keeps_listen. unfold listenSocket. apply socketLoop_keeps; assumption. }
    intros [r heard]. destruct r; [|apply keeps_ret].
    destruct (existsb is_disconnected heard); [|apply keeps_ret].
    repeat (apply keeps_bind; [apply keeps_emit | intros _]).
    apply IH.
Qed.

(** X4. The command lists are read-only once [Connect] runs: whatever
    the dials and the bytes received, and whether the run ends in a wait,
    a return or a panic, the three lists of the server object are the ones
    it started with. *)
Theorem Connect_keeps_registrations (password botName botVersion : string)
    (script : list attempt) (s : OpenTTDServer) :
  registrations (server_of (Connect password botName botVersion script s))
  = registrations s.
Proof.
  apply (Connect_from_keeps registrations password botName botVersion script);
    [reflexivity | apply handlePacket_keeps_registrations].
Qed.

(** X5. Only the Welcome branch writes the cached server attributes: a
    packet of any other type, whatever its payload and whatever the
    outcome of its decoding, leaves server name, version, dedicated flag,
    map name, seed, landscape, width and height as they were. *)
Theorem only_welcome_sets_cached (packetType : Z) (packetData : list byte)
    (s : OpenTTDServer) :
  packetType <> adminPacketServerWELCOME ->
  cached (server_of (handlePacket packetType packetData s)) = cached s.
Proof.
  intros Hty. apply (handlePacket_keeps cached); [reflexivity | exact Hty].
Qed.

Lemma only_welcome_sets_cached_witness :
  adminPacketServerCHAT <> adminPacketServerWELCOME
  /\ cached (server_of (handlePacket adminPacketServerCHAT [x01] example_server))
     = cached example_server.
Proof.
  assert (H : adminPacketServerCHAT <> adminPacketServerWELCOME) by discriminate.
  split; [exact H|].
  exact (only_welcome_sets_cached adminPacketServerCHAT [x01] example_server H).
Defined.

(* ================================================================= *)
(** ** Shutdown, loopback of outgoing packets, edge cases of the framer *)

(** X6. A Shutdown packet at the head of the buffer ends the reader: it
    logs, clears [connection], sends once on [disconnected] and returns;
    bytes that follow the packet in the buffer and reads that would follow
    are never looked at. *)
Theorem shutdown_packet_disconnects (buf d data rest : list byte)
    (more : list read_result) (s : OpenTTDServer) :
  buf ++ d = framed_packet (to_byte adminPacketServerSHUTDOWN) data ++ rest ->
  len (buf ++ d) < 65536 ->
  socketLoop (ReadData d :: more) buf s
  = (Ok Returned, set_connection None s,
     [EvFramed adminPacketServerSHUTDOWN data; EvLog LogShutdown; EvDisconnected]).
Proof.
  intros Hbuf Hlen. cbn [socketLoop]. rewrite Hbuf in *.
  rewrite (bind_cong_l _ _ _ s (processChunk_packet _ _ data rest s Hlen)).
  reflexivity.
Qed.

Lemma shutdown_packet_disconnects_witness :
  [x03] ++ [x00; x6a; x03; x00; x67]
  = framed_packet (to_byte adminPacketServerSHUTDOWN) [] ++ [x03; x00; x67]
  /\ len ([x03] ++ [x00; x6a; x03; x00; x67]) < 65536
  /\ socketLoop [ReadData [x00; x6a; x03; x00; x67]; ReadData [x03; x00; x67]]
       [x03] connectedServer
     = (Ok Returned, set_connection None connectedServer,
        [EvFramed adminPacketServerSHUTDOWN []; EvLog LogShutdown; EvDisconnected]).
Proof.
  assert (H1 : [x03] ++ [x00; x6a; x03; x00; x67]
               = framed_packet (to_byte adminPacketServerSHUTDOWN) [] ++ [x03; x00; x67])
    by reflexivity.
  assert (H2 : len ([x03] ++ [x00; x6a; x03; x00; x67]) < 65536) by reflexivity.
  split; [exact H1 | split; [exact H2|]].
  exact (shutdown_packet_disconnects [x03] [x00; x6a; x03; x00; x67] []
           [x03; x00; x67] [ReadData [x03; x00; x67]] connectedServer H1 H2).
Defined.

Lemma declared_length_sendSocket (protocol : Z) (data : list byte) :
  declared_length (sendSocket_bytes protocol data) = Ok ((len data + 3) mod 65536).
Proof.
  unfold sendSocket_bytes, uint16.
  pose proof (Z.mod_pos_bound (len data + 3) 65536 ltac:(lia)) as Hm.
  change (declared_length (PutUint16 ?v ++ ?l)) with (@Ok Z (le_value (PutUint16 v))).
  rewrite le_value_PutUint16 by exact Hm. reflexivity.
Qed.

(** X7. The length prefix written by [sendSocket] is [len(data) + 3]
    reduced modulo 65536, in front of [len(data) + 3] bytes: while the
    message fits a 16-bit length the bytes are exactly the wire format of
    type and payload; a payload of 65533 bytes or more goes out under a
    wrapped length. *)
Theorem sendSocket_length_prefix (protocol : Z) (data : list byte) :
  declared_length (sendSocket_bytes protocol data) = Ok ((len data + 3) mod 65536)
  /\ len (sendSocket_bytes protocol data) = len data + 3
  /\ (len data + 3 < 65536 ->
      sendSocket_bytes protocol data = framed_packet (to_byte protocol) data).
Proof.
  split; [apply declared_length_sendSocket|].
  split; [|apply sendSocket_bytes_framed].
  unfold sendSocket_bytes, PutUint16. rewrite !len_app, !len_cons, len_nil. lia.
Qed.

Lemma sendSocket_length_prefix_witness :
  len [x61; x00] + 3 < 65536
  /\ sendSocket_bytes adminPacketAdminRCON [x61; x00]
     = framed_packet (to_byte adminPacketAdminRCON) [x61; x00].
Proof.
  assert (H : len [x61; x00] + 3 < 65536) by reflexivity.
  split; [exact H|].
  exact (proj2 (proj2 (sendSocket_length_prefix adminPacketAdminRCON [x61; x00])) H).
Defined.

(** X8. Loopback: the bytes that [sendSocket] writes for a type below 103
    and a payload that fits a 16-bit length, fed to the reader in any
    pieces, are framed as exactly one packet with that type and that
    payload (which the reader logs as unknown); the buffer is empty
    afterwards. *)
Theorem sendSocket_read_back (protocol : Z) (data : list byte)
    (reads : list (list byte)) (s : OpenTTDServer) :
  0 <= protocol < 103 ->
  len data + 3 < 65536 ->
  List.concat reads = sendSocket_bytes protocol data ->
  listenSocket (map ReadData reads) s
  = (Ok (AwaitingData []), s, [EvFramed protocol data; EvLog (LogUnknown data)]).
Proof.
  intros Hp Hlen Hreads.
  rewrite sendSocket_bytes_framed in Hreads by exact Hlen.
  rewrite (listenSocket_frames_stream [(to_byte protocol, data)] reads s).
  - cbn [deliver]. rewrite byte_val_to_byte, Z.mod_small by lia.
    rewrite bind_assoc, bind_emit, bind_assoc.
    assert (Hh : handlePacket protocol data s
                 = (Ok Next, s, [EvLog (LogUnknown data)])).
    { unfold handlePacket.
      repeat match goal with
             | |- context [?a =? ?b] =>
                 replace (a =? b) with false by (symmetry; apply Z.eqb_neq; cbv; lia)
             end.
      reflexivity. }
    rewrite (bind_run_ok _ _ _ _ _ _ Hh). reflexivity.
  - cbn [encode_stream map List.concat fst snd]. rewrite app_nil_r. exact Hreads.
  - cbn [encode_stream map List.concat fst snd]. rewrite app_nil_r, len_framed_packet. lia.
Qed.

Lemma sendSocket_read_back_witness :
  0 <= adminPacketAdminRCON < 103
  /\ len [x61; x00] + 3 < 65536
  /\ List.concat [[x05]; [x00; x05; x61]; [x00]]
     = sendSocket_bytes adminPacketAdminRCON [x61; x00]
  /\ listenSocket (map ReadData [[x05]; [x00; x05; x61]; [x00]]) connectedServer
     = (Ok (AwaitingData []), connectedServer,
        [EvFramed adminPacketAdminRCON [x61; x00]; EvLog (LogUnknown [x61; x00])]).
Proof.
  assert (H1 : 0 <= adminPacketAdminRCON < 103) by (cbv; split; congruence).
  assert (H2 : len [x61; x00] + 3 < 65536) by reflexivity.
  assert (H3 : List.concat [[x05]; [x00; x05; x61]; [x00]]
               = sendSocket_bytes adminPacketAdminRCON [x61; x00]) by reflexivity.
  split; [exact H1 | split; [exact H2 | split; [exact H3|]]].
  exact (sendSocket_read_back adminPacketAdminRCON [x61; x00]
           [[x05]; [x00; x05; x61]; [x00]] connectedServer H1 H2 H3).
Defined.

(** X9. The framer waits whenever the length declared at the head of the
    buffer exceeds [len(chunk)] reduced modulo 65536: for a packet that is
    not yet complete, and also for a complete packet once the buffer holds
    65536 bytes or more.  Nothing is framed and the buffer is kept as it
    is. *)
Theorem framer_waits_on_truncated_length (fuel : nat) (chunk : list byte)
    (v : Z) (s : OpenTTDServer) :
  2 <= len chunk ->
  declared_length chunk = Ok v ->
  uint16 (len chunk) < v ->
  processChunk (S fuel) chunk s = (Ok (NeedData chunk), s, []).
Proof.
  intros Hlen Hdecl Hv. cbn [processChunk].
  replace (len chunk <? 2) with false by (symmetry; apply Z.ltb_ge; lia).
  destruct chunk as [|b0 [|b1 rest]];
    [rewrite len_nil in Hlen; lia | rewrite len_cons, len_nil in Hlen; lia |].
  rewrite slice_header, bind_lift_ok.
  change (Uint16 [b0; b1]) with (declared_length (b0 :: b1 :: rest)).
  rewrite Hdecl, bind_lift_ok.
  replace (v >? uint16 (len (b0 :: b1 :: rest))) with true
    by (symmetry; rewrite Z.gtb_ltb; apply Z.ltb_lt; exact Hv).
  reflexivity.
Qed.

Lemma framer_waits_on_truncated_length_witness :
  2 <= len ([x04; x00; x67; x01] ++ repeat x00 (Z.to_nat 65535))
  /\ declared_length ([x04; x00; x67; x01] ++ repeat x00 (Z.to_nat 65535)) = Ok 4
  /\ uint16 (len ([x04; x00; x67; x01] ++ repeat x00 (Z.to_nat 65535))) < 4
  /\ processChunk 1 ([x04; x00; x67; x01] ++ repeat x00 (Z.to_nat 65535)) zeroServer
     = (Ok (NeedData ([x04; x00; x67; x01] ++ repeat x00 (Z.to_nat 65535))),
        zeroServer, []).
Proof.
  assert (Hl : len ([x04; x00; x67; x01] ++ repeat x00 (Z.to_nat 65535)) = 65539)
    by (rewrite len_app, len_repeat; reflexivity).
  assert (H1 : 2 <= len ([x04; x00; x67; x01] ++ repeat x00 (Z.to_nat 65535)))
    by (rewrite Hl; lia).
  assert (H2 : declared_length ([x04; x00; x67; x01] ++ repeat x00 (Z.to_nat 65535))
               = Ok 4) by reflexivity.
  assert (H3 : uint16 (len ([x04; x00; x67; x01] ++ repeat x00 (Z.to_nat 65535))) < 4)
    by (rewrite Hl; reflexivity).
  split; [exact H1 | split; [exact H2 | split; [exact H3|]]].
  exact (framer_waits_on_truncated_length 0 _ 4 zeroServer H1 H2 H3).
Defined.

(* ================================================================= *)
(** ** extractString: contract and start offsets *)

(** X10. With a zero byte at or after the start offset, [extractString]
    returns the bytes from the start offset up to the first zero byte and
    the offset just after that byte, whatever precedes the start offset
    and whatever follows the terminator. *)
Theorem extractString_returns_string_and_next (pre str post : list byte) :
  Forall nonzero str ->
  extractString (pre ++ str ++ x00 :: post) (len pre)
  = Ok (string_of_list_byte str, len pre + len str + 1).
Proof. apply extractString_terminated. Qed.

Lemma extractString_returns_string_and_next_witness :
  Forall nonzero [x41; x42]
  /\ extractString ([x09] ++ [x41; x42] ++ x00 :: [x43]) (len [x09])
     = Ok (string_of_list_byte [x41; x42], len [x09] + len [x41; x42] + 1).
Proof.
  assert (H : Forall nonzero [x41; x42])
    by (repeat constructor; unfold nonzero; discriminate).
  split; [exact H|].
  exact (extractString_returns_string_and_next [x09] [x41; x42] [x43] H).
Defined.

Lemma extractString_unterminated_at_end (pre : list byte) :
  extractString (pre ++ []) (len pre) = Panic "index out of range".
Proof.
  unfold extractString. apply extractString_loop_unterminated; [constructor|].
  rewrite length_app. cbn [List.length]. lia.
Qed.

(** X11. Start offsets outside the slice: a start beyond [len(bytes)]
    is the only case in which [extractString] returns its failure value
    (the empty string and -1); a negative start and a start equal to
    [len(bytes)] panic at the first index. *)
Theorem extractString_start_outside (bytes : list byte) (start : Z) :
  (len bytes < start -> extractString bytes start = Ok (EmptyString, -1))
  /\ (start < 0 -> extractString bytes start = Panic "index out of range")
  /\ (start = len bytes -> extractString bytes start = Panic "index out of range").
Proof.
  split; [|split].
  - intros Hgt. unfold extractString. cbn [extractString_loop].
    replace (start <=? len bytes) with false by (symmetry; apply Z.leb_gt; lia).
    reflexivity.
  - intros Hneg. unfold extractString. cbn [extractString_loop].
    pose proof (len_nonneg bytes).
    replace (start <=? len bytes) with true by (symmetry; apply Z.leb_le; lia).
    unfold index.
    replace (start <? 0) with true by (symmetry; apply Z.ltb_lt; lia).
    reflexivity.
  - intros ->. rewrite <- (app_nil_r bytes) at 1.
    apply extractString_unterminated_at_end.
Qed.

Lemma extractString_start_outside_witness :
  len [x41] < 2 /\ -1 < 0 /\ 1 = len [x41]
  /\ extractString [x41] 2 = Ok (EmptyString, -1)
  /\ extractString [x41] (-1) = Panic "index out of range"
  /\ extractString [x41] 1 = Panic "index out of range".
Proof.
  assert (H1 : len [x41] < 2) by reflexivity.
  assert (H2 : -1 < 0) by reflexivity.
  assert (H3 : 1 = len [x41]) by reflexivity.
  split; [exact H1 | split; [exact H2 | split; [exact H3|]]].
  split; [exact (proj1 (extractString_start_outside [x41] 2) H1)|].
  split; [exact (proj1 (proj2 (extractString_start_outside [x41] (-1))) H2)|].
  exact (proj2 (proj2 (extractString_start_outside [x41] 1)) H3).
Defined.

(** X12. The RCON packet of a command: on a live connection
    [rconCommand] writes exactly one packet of type 5 whose payload is the
    command followed by one zero byte (for a command that fits a 16-bit
    length), and [extractString] reads a command without zero byte back
    from that payload, with the offset just after the terminator. *)
Theorem rconCommand_packet (command : string) (s : OpenTTDServer) (k : nat) :
  connection s = Some k ->
  len (list_byte_of_string command) + 4 < 65536 ->
  Forall nonzero (list_byte_of_string command) ->
  rconCommand command s
  = (Ok tt, s,
     [EvWrite (framed_packet x05 (list_byte_of_string command ++ [x00]))])
  /\ extractString (list_byte_of_string command ++ [x00]) 0
     = Ok (command, len (list_byte_of_string command) + 1).
Proof.
  intros Hconn Hlen Hnz. split.
  - rewrite (rconCommand_run command s k Hconn). unfold rconPacket.
    rewrite sendSocket_bytes_framed by (rewrite len_app, len_cons, len_nil; lia).
    reflexivity.
  - rewrite (extractString_split (list_byte_of_string command ++ [x00]) []
               (list_byte_of_string command) [] 0 eq_refl eq_refl Hnz).
    rewrite string_of_list_byte_of_string. reflexivity.
Qed.

Lemma rconCommand_packet_witness :
  connection connectedServer = Some 0%nat
  /\ len (list_byte_of_string "save g") + 4 < 65536
  /\ Forall nonzero (list_byte_of_string "save g")
  /\ rconCommand "save g" connectedServer
     = (Ok tt, connectedServer,
        [EvWrite (framed_packet x05 (list_byte_of_string "save g" ++ [x00]))]).
Proof.
  assert (H1 : connection connectedServer = Some 0%nat) by reflexivity.
  assert (H2 : len (list_byte_of_string "save g") + 4 < 65536) by reflexivity.
  assert (H3 : Forall nonzero (list_byte_of_string "save g"))
    by (repeat constructor; unfold nonzero; discriminate).
  split; [exact H1 | split; [exact H2 | split; [exact H3|]]].
  exact (proj1 (rconCommand_packet "save g" connectedServer 0 H1 H2 H3)).
Defined.

(** X13. The login message is well framed while its payload has at most
    252 bytes: for such a password, bot name and bot version the bytes
    written are the wire format of type 0 with the three strings, each
    followed by a zero byte, as payload. *)
Theorem join_message_framed (password botName botVersion : string) :
  3 + len (join_payload password botName botVersion) < 256 ->
  join_bytes password botName botVersion
  = framed_packet (to_byte adminPacketAdminJOIN)
      (list_byte_of_string password ++ [x00]
       ++ list_byte_of_string botName ++ [x00]
       ++ list_byte_of_string botVersion ++ [x00]).
Proof. apply join_bytes_framed_short. Qed.

Lemma join_message_framed_witness :
  3 + len (join_payload "abc" "openttd-multitool" "0.02") < 256
  /\ join_bytes "abc" "openttd-multitool" "0.02"
     = framed_packet (to_byte adminPacketAdminJOIN)
         (list_byte_of_string "abc" ++ [x00]
          ++ list_byte_of_string "openttd-multitool" ++ [x00]
          ++ list_byte_of_string "0.02" ++ [x00]).
Proof.
  assert (H : 3 + len (join_payload "abc" "openttd-multitool" "0.02") < 256)
    by reflexivity.
  split; [exact H|].
  exact (join_message_framed "abc" "openttd-multitool" "0.02" H).
Defined.

(* ================================================================= *)
(** ** Read errors *)

(** X17. A read error that is a connection reset by peer, or that is not
    a [*net.OpError] at all, is handled as a disconnect whatever is in the
    buffer: one log line, [connection] cleared, exactly one send on
    [disconnected], and the reader returns without looking at later
    reads. *)
Theorem read_error_disconnects (err : go_error) (chunk : list byte)
    (rest : list read_result) (s : OpenTTDServer) :
  err = OpError "read: connection reset by peer" \/ (exists msg, err = OtherError msg) ->
  exists line,
    socketLoop (ReadError err :: rest) chunk s
    = (Ok Returned, set_connection None s, [EvLog line; EvDisconnected]).
Proof. apply read_error_signalled. Qed.

Lemma read_error_disconnects_witness :
  (OtherError "EOF" = OpError "read: connection reset by peer"
   \/ exists msg, OtherError "EOF" = OtherError msg)
  /\ exists line,
       socketLoop [ReadError (OtherError "EOF"); ReadData [x03; x00; x67]]
         [x03] connectedServer
       = (Ok Returned, set_connection None connectedServer,
          [EvLog line; EvDisconnected]).
Proof.
  assert (H : OtherError "EOF" = OpError "read: connection reset by peer"
              \/ exists msg, OtherError "EOF" = OtherError msg)
    by (right; exists "EOF"%string; reflexivity).
  split; [exact H|].
  exact (read_error_disconnects (OtherError "EOF") [x03]
           [ReadData [x03; x00; x67]] connectedServer H).
Defined.

Lemma Connect_from_dial_error (k : nat) (password botName botVersion : string)
    (rest : list attempt) (s : OpenTTDServer) :
  Connect_from k password botName botVersion (DialError :: rest) s
  = prepend [EvLog LogConnecting; EvDial false; EvLog LogConnectError; EvSleep 2]
      (Connect_from (S k) password botName botVersion rest s).
Proof.
  cbn [Connect_from]. rewrite !bind_emit, !prepend_prepend. reflexivity.
Qed.

(* ================================================================= *)
(** ** processCommand leaves no token behind *)

Section TokenFree.
Variables year month day : string.
Hypothesis year_plain : plain year = true.
Hypothesis year_nonempty : year <> EmptyString.
Hypothesis month_plain : plain month = true.
Hypothesis month_nonempty : month <> EmptyString.
Hypothesis day_plain : plain day = true.
Hypothesis day_nonempty : day <> EmptyString.

Lemma token_free_cons (c : ascii) (x : string) :
  c <> "%"%char -> token_free (String c x) = token_free x.
Proof.
  intros Hc. cbn [token_free]. destruct x as [|t x]; [reflexivity|].
  destruct (Ascii.eqb_spec c "%"); [contradiction|]. reflexivity.
Qed.

Lemma token_free_plain_app (p x : string) :
  plain p = true -> token_free (p ++ x)%string = token_free x.
Proof.
  induction p as [|c p IH]; intros Hp; [reflexivity|].
  cbn [plain] in Hp. apply andb_prop in Hp as [Hc Hp].
  cbn [append]. rewrite token_free_cons.
  - apply IH. exact Hp.
  - intros ->. discriminate Hc.
Qed.

Lemma token_free_percent (x : string) :
  hd_ok x -> token_free (String "%" x) = token_free x.
Proof.
  intros Hx. cbn [token_free]. destruct x as [|t x]; [reflexivity|].
  cbn [hd_ok] in Hx. rewrite Hx. reflexivity.
Qed.

Lemma token_letter_cases (t : ascii) :
  token_letter t = false ->
  (t =? "Y")%char = false /\ (t =? "M")%char = false /\ (t =? "D")%char = false.
Proof.
  unfold token_letter. intros H.
  apply orb_false_elim in H as [H HD]. apply orb_false_elim in H as [HY HM].
  repeat split; assumption.
Qed.

Lemma substitute_hd_ok (s : string) :
  hd_ok s -> hd_ok (substitute year month day s).
Proof.
  intros Hs. destruct s as [|c s]; [exact I|].
  cbn [substitute]. destruct (Ascii.eqb_spec c "%") as [->|Hc]; [|exact Hs].
  destruct s as [|t s]; [reflexivity|].
  destruct (t =? "Y")%char; [apply (hd_ok_plain_app year); assumption|].
  destruct (t =? "M")%char; [apply (hd_ok_plain_app month); assumption|].
  destruct (t =? "D")%char; [apply (hd_ok_plain_app day); assumption|].
  reflexivity.
Qed.

Lemma substitute_token_free_strong (s : string) :
  token_free (substitute year month day s) = true
  /\ (forall c s', s = String c s' ->
        token_free (substitute year month day s') = true).
Proof.
  induction s as [|c s [IH1 IH2]].
  - split; [reflexivity | discriminate].
  - split; [|intros c' s' E; injection E as _ <-; exact IH1].
    cbn [substitute]. destruct (Ascii.eqb_spec c "%") as [->|Hc].
    + destruct s as [|t s]; [reflexivity|].
      specialize (IH2 t s eq_refl).
      destruct (t =? "Y")%char eqn:EY;
        [rewrite token_free_plain_app by assumption; exact IH2|].
      destruct (t =? "M")%char eqn:EM;
        [rewrite token_free_plain_app by assumption; exact IH2|].
      destruct (t =? "D")%char eqn:ED;
        [rewrite token_free_plain_app by assumption; exact IH2|].
      rewrite token_free_percent; [exact IH1|].
      apply substitute_hd_ok. cbn [hd_ok]. unfold token_letter.
      rewrite EY, EM, ED. reflexivity.
    + rewrite token_free_cons by exact Hc. exact IH1.
Qed.

Lemma substitute_fixes_token_free (s : string) :
  token_free s = true -> substitute year month day s = s.
Proof.
  induction s as [|c s IH]; intros Hs; [reflexivity|].
  cbn [substitute]. destruct (Ascii.eqb_spec c "%") as [->|Hc].
  - destruct s as [|t s]; [reflexivity|].
    cbn [token_free] in Hs. rewrite Ascii.eqb_refl in Hs. cbn [andb] in Hs.
    apply andb_prop in Hs as [Ht Hs].
    apply negb_true_iff in Ht.
    destruct (token_letter_cases t Ht) as (EY & EM & ED).
    rewrite EY, EM, ED. rewrite IH; [reflexivity|].
    cbn [token_free]. exact Hs.
  - rewrite token_free_cons in Hs by exact Hc. rewrite IH by exact Hs. reflexivity.
Qed.
End TokenFree.

(** X19. No token survives the substitution: the command that
    [processCommand] returns contains no [%Y], [%M] or [%D], so substituting
    it again, for any date, changes nothing; and a template without tokens
    is returned as it is. *)
Theorem processCommand_leaves_no_token (command : string) (dt dt' : date) :
  token_free (processCommand command dt) = true
  /\ processCommand (processCommand command dt) dt' = processCommand command dt
  /\ (token_free command = true -> processCommand command dt = command).
Proof.
  assert (Hfree : token_free (processCommand command dt) = true).
  { rewrite processCommand_one_pass.
    apply substitute_token_free_strong;
      first [apply plain_Sprintf_0d | apply Sprintf_0d_nonempty]. }
  split; [exact Hfree|]. split.
  - rewrite (processCommand_one_pass (processCommand command dt) dt').
    apply substitute_fixes_token_free. exact Hfree.
  - intros Hc. rewrite processCommand_one_pass.
    apply substitute_fixes_token_free. exact Hc.
Qed.

Lemma processCommand_leaves_no_token_witness :
  token_free "say hello 100%" = true
  /\ processCommand "say hello 100%" (mkDate 2020 11 5) = "say hello 100%"%string.
Proof.
  assert (H : token_free "say hello 100%" = true) by reflexivity.
  split; [exact H|].
  exact (proj2 (proj2 (processCommand_leaves_no_token "say hello 100%"
                         (mkDate 2020 11 5) (mkDate 2020 11 5))) H).
Defined.

(* ================================================================= *)
(** ** main *)

Lemma registerEach_daily (values : list string) :
  forall s, registerEach "daily" values s
            = Ok (set_rconDaily (rconDaily s ++ values) s).
Proof.
  induction values as [|v values IH]; intros s.
  - cbn [registerEach]. rewrite app_nil_r. destruct s; reflexivity.
  - cbn [registerEach]. rewrite RegisterDateChange_daily. cbn [R.bind].
    rewrite IH. unfold set_rconDaily. cbn. rewrite <- app_assoc. reflexivity.
Qed.

Lemma registerEach_monthly (values : list string) :
  forall s, registerEach "monthly" values s
            = Ok (set_rconMonthly (rconMonthly s ++ values) s).
Proof.
  induction values as [|v values IH]; intros s.
  - cbn [registerEach]. rewrite app_nil_r. destruct s; reflexivity.
  - cbn [registerEach]. rewrite RegisterDateChange_monthly. cbn [R.bind].
    rewrite IH. unfold set_rconMonthly. cbn. rewrite <- app_assoc. reflexivity.
Qed.

Lemma registerEach_yearly (values : list string) :
  forall s, registerEach "yearly" values s
            = Ok (set_rconYearly (rconYearly s ++ values) s).
Proof.
  induction values as [|v values IH]; intros s.
  - cbn [registerEach]. rewrite app_nil_r. destruct s; reflexivity.
  - cbn [registerEach]. rewrite RegisterDateChange_yearly. cbn [R.bind].
    rewrite IH. unfold set_rconYearly. cbn. rewrite <- app_assoc. reflexivity.
Qed.

(** X20. [main] with an empty password exits with status 1 before any
    registration or dial.  With a non-empty password its registrations
    never panic, whatever the flag values: it enters [Connect] as
    "openttd-multitool" version "0.02" with a server object whose three
    command lists are the daily, monthly and yearly flag values in the
    order given, and whose other fields are zero. *)
Theorem main_registers_then_connects (password : string)
    (daily monthly yearly : list string) (script : list attempt) :
  (password = EmptyString ->
     main password daily monthly yearly script
     = ExitStatus 1 "ERROR: You must supply a password")
  /\ (password <> EmptyString ->
        main password daily monthly yearly script
        = Connecting
            (Connect password "openttd-multitool" "0.02" script
               (mkServer None "" "" false "" 0 x00 0 0 daily monthly yearly))).
Proof.
  split.
  - intros ->. reflexivity.
  - intros Hpw. unfold main.
    destruct (String.eqb_spec password ""); [contradiction|].
    rewrite registerEach_daily. cbn [R.bind].
    rewrite registerEach_monthly. cbn [R.bind].
    rewrite registerEach_yearly. reflexivity.
Qed.

Lemma main_registers_then_connects_witness :
  "abc"%string <> EmptyString
  /\ main "" ["say hi"%string] [] [] [Dialed []]
     = ExitStatus 1 "ERROR: You must supply a password"
  /\ main "abc" ["say hi"%string] ["save m"%string] [] [Dialed []]
     = Connecting
         (Connect "abc" "openttd-multitool" "0.02" [Dialed []]
            (mkServer None "" "" false "" 0 x00 0 0
               ["say hi"%string] ["save m"%string] [])).
Proof.
  assert (H : "abc"%string <> EmptyString) by discriminate.
  split; [exact H|]. split.
  - exact (proj1 (main_registers_then_connects "" ["say hi"%string] [] [] [Dialed []])
             eq_refl).
  - exact (proj2 (main_registers_then_connects "abc" ["say hi"%string]
                    ["save m"%string] [] [Dialed []]) H).
Defined.

(* ================================================================= *)
(** ** The earlier extractString *)

Lemma Legacy_extractString_loop (fuel : nat) :
  forall (bytes acc : list byte) (i : Z),
    LegacyDecode.extractString_loop fuel bytes acc i
    = R.bind (extractString_loop fuel bytes acc i) (fun p => Ok (fst p)).
Proof.
  induction fuel as [|fuel IH]; intros bytes acc i; [reflexivity|].
  cbn [LegacyDecode.extractString_loop extractString_loop].
  destruct (i <=? len bytes); [|reflexivity].
  destruct (index bytes i) as [b| | |]; cbn [R.bind]; try reflexivity.
  destruct (Byte.eqb b x00); [reflexivity | apply IH].
Qed.

(** X21. The one-result [extractString] of the earlier file and the
    two-result [extractString] of the current one agree from offset 0:
    the same string when a zero byte is found, the same panic when none
    is. *)
Theorem Legacy_extractString_agrees (bytes : list byte) :
  LegacyDecode.extractString bytes
  = R.bind (extractString bytes 0) (fun p => Ok (fst p)).
Proof. apply Legacy_extractString_loop. Qed.

(* ================================================================= *)
(** ** Instances of the decoding theorems *)

Lemma handlePacket_welcome_witness :
  Forall nonzero [x73; x72; x76] /\ Forall nonzero [x31; x2e; x30]
  /\ Forall nonzero [x6d; x61; x70]
  /\ 0 <= 1 < 4294967296 /\ 0 <= 256 < 65536 /\ 0 <= 512 < 65536
  /\ server_of (handlePacket adminPacketServerWELCOME
                  (welcome_bytes [x73; x72; x76] [x31; x2e; x30] x01
                     [x6d; x61; x70] 1 x00 0 256 512 ++ []) zeroServer)
     = mkServer None "srv" "1.0" true "map" 1 x00 256 512 [] [] [].
Proof.
  assert (H1 : Forall nonzero [x73; x72; x76])
    by (repeat constructor; unfold nonzero; discriminate).
  assert (H2 : Forall nonzero [x31; x2e; x30])
    by (repeat constructor; unfold nonzero; discriminate).
  assert (H3 : Forall nonzero [x6d; x61; x70])
    by (repeat constructor; unfold nonzero; discriminate).
  assert (H4 : 0 <= 1 < 4294967296) by lia.
  assert (H5 : 0 <= 256 < 65536) by lia.
  assert (H6 : 0 <= 512 < 65536) by lia.
  repeat (split; [assumption|]).
  exact (proj2 (handlePacket_welcome [x73; x72; x76] [x31; x2e; x30] x01
                  [x6d; x61; x70] 1 x00 0 256 512 [] zeroServer
                  H1 H2 H3 H4 H5 H6)).
Defined.

Lemma handlePacket_date_witness :
  0 <= 738099 < 4294967296
  /\ connection (set_connection (Some 0%nat) example_server) = Some 0%nat
  /\ handlePacket adminPacketServerDATE (le_bytes 4 738099 ++ [])
       (set_connection (Some 0%nat) example_server)
     = (Ok Next, set_connection (Some 0%nat) example_server,
        [EvWrite (rconPacket "say day 05"); EvWrite (rconPacket "say hello")]).
Proof.
  assert (H1 : 0 <= 738099 < 4294967296) by lia.
  assert (H2 : connection (set_connection (Some 0%nat) example_server) = Some 0%nat)
    by reflexivity.
  split; [exact H1 | split; [exact H2|]].
  exact (handlePacket_date 738099 [] (set_connection (Some 0%nat) example_server)
           0 H1 H2).
Defined.

Lemma handlePacket_chat_rcon_witness :
  Forall nonzero [x68; x69] /\ Forall nonzero [x6f; x6b]
  /\ 0 <= 7 < 4294967296 /\ 0 <= 0 < 18446744073709551616 /\ 0 <= 2 < 65536
  /\ handlePacket adminPacketServerCHAT (chat_bytes x03 xff 7 [x68; x69] 0) zeroServer
     = (Ok Next, zeroServer, [EvLog (LogChat 3 (-1) 7 "hi" 0)])
  /\ handlePacket adminPacketServerRCON (le_bytes 2 2 ++ [x6f; x6b] ++ x00 :: [])
       zeroServer
     = (Ok Next, zeroServer, [EvLog (LogRcon 2 "ok")])
  /\ handlePacket adminPacketServerRCON_END ([x6f; x6b] ++ x00 :: []) zeroServer
     = (Ok Next, zeroServer, [EvLog (LogRconEnd "ok")]).
Proof.
  assert (H1 : Forall nonzero [x68; x69])
    by (repeat constructor; unfold nonzero; discriminate).
  assert (H2 : Forall nonzero [x6f; x6b])
    by (repeat constructor; unfold nonzero; discriminate).
  assert (H3 : 0 <= 7 < 4294967296) by lia.
  assert (H4 : 0 <= 0 < 18446744073709551616) by lia.
  assert (H5 : 0 <= 2 < 65536) by lia.
  repeat (split; [assumption|]).
  exact (handlePacket_chat_rcon x03 xff 7 [x68; x69] 0 2 [x6f; x6b] [] zeroServer
           H1 H2 H3 H4 H5).
Defined.

(* ================================================================= *)
(** ** The reader with capacity does what the reader within length does *)

Lemma firstn_skipn_app_within {A} (s beyond : list A) (lo hi : Z) :
  0 <= lo -> lo <= hi -> hi <= len s ->
  firstn (Z.to_nat (hi - lo)) (skipn (Z.to_nat lo) (s ++ beyond))
  = firstn (Z.to_nat (hi - lo)) (skipn (Z.to_nat lo) s).
Proof.
  intros Hlo Hhi Hlen. unfold len in Hlen.
  rewrite skipn_app, firstn_app, length_skipn.
  replace (Z.to_nat (hi - lo) - (List.length s - Z.to_nat lo))%nat with 0%nat by lia.
  rewrite firstn_O, app_nil_r. reflexivity.
Qed.

Lemma Cap_slice_within {A} (s beyond : list A) (lo hi : Z) :
  is_beyond (slice s lo hi) = false -> Cap.slice s beyond lo hi = slice s lo hi.
Proof.
  unfold slice, Cap.slice.
  destruct (Z.ltb_spec lo 0); cbn [orb]; [reflexivity|].
  destruct (Z.ltb_spec hi lo); [reflexivity|].
  destruct (Z.ltb_spec (len s) hi); [discriminate|]. intros _.
  pose proof (len_nonneg beyond).
  destruct (Z.ltb_spec (len s + len beyond) hi); [lia|].
  rewrite firstn_skipn_app_within by lia. reflexivity.
Qed.

Lemma follows_refl {A} (m : M A) : follows m m.
Proof. intros s _. reflexivity. Qed.

Lemma follows_bind {A B} (m m' : M A) (k k' : A -> M B) :
  follows m m' -> (forall a, follows (k a) (k' a)) ->
  follows (M.bind m k) (M.bind m' k').
Proof.
  intros Hm Hk s. specialize (Hm s). unfold followed_by, outcome in *. unfold M.bind.
  destruct (m s) as [[[a| | |] s1] e1] eqn:E; cbn [fst] in *.
  - rewrite (Hm eq_refl). specialize (Hk a s1). unfold followed_by, outcome in Hk.
    destruct (k a s1) as [[r s2] e2] eqn:Ek. cbn [fst] in *.
    intros Hr. rewrite (Hk Hr). reflexivity.
  - rewrite (Hm eq_refl). reflexivity.
  - discriminate.
  - rewrite (Hm eq_refl). reflexivity.
Qed.

Lemma follows_lift_slice (s beyond : list byte) (lo hi : Z) :
  follows (M.lift (slice s lo hi)) (M.lift (Cap.slice s beyond lo hi)).
Proof.
  intros srv Hr. unfold M.lift, outcome in *. cbn [fst] in Hr.
  rewrite Cap_slice_within by exact Hr. reflexivity.
Qed.

Ltac follows_step :=
  first
    [ apply follows_lift_slice
    | apply follows_bind; [|intros ?]
    | apply follows_refl
    | match goal with
      | |- follows (match ?x with pair _ _ => _ end) _ => destruct x
      | |- follows (if ?c then _ else _) _ => destruct c
      end ].

Lemma handlePacket_follows (beyond : list byte) (packetType : Z)
    (packetData : list byte) :
  follows (handlePacket packetType packetData)
    (Cap.handlePacket beyond packetType packetData).
Proof.
  unfold handlePacket, Cap.handlePacket.
  repeat match goal with
         | |- follows (if ?c then _ else _) _ => destruct c
         end;
    try apply follows_refl.
  - unfold decodeWelcome, Cap.decodeWelcome. repeat follows_step.
  - unfold decodeDate, Cap.decodeDate. repeat follows_step.
  - unfold decodeChat, Cap.decodeChat. repeat follows_step.
  - unfold decodeRcon, Cap.decodeRcon. repeat follows_step.
Qed.

Lemma processChunk_follows (spare : Z) (fuel : nat) :
  forall chunk, follows (processChunk fuel chunk) (Cap.processChunk spare fuel chunk).
Proof.
  induction fuel as [|fuel IH]; intros chunk; [apply follows_refl|].
  cbn [processChunk Cap.processChunk].
  destruct (len chunk <? 2); [apply follows_refl|].
  apply follows_bind; [apply follows_lift_slice | intros header].
  apply follows_bind; [apply follows_refl | intros packetSize].
  destruct (packetSize >? uint16 (len chunk)); [apply follows_refl|].
  apply follows_bind; [apply follows_refl | intros typeByte].
  apply follows_bind; [apply follows_lift_slice | intros packetData].
  apply follows_bind; [apply follows_refl | intros _].
  apply follows_bind; [apply handlePacket_follows | intros c].
  destruct c; [|apply follows_refl].
  apply follows_bind; [apply follows_refl | intros chunk']. apply IH.
Qed.

Lemma map_run_bind {A B C} (f : B -> C) (m : M A) (k : A -> M B) (s : OpenTTDServer) :
  map_run f (M.bind m k s) = M.bind m (fun a s' => map_run f (k a s')) s.
Proof.
  unfold M.bind, map_run, outcome, server_of, trace.
  destruct (m s) as [[[a| | |] s1] e1]; cbn [fst snd]; try reflexivity.
  destruct (k a s1) as [[r s2] e2]. reflexivity.
Qed.

(** Whatever [append] allocates, the reader with capacity goes through
    the run of the reader within length, for as long as that one is not
    cut. *)
Lemma socketLoop_follows (growslice : Z -> Z -> Z) (reads : list read_result) :
  forall (chunk : list byte) (spare : Z) (s : OpenTTDServer),
    followed_by (socketLoop reads chunk s)
      (map_run reader_exit_of (Cap.socketLoop growslice reads chunk spare s)).
Proof.
  induction reads as [|[data | err] reads IH]; intros chunk spare s.
  - intros _. reflexivity.
  - cbn [socketLoop Cap.socketLoop]. rewrite map_run_bind.
    apply (follows_bind _ _ _ (fun a s' => map_run reader_exit_of _));
      [apply processChunk_follows | intros d].
    destruct d; [intros s'; apply IH | intros s' _; reflexivity].
  - cbn [socketLoop Cap.socketLoop]. rewrite map_run_bind.
    apply (follows_bind _ _ _ (fun a s' => map_run reader_exit_of _));
      [apply follows_refl | intros _ s' _; reflexivity].
Qed.

Lemma listenSocket_follows (growslice : Z -> Z -> Z) (reads : list read_result)
    (s : OpenTTDServer) :
  followed_by (listenSocket reads s)
    (map_run reader_exit_of (Cap.listenSocket growslice reads s)).
Proof. apply socketLoop_follows. Qed.

(* ================================================================= *)
(** ** Every run of the reader with capacity ends as the code ends *)

Lemma of_code_ok {A} (a : A) : of_code (Ok a).
Proof. left. reflexivity. Qed.

Lemma of_code_panic {A} (msg : string) : of_code (@Panic A msg).
Proof. right. reflexivity. Qed.

Lemma index_of_code {A} (s : list A) (i : Z) : of_code (index s i).
Proof.
  unfold index. destruct ((i <? 0) || (len s <=? i)); [apply of_code_panic|].
  destruct (nth_error s (Z.to_nat i)); [apply of_code_ok | apply of_code_panic].
Qed.

Lemma Cap_slice_of_code {A} (s beyond : list A) (lo hi : Z) :
  of_code (Cap.slice s beyond lo hi).
Proof.
  unfold Cap.slice. destruct ((lo <? 0) || (hi <? lo)); [apply of_code_panic|].
  destruct (len s + len beyond <? hi); [apply of_code_panic | apply of_code_ok].
Qed.

Lemma slice_from_of_code {A} (s : list A) (lo : Z) : of_code (slice_from s lo).
Proof.
  unfold slice_from.
  destruct ((lo <? 0) || (len s <? lo)); [apply of_code_panic | apply of_code_ok].
Qed.

Lemma Uint16_of_code (b : list byte) : of_code (Uint16 b).
Proof. destruct b as [|? [|? ?]]; first [apply of_code_ok | apply of_code_panic]. Qed.

Lemma Uint32_of_code (b : list byte) : of_code (Uint32 b).
Proof.
  destruct b as [|? [|? [|? [|? ?]]]]; first [apply of_code_ok | apply of_code_panic].
Qed.

Lemma Uint64_of_code (b : list byte) : of_code (Uint64 b).
Proof.
  destruct b as [|? [|? [|? [|? [|? [|? [|? [|? ?]]]]]]]];
    first [apply of_code_ok | apply of_code_panic].
Qed.

Lemma extractString_loop_of_code (fuel : nat) :
  forall (bytes acc : list byte) (i : Z),
    (1 <= fuel)%nat ->
    len bytes - i + 2 <= Z.of_nat fuel \/ i < 0 ->
    of_code (extractString_loop fuel bytes acc i).
Proof.
  induction fuel as [|fuel IH]; intros bytes acc i Hpos Hfuel; [lia|].
  cbn [extractString_loop].
  destruct (Z.leb_spec i (len bytes)) as [Hle | Hgt]; [|apply of_code_ok].
  unfold index.
  destruct (Z.ltb_spec i 0) as [Hneg | Hnn]; cbn [orb R.bind]; [apply of_code_panic|].
  destruct (Z.leb_spec (len bytes) i) as [Hend | Hin]; cbn [R.bind];
    [apply of_code_panic|].
  destruct (nth_error bytes (Z.to_nat i)) as [b|]; cbn [R.bind]; [|apply of_code_panic].
  destruct (Byte.eqb b x00); [apply of_code_ok|].
  apply IH; lia.
Qed.

Lemma extractString_of_code (bytes : list byte) (start : Z) :
  of_code (extractString bytes start).
Proof.
  unfold extractString. apply extractString_loop_of_code; [lia|].
  destruct (Z.ltb_spec start 0); [right; assumption | left].
  unfold len. lia.
Qed.

Lemma ends_bind {A B} (m : M A) (k : A -> M B) (s : OpenTTDServer) :
  ends_as_code (m s) -> (forall a s', ends_as_code (k a s')) ->
  ends_as_code (M.bind m k s).
Proof.
  unfold ends_as_code, of_code, outcome, M.bind. intros Hm Hk.
  destruct (m s) as [[[a| | |] s1] e1]; cbn [fst is_ok is_panic] in *.
  - specialize (Hk a s1). destruct (k a s1) as [[r s2] e2]. exact Hk.
  - right. reflexivity.
  - destruct Hm; discriminate.
  - destruct Hm; discriminate.
Qed.

Lemma ends_lift {A} (r : result A) (s : OpenTTDServer) :
  of_code r -> ends_as_code (M.lift r s).
Proof. intros Hr. exact Hr. Qed.

Lemma ends_ok {A} (a : A) (s : OpenTTDServer) (e : list event) :
  ends_as_code (Ok a, s, e).
Proof. left. reflexivity. Qed.

Ltac ends_step :=
  first
    [ apply ends_bind; [|intros ? ?]
    | apply ends_lift;
      first [ apply extractString_of_code | apply index_of_code
            | apply Cap_slice_of_code | apply slice_from_of_code
            | apply Uint16_of_code | apply Uint32_of_code | apply Uint64_of_code ]
    | apply ends_ok
    | match goal with
      | |- ends_as_code (match ?x with pair _ _ => _ end _) => destruct x
      | |- ends_as_code ((if ?c then _ else _) _) => destruct c
      end ].

Lemma connWrite_ends (data : list byte) (s : OpenTTDServer) :
  ends_as_code (connWrite data s).
Proof.
  unfold connWrite. destruct (connection s); [left | right]; reflexivity.
Qed.

Lemma forEach_ends {A} (l : list A) (body : A -> M unit) :
  (forall a s, ends_as_code (body a s)) ->
  forall s, ends_as_code (Mx.forEach l body s).
Proof.
  intros Hbody. induction l as [|a l IH]; intros s.
  - left. reflexivity.
  - cbn [Mx.forEach]. apply ends_bind; [apply Hbody | intros _ s'; apply IH].
Qed.

Lemma dateChanged_ends (dt : date) (s : OpenTTDServer) :
  ends_as_code (dateChanged dt s).
Proof.
  assert (Hcmd : forall (c : string) s',
             ends_as_code (rconCommand (processCommand c dt) s'))
    by (intros; apply connWrite_ends).
  unfold dateChanged.
  apply ends_bind; [left; reflexivity | intros server s1].
  apply ends_bind; [apply forEach_ends, Hcmd | intros _ s2].
  apply ends_bind.
  - destruct (Day dt =? 1); [apply forEach_ends, Hcmd | left; reflexivity].
  - intros _ s3.
    destruct ((Day dt =? 1) && (Month dt =? 1));
      [apply forEach_ends, Hcmd | left; reflexivity].
Qed.

Lemma Cap_handlePacket_ends (beyond : list byte) (packetType : Z)
    (packetData : list byte) (s : OpenTTDServer) :
  ends_as_code (Cap.handlePacket beyond packetType packetData s).
Proof.
  unfold Cap.handlePacket.
  repeat match goal with
         | |- ends_as_code ((if ?c then _ else _) _) => destruct c
         end.
  - left. reflexivity.
  - unfold Cap.decodeWelcome, M.emit, M.modify, M.get, M.ret. repeat ends_step.
  - unfold decodeShutdown, M.emit, M.modify, M.ret. repeat ends_step.
  - apply ends_bind; [|intros; left; reflexivity]. unfold Cap.decodeDate.
    apply ends_bind; [apply ends_lift, Cap_slice_of_code | intros dateBytes s1].
    apply ends_bind; [apply ends_lift, Uint32_of_code | intros date_ s2].
    apply dateChanged_ends.
  - unfold Cap.decodeChat, M.emit, M.ret. repeat ends_step.
  - unfold Cap.decodeRcon, M.emit, M.ret. repeat ends_step.
  - unfold decodeRconEnd, M.emit, M.ret. repeat ends_step.
  - unfold M.emit, M.ret. repeat ends_step.
Qed.

Lemma Cap_slice_ok_bounds {A} (s beyond data : list A) (lo hi : Z) :
  Cap.slice s beyond lo hi = Ok data -> 0 <= lo <= hi.
Proof.
  unfold Cap.slice.
  destruct (Z.ltb_spec lo 0); cbn [orb]; [discriminate|].
  destruct (Z.ltb_spec hi lo); [discriminate|].
  intros _. lia.
Qed.

(** A turn of the framing loop that goes on has removed at least three
    bytes from the buffer, so [len(chunk) + 1] turns are never used up. *)
Lemma Cap_processChunk_ends (spare : Z) (fuel : nat) :
  forall (chunk : list byte) (s : OpenTTDServer),
    (List.length chunk < fuel)%nat ->
    ends_as_code (Cap.processChunk spare fuel chunk s).
Proof.
  induction fuel as [|fuel IH]; intros chunk s Hfuel; [inversion Hfuel|].
  cbn [Cap.processChunk].
  destruct (Z.ltb_spec (len chunk) 2) as [Hshort | Hlong]; [left; reflexivity|].
  apply ends_bind; [apply ends_lift, Cap_slice_of_code | intros header s1].
  apply ends_bind; [apply ends_lift, Uint16_of_code | intros packetSize s2].
  destruct (packetSize >? uint16 (len chunk)); [left; reflexivity|].
  apply ends_bind; [apply ends_lift, index_of_code | intros typeByte s3].
  destruct (Cap.slice chunk (repeat x00 (Z.to_nat spare)) 3 packetSize)
    as [packetData| | |] eqn:Hslice;
    [| right; reflexivity
     | destruct (Cap_slice_of_code chunk (repeat x00 (Z.to_nat spare)) 3 packetSize)
         as [H | H]; rewrite Hslice in H; discriminate
     | destruct (Cap_slice_of_code chunk (repeat x00 (Z.to_nat spare)) 3 packetSize)
         as [H | H]; rewrite Hslice in H; discriminate ].
  rewrite bind_lift_ok.
  apply Cap_slice_ok_bounds in Hslice.
  apply ends_bind; [left; reflexivity | intros _ s4].
  apply ends_bind; [apply Cap_handlePacket_ends | intros c s5].
  destruct c; [|left; reflexivity].
  unfold slice_from.
  destruct (Z.ltb_spec packetSize 0); cbn [orb]; [right; reflexivity|].
  destruct (Z.ltb_spec (len chunk) packetSize); [right; reflexivity|].
  rewrite bind_lift_ok. apply IH.
  rewrite length_skipn. unfold len in *. lia.
Qed.

Lemma Cap_socketLoop_ends (growslice : Z -> Z -> Z) (reads : list read_result) :
  forall (chunk : list byte) (spare : Z) (s : OpenTTDServer),
    ends_as_code (Cap.socketLoop growslice reads chunk spare s).
Proof.
  induction reads as [|[data | err] reads IH]; intros chunk spare s.
  - left. reflexivity.
  - cbn [Cap.socketLoop].
    apply ends_bind;
      [apply Cap_processChunk_ends; apply Nat.lt_succ_diag_r | intros d s1].
    destruct d; [apply IH | left; reflexivity].
  - cbn [Cap.socketLoop]. apply ends_bind; [|intros; left; reflexivity].
    destruct err as [inner | msg]; unfold onReadError.
    + destruct (inner =? "read: connection reset by peer")%string; left; reflexivity.
    + left. reflexivity.
Qed.

(* ================================================================= *)
(** ** Framing by the reader with capacity *)

Lemma map_run_ok_inv {A B} (f : A -> B) (x : result A * OpenTTDServer * list event)
    (b : B) (s : OpenTTDServer) (e : list event) :
  map_run f x = (Ok b, s, e) -> exists a, x = (Ok a, s, e) /\ f a = b.
Proof.
  destruct x as [[[a| | |] s1] e1]; unfold map_run, outcome, server_of, trace;
    cbn [fst snd]; intros H; try discriminate.
  exists a. split; congruence.
Qed.

Lemma map_run_panic_inv {A B} (f : A -> B) (x : result A * OpenTTDServer * list event)
    (msg : string) (s : OpenTTDServer) (e : list event) :
  map_run f x = (Panic msg, s, e) -> x = (Panic msg, s, e).
Proof.
  destruct x as [[[a| | |] s1] e1]; unfold map_run, outcome, server_of, trace;
    cbn [fst snd]; intros H; try discriminate.
  congruence.
Qed.

Lemma is_beyond_bind_ret {A B} (m : M A) (f : A -> B) (s : OpenTTDServer) :
  is_beyond (outcome (m s)) = false ->
  is_beyond (outcome ((a <- m ;; M.ret (f a)) s)) = false.
Proof.
  unfold M.bind, M.ret, outcome.
  destruct (m s) as [[[a| | |] s1] e1]; cbn [fst]; intros H;
    first [reflexivity | discriminate].
Qed.

Lemma Cap_listenSocket_frames_stream (growslice : Z -> Z -> Z)
    (packets : list (byte * list byte)) (reads : list (list byte))
    (s : OpenTTDServer) :
  List.concat reads = encode_stream packets ->
  len (encode_stream packets) < 65536 ->
  is_beyond (outcome (deliver packets s)) = false ->
  map_run reader_exit_of (Cap.listenSocket growslice (map ReadData reads) s)
  = (c <- deliver packets ;; M.ret (finish c)) s.
Proof.
  intros Hreads Hlen Hwithin.
  rewrite <- (listenSocket_frames_stream packets reads s Hreads Hlen).
  apply listenSocket_follows.
  rewrite (listenSocket_frames_stream packets reads s Hreads Hlen).
  apply is_beyond_bind_ret, Hwithin.
Qed.

(** A payload that holds the bytes its decoder reads at fixed offsets. *)
Lemma within_bind {A B} (m : M A) (k : A -> M B) (s : OpenTTDServer) :
  is_beyond (outcome (m s)) = false ->
  (forall a s', is_beyond (outcome (k a s')) = false) ->
  is_beyond (outcome (M.bind m k s)) = false.
Proof.
  unfold outcome, M.bind. intros Hm Hk.
  destruct (m s) as [[[a| | |] s1] e1]; cbn [fst] in *;
    first [reflexivity | discriminate | idtac].
  specialize (Hk a s1). destruct (k a s1) as [[r s2] e2]. exact Hk.
Qed.

Lemma of_code_within {A} (r : result A) : of_code r -> is_beyond r = false.
Proof. destruct r; intros [H | H]; first [reflexivity | discriminate]. Qed.

Lemma ends_within {A} (x : result A * OpenTTDServer * list event) :
  ends_as_code x -> is_beyond (outcome x) = false.
Proof. apply of_code_within. Qed.

Lemma slice_within {A} (s : list A) (lo hi : Z) :
  hi <= len s -> is_beyond (slice s lo hi) = false.
Proof.
  intros H. unfold slice. destruct ((lo <? 0) || (hi <? lo)); [reflexivity|].
  destruct (Z.ltb_spec (len s) hi); [lia | reflexivity].
Qed.

Ltac within_lift :=
  apply of_code_within;
  first [ apply extractString_of_code | apply index_of_code
        | apply slice_from_of_code
        | apply Uint16_of_code | apply Uint32_of_code | apply Uint64_of_code ].

Ltac within_step :=
  first
    [ apply within_bind; [|intros ? ?]
    | match goal with
      | |- is_beyond (outcome (M.lift (slice _ _ _) _)) = false =>
          apply slice_within; lia
      | |- is_beyond (outcome (M.lift _ _)) = false => within_lift
      | |- is_beyond (outcome (match ?x with pair _ _ => _ end _)) = false => destruct x
      | |- is_beyond (outcome ((if ?c then _ else _) _)) = false => destruct c
      end
    | reflexivity ].

Lemma within_bind_lift {A B} (r : result A) (k : A -> M B) (s : OpenTTDServer) :
  of_code r ->
  (forall a, r = Ok a -> is_beyond (outcome (k a s)) = false) ->
  is_beyond (outcome (M.bind (M.lift r) k s)) = false.
Proof.
  intros Hr Hk. destruct r as [a| | |].
  - rewrite bind_lift_ok. apply Hk. reflexivity.
  - reflexivity.
  - destruct Hr; discriminate.
  - reflexivity.
Qed.

Lemma decodeWelcome_within (data : list byte) (s : OpenTTDServer) :
  welcome_fits data = true ->
  is_beyond (outcome (decodeWelcome data s)) = false.
Proof.
  unfold welcome_fits, decodeWelcome. intros Hfits.
  apply within_bind; [reflexivity | intros _ s1].
  apply within_bind; [reflexivity | intros _ s2].
  apply within_bind_lift; [apply extractString_of_code | intros [name n1] E1].
  rewrite E1 in Hfits.
  apply within_bind; [reflexivity | intros _ s3].
  apply within_bind_lift; [apply extractString_of_code | intros [version n2] E2].
  rewrite E2 in Hfits.
  apply within_bind; [reflexivity | intros _ s4].
  apply within_bind; [within_lift | intros flag s5].
  apply within_bind;
    [destruct (Byte.eqb flag x00); [reflexivity|];
     destruct (Byte.eqb flag x01); reflexivity | intros _ s6].
  apply within_bind_lift; [apply extractString_of_code | intros [mapName n3] E3].
  rewrite E3 in Hfits. apply Z.leb_le in Hfits.
  unfold M.modify, M.get, M.emit. repeat within_step.
Qed.

Lemma handlePacket_within (ty : byte) (data : list byte) (s : OpenTTDServer) :
  long_enough (ty, data) = true ->
  is_beyond (outcome (handlePacket (byte_val ty) data s)) = false.
Proof.
  unfold long_enough, handlePacket. cbn [fst snd].
  unfold adminPacketServerPROTOCOL, adminPacketServerWELCOME,
    adminPacketServerSHUTDOWN, adminPacketServerDATE, adminPacketServerCHAT,
    adminPacketServerRCON, adminPacketServerRCON_END.
  destruct (byte_val ty =? 103); [reflexivity|].
  destruct (byte_val ty =? 104).
  { intros H. apply within_bind; [apply decodeWelcome_within, H | reflexivity]. }
  destruct (byte_val ty =? 106); [reflexivity|].
  destruct (byte_val ty =? 107).
  { intros H. apply Z.leb_le in H.
    apply within_bind; [|reflexivity]. unfold decodeDate.
    apply within_bind; [apply slice_within; lia | intros dateBytes s1].
    apply within_bind; [within_lift | intros date_ s2].
    apply ends_within, dateChanged_ends. }
  destruct (byte_val ty =? 119).
  { intros H. apply Z.leb_le in H.
    unfold decodeChat, M.emit, M.ret. repeat within_step. }
  destruct (byte_val ty =? 120).
  { intros H. apply Z.leb_le in H.
    unfold decodeRcon, M.emit, M.ret. repeat within_step. }
  intros _.
  destruct (byte_val ty =? 125).
  - unfold decodeRconEnd, M.emit, M.ret. repeat within_step.
  - reflexivity.
Qed.

Lemma deliver_within (packets : list (byte * list byte)) :
  forallb long_enough packets = true ->
  forall s, is_beyond (outcome (deliver packets s)) = false.
Proof.
  induction packets as [|[ty data] packets IH]; intros Hall s; [reflexivity|].
  cbn [forallb] in Hall. apply andb_prop in Hall as [Hp Hrest].
  cbn [deliver].
  apply within_bind; [reflexivity | intros _ s1].
  apply within_bind; [apply handlePacket_within, Hp | intros c s2].
  destruct c; [apply IH, Hrest | reflexivity].
Qed.

(* ================================================================= *)
(** ** An undersized length header *)

Lemma processChunk_undersized_panic (fuel : nat) (chunk : list byte)
    (s : OpenTTDServer) (v : Z) :
  2 <= len chunk < 65536 ->
  declared_length chunk = Ok v -> 0 <= v < 3 ->
  processChunk (S fuel) chunk s
  = (Panic (if len chunk =? 2 then "index out of range"
            else "slice bounds out of range"), s, []).
Proof.
  intros Hlen Hdecl Hv.
  destruct chunk as [|b0 [|b1 rest]];
    [rewrite len_nil in Hlen; lia | rewrite len_cons, len_nil in Hlen; lia |].
  assert (Hle : le_value [b0; b1] = v)
    by (change (@Ok Z (le_value [b0; b1]) = Ok v) in Hdecl; congruence).
  clear Hdecl.
  cbn [processChunk].
  replace (len (b0 :: b1 :: rest) <? 2) with false by (symmetry; apply Z.ltb_ge; lia).
  rewrite slice_header. unfold M.bind at 1. unfold M.lift at 1.
  unfold M.bind at 1. unfold M.lift at 1.
  change (Uint16 [b0; b1]) with (@Ok Z (le_value [b0; b1])). rewrite Hle.
  rewrite uint16_small by lia.
  replace (v >? len (b0 :: b1 :: rest)) with false
    by (symmetry; rewrite Z.gtb_ltb; apply Z.ltb_ge; lia).
  destruct rest as [|b2 rest].
  - reflexivity.
  - replace (len (b0 :: b1 :: b2 :: rest) =? 2) with false
      by (symmetry; apply Z.eqb_neq; rewrite !len_cons; pose proof (len_nonneg rest); lia).
    unfold M.bind at 1. unfold M.lift at 1.
    change (index (b0 :: b1 :: b2 :: rest) 2) with (index ([b0; b1] ++ b2 :: rest) (len [b0; b1])).
    rewrite index_app_len.
    unfold M.bind at 1. unfold M.lift at 1. unfold slice.
    replace (v <? 3) with true by (symmetry; apply Z.ltb_lt; lia).
    cbn [orb Z.ltb Z.compare]. reflexivity.
Qed.

Lemma socketLoop_undersized_panic (buf data : list byte)
    (rest : list read_result) (server : OpenTTDServer) :
  2 <= len (buf ++ data) < 65536 ->
  declared_length (buf ++ data) = Ok 0 \/ declared_length (buf ++ data) = Ok 1 ->
  socketLoop (ReadData data :: rest) buf server
  = (Panic (if len (buf ++ data) =? 2 then "index out of range"
            else "slice bounds out of range"), server, []).
Proof.
  intros Hlen Hdecl. cbn [socketLoop].
  assert (Hv : exists v, declared_length (buf ++ data) = Ok v /\ 0 <= v < 3).
  { destruct Hdecl as [H | H]; eexists; (split; [exact H | lia]). }
  destruct Hv as (v & Hd & Hv).
  unfold M.bind.
  rewrite (processChunk_undersized_panic (List.length (buf ++ data)) (buf ++ data)
             server v Hlen Hd Hv).
  reflexivity.
Qed.

(** C5. When the buffer, after a read, holds between 2 and 65535 bytes
    and the length header at its head is 0 or 1, the framing loop does not
    spin, and it does not treat the header as a fault of the connection
    either: its first turn panics, with index out of range at [chunk[2]]
    when the buffer holds just the two bytes, with slice bounds out of
    range at [chunk[3:packetSize]] otherwise, whatever the capacity of the
    buffer.  No packet is framed, nothing is logged, [connection] stays as
    it was and nothing is sent on [disconnected]; the panic is recovered
    nowhere, so the process ends instead of reconnecting. *)
Theorem undersized_header_panics (growslice : Z -> Z -> Z) (buf data : list byte)
    (spare : Z) (rest : list read_result) (server : OpenTTDServer) :
  2 <= len (buf ++ data) < 65536 ->
  declared_length (buf ++ data) = Ok 0 \/ declared_length (buf ++ data) = Ok 1 ->
  Cap.socketLoop growslice (ReadData data :: rest) buf spare server
  = (Panic (if len (buf ++ data) =? 2 then "index out of range"
            else "slice bounds out of range"), server, [])
  /\ socketLoop (ReadData data :: rest) buf server
     = (Panic (if len (buf ++ data) =? 2 then "index out of range"
               else "slice bounds out of range"), server, []).
Proof.
  intros Hlen Hdecl.
  pose proof (socketLoop_undersized_panic buf data rest server Hlen Hdecl) as Hold.
  split; [|exact Hold].
  apply (map_run_panic_inv reader_exit_of).
  rewrite <- Hold. apply socketLoop_follows. rewrite Hold. reflexivity.
Qed.

Lemma undersized_header_panics_witness :
  2 <= len ([x00] ++ [x00; x67]) < 65536
  /\ Cap.socketLoop grow_round8 [ReadData [x00; x67]] [x00] 0 zeroServer
     = (Panic "slice bounds out of range", zeroServer, [])
  /\ Cap.socketLoop grow_exact [ReadData [x01; x00]] [] 0 zeroServer
     = (Panic "index out of range", zeroServer, []).
Proof.
  assert (H : 2 <= len ([x00] ++ [x00; x67]) < 65536) by (vm_compute; split; congruence).
  assert (H' : 2 <= len ([] ++ [x01; x00]) < 65536) by (vm_compute; split; congruence).
  split; [exact H|]. split.
  - exact (proj1 (undersized_header_panics grow_round8 [x00] [x00; x67] 0 []
                    zeroServer H (or_introl eq_refl))).
  - exact (proj1 (undersized_header_panics grow_exact [] [x01; x00] 0 []
                    zeroServer H' (or_intror eq_refl))).
Defined.

(* ================================================================= *)
(** ** Connect with the reader as a goroutine *)

Lemma prepend_nil {A} (x : result A * OpenTTDServer * list event) : prepend [] x = x.
Proof. destruct x as [[r s] e]. reflexivity. Qed.

Lemma prepend_run {A} (e : list event) (r : result A) (s : OpenTTDServer)
    (e' : list event) :
  prepend e (r, s, e') = (r, s, e ++ e').
Proof. reflexivity. Qed.

Lemma firstn_plus {A} (n m : nat) (l : list A) :
  firstn (n + m) l = firstn n l ++ firstn m (skipn n l).
Proof.
  revert l. induction n as [|n IH]; intros l; [reflexivity|].
  destruct l as [|a l]; [cbn; rewrite firstn_nil; reflexivity|].
  cbn [Nat.add firstn skipn app]. rewrite IH. reflexivity.
Qed.

(** The reader taken up after some reads does what it would have done in
    one go. *)
Lemma Cap_socketLoop_app (growslice : Z -> Z -> Z) (a b : list read_result) :
  forall (chunk : list byte) (spare : Z) (s : OpenTTDServer),
    Cap.socketLoop growslice (a ++ b) chunk spare s
    = (r <- Cap.socketLoop growslice a chunk spare ;; Cap.resume growslice b r) s.
Proof.
  induction a as [|[data | err] a IH]; intros chunk spare s.
  - cbn [app Cap.socketLoop]. rewrite bind_ret_l. reflexivity.
  - cbn [app Cap.socketLoop]. rewrite bind_assoc. apply bind_ext. intros d s'.
    destruct d; [apply IH | rewrite bind_ret_l; reflexivity].
  - cbn [app Cap.socketLoop]. rewrite bind_assoc. apply bind_ext. intros _ s'.
    rewrite bind_ret_l. reflexivity.
Qed.

Lemma listen_run_ok {A} (m : M A) (s s1 : OpenTTDServer) (a : A) (e : list event) :
  m s = (Ok a, s1, e) -> Mx.listen m s = (Ok (a, e), s1, e).
Proof. intros H. unfold Mx.listen. rewrite H. reflexivity. Qed.

Lemma connWrite_live (data : list byte) (s : OpenTTDServer) :
  connection s <> None -> connWrite data s = (Ok tt, s, [EvWrite data]).
Proof.
  intros H. unfold connWrite. destruct (connection s); [reflexivity | contradiction].
Qed.

Lemma connWrite_nil (data : list byte) (s : OpenTTDServer) :
  connection s = None -> connWrite data s = (Panic "nil pointer dereference", s, []).
Proof. intros H. unfold connWrite. rewrite H. reflexivity. Qed.

Lemma bind_run_panic {A B} (m : M A) (k : A -> M B) (s s1 : OpenTTDServer)
    (msg : string) (e : list event) :
  m s = (Panic msg, s1, e) -> M.bind m k s = (Panic msg, s1, e).
Proof. intros H. unfold M.bind. rewrite H. reflexivity. Qed.

Lemma registration_bytes :
  sendSocket_bytes adminPacketAdminUPDATE_FREQUENCY
    (updateFrequency_payload adminUpdateDATE adminFrequencyDAILY) = registration.
Proof. reflexivity. Qed.

(** The second part of the reader's run, from what it has done after
    [n] and after [n + m] reads. *)
Lemma reader_after_plus (growslice : Z -> Z -> Z) (k : nat)
    (reads : list read_result) (n m : nat) (s : OpenTTDServer)
    (r1 r2 : Cap.reader_exit) (s1 s2 : OpenTTDServer) (e1 e2 : list event) :
  reader_after growslice k reads n s = (Ok r1, s1, e1) ->
  reader_after growslice k reads (n + m) s = (Ok r2, s2, e1 ++ e2) ->
  Cap.resume growslice (firstn m (skipn n reads)) r1 s1 = (Ok r2, s2, e2).
Proof.
  unfold reader_after, Cap.listenSocket. intros H1 H2.
  rewrite firstn_plus, Cap_socketLoop_app in H2.
  rewrite (bind_run_ok _ _ _ _ _ _ H1) in H2.
  destruct (Cap.resume growslice (firstn m (skipn n reads)) r1 s1) as [[r s'] e].
  unfold prepend, outcome, server_of, trace in H2. cbn [fst snd] in H2.
  injection H2 as -> -> He. apply app_inv_head in He. subst. reflexivity.
Qed.

Lemma reader_after_all (growslice : Z -> Z -> Z) (k : nat)
    (reads : list read_result) (n : nat) (s : OpenTTDServer)
    (r1 r2 : Cap.reader_exit) (s1 s2 : OpenTTDServer) (e1 e2 : list event) :
  reader_after growslice k reads n s = (Ok r1, s1, e1) ->
  Cap.listenSocket growslice reads (set_connection (Some k) s) = (Ok r2, s2, e1 ++ e2) ->
  Cap.resume growslice (skipn n reads) r1 s1 = (Ok r2, s2, e2).
Proof.
  unfold reader_after, Cap.listenSocket. intros H1 H2.
  rewrite <- (firstn_skipn n reads) in H2 at 1.
  rewrite Cap_socketLoop_app in H2.
  rewrite (bind_run_ok _ _ _ _ _ _ H1) in H2.
  destruct (Cap.resume growslice (skipn n reads) r1 s1) as [[r s'] e].
  unfold prepend, outcome, server_of, trace in H2. cbn [fst snd] in H2.
  injection H2 as -> -> He. apply app_inv_head in He. subst. reflexivity.
Qed.

Section Turn.
Variable growslice : Z -> Z -> Z.
Variables (k : nat) (password botName botVersion : string).
Variables (sch : schedule) (reads : list read_result).
Variable rest : list (schedule * attempt).
Variable s : OpenTTDServer.
Hypothesis reader_second : reader_first sch = false.

Variables (r1 : Cap.reader_exit) (s1 : OpenTTDServer) (e1 : list event).
Hypothesis after_join :
  reader_after growslice k reads (before_join sch) s = (Ok r1, s1, e1).

(** The turn up to the [Write] of line 202. *)
Lemma turn_to_join :
  Sched.Connect_from growslice k password botName botVersion
    ((sch, Dialed reads) :: rest) s
  = prepend (dialed ++ [EvConnected] ++ e1)
      ((connWrite (join_bytes password botName botVersion) ;;;
        '(r2, heard2) <- Mx.listen
           (Cap.resume growslice
              (firstn (before_register sch) (skipn (before_join sch) reads)) r1) ;;
        sendSocket adminPacketAdminUPDATE_FREQUENCY
          (updateFrequency_payload adminUpdateDATE adminFrequencyDAILY) ;;;
        '(r3, heard3) <- Mx.listen
           (Cap.resume growslice
              (skipn (before_register sch) (skipn (before_join sch) reads)) r2) ;;
        match r3 with
        | Cap.AwaitingData chunk spare => M.ret (Sched.Serving chunk spare)
        | Cap.Returned =>
            if existsb is_disconnected (e1 ++ heard2 ++ heard3) then
              M.emit (EvLog LogReconnecting) ;;;
              M.emit (EvSleep 2) ;;;
              Sched.Connect_from growslice (S k) password botName botVersion rest
            else M.ret Sched.WaitingForever
        end) s1).
Proof.
  pose proof after_join as Hreader. unfold reader_after in Hreader.
  cbn [Sched.Connect_from]. rewrite reader_second.
  rewrite !bind_emit, bind_modify, bind_emit.
  rewrite (bind_run_ok _ _ _ _ _ _ (listen_run_ok _ _ _ _ _ Hreader)).
  rewrite !prepend_prepend. reflexivity.
Qed.

(** The reader has cleared [connection] before the first write. *)
Lemma turn_nil_at_join :
  connection s1 = None ->
  Sched.Connect_from growslice k password botName botVersion
    ((sch, Dialed reads) :: rest) s
  = (Panic "nil pointer dereference", s1, dialed ++ [EvConnected] ++ e1).
Proof.
  intros Hnil. rewrite turn_to_join.
  rewrite (bind_run_panic _ _ _ _ _ _ (connWrite_nil _ _ Hnil)).
  rewrite prepend_run, <- !app_assoc, app_nil_r. reflexivity.
Qed.

Variables (r2 : Cap.reader_exit) (s2 : OpenTTDServer) (e2 : list event).
Hypothesis live_at_join : connection s1 <> None.
Hypothesis after_register :
  reader_after growslice k reads (before_join sch + before_register sch) s
  = (Ok r2, s2, e1 ++ e2).

(** The turn up to the [Write] of line 299. *)
Lemma turn_to_register :
  Sched.Connect_from growslice k password botName botVersion
    ((sch, Dialed reads) :: rest) s
  = prepend (dialed ++ [EvConnected] ++ e1
             ++ [EvWrite (join_bytes password botName botVersion)] ++ e2)
      ((sendSocket adminPacketAdminUPDATE_FREQUENCY
          (updateFrequency_payload adminUpdateDATE adminFrequencyDAILY) ;;;
        '(r3, heard3) <- Mx.listen
           (Cap.resume growslice
              (skipn (before_register sch) (skipn (before_join sch) reads)) r2) ;;
        match r3 with
        | Cap.AwaitingData chunk spare => M.ret (Sched.Serving chunk spare)
        | Cap.Returned =>
            if existsb is_disconnected (e1 ++ e2 ++ heard3) then
              M.emit (EvLog LogReconnecting) ;;;
              M.emit (EvSleep 2) ;;;
              Sched.Connect_from growslice (S k) password botName botVersion rest
            else M.ret Sched.WaitingForever
        end) s2).
Proof.
  rewrite turn_to_join.
  rewrite (bind_run_ok _ _ _ _ _ _ (connWrite_live _ _ live_at_join)).
  rewrite (bind_run_ok _ _ _ _ _ _
             (listen_run_ok _ _ _ _ _
                (reader_after_plus _ _ _ _ _ _ _ _ _ _ _ _ after_join after_register))).
  rewrite !prepend_prepend. f_equal. rewrite <- !app_assoc. reflexivity.
Qed.

(** The reader has cleared [connection] between the two writes. *)
Lemma turn_nil_at_register :
  connection s2 = None ->
  Sched.Connect_from growslice k password botName botVersion
    ((sch, Dialed reads) :: rest) s
  = (Panic "nil pointer dereference", s2,
     dialed ++ [EvConnected] ++ e1
     ++ [EvWrite (join_bytes password botName botVersion)] ++ e2).
Proof.
  intros Hnil. rewrite turn_to_register. unfold sendSocket.
  rewrite (bind_run_panic _ _ _ _ _ _ (connWrite_nil _ _ Hnil)).
  rewrite prepend_run, <- !app_assoc, app_nil_r. reflexivity.
Qed.

Hypothesis live_at_register : connection s2 <> None.

(** Both writes done: the turn up to [<-server.disconnected]. *)
Lemma turn_registered :
  Sched.Connect_from growslice k password botName botVersion
    ((sch, Dialed reads) :: rest) s
  = prepend (dialed ++ [EvConnected] ++ e1
             ++ [EvWrite (join_bytes password botName botVersion)] ++ e2
             ++ [EvWrite registration])
      (('(r3, heard3) <- Mx.listen
           (Cap.resume growslice
              (skipn (before_register sch) (skipn (before_join sch) reads)) r2) ;;
        match r3 with
        | Cap.AwaitingData chunk spare => M.ret (Sched.Serving chunk spare)
        | Cap.Returned =>
            if existsb is_disconnected (e1 ++ e2 ++ heard3) then
              M.emit (EvLog LogReconnecting) ;;;
              M.emit (EvSleep 2) ;;;
              Sched.Connect_from growslice (S k) password botName botVersion rest
            else M.ret Sched.WaitingForever
        end) s2).
Proof.
  rewrite turn_to_register. unfold sendSocket.
  rewrite (bind_run_ok _ _ _ _ _ _ (connWrite_live _ _ live_at_register)).
  rewrite registration_bytes, !prepend_prepend. f_equal.
  rewrite <- !app_assoc. reflexivity.
Qed.

Lemma turn_registered_trace :
  exists tail,
    trace (Sched.Connect_from growslice k password botName botVersion
             ((sch, Dialed reads) :: rest) s)
    = dialed ++ [EvConnected] ++ e1
      ++ [EvWrite (join_bytes password botName botVersion)] ++ e2
      ++ [EvWrite registration] ++ tail.
Proof.
  rewrite turn_registered. eexists. unfold prepend, trace. cbn [snd].
  rewrite <- !app_assoc. reflexivity.
Qed.

Variables (s3 : OpenTTDServer) (e3 : list event).
Hypothesis reader_returned :
  Cap.listenSocket growslice reads (set_connection (Some k) s)
  = (Ok Cap.Returned, s3, e1 ++ e2 ++ e3).
Hypothesis signalled : existsb is_disconnected (e1 ++ e2 ++ e3) = true.

(** The reader returns after a send on [disconnected]: the next turn. *)
Lemma turn_retries :
  Sched.Connect_from growslice k password botName botVersion
    ((sch, Dialed reads) :: rest) s
  = prepend (dialed ++ [EvConnected] ++ e1
             ++ [EvWrite (join_bytes password botName botVersion)] ++ e2
             ++ [EvWrite registration] ++ e3
             ++ [EvLog LogReconnecting; EvSleep 2])
      (Sched.Connect_from growslice (S k) password botName botVersion rest s3).
Proof.
  rewrite turn_registered.
  assert (Hall : reader_after growslice k reads
                   (before_join sch + before_register sch) s = (Ok r2, s2, e1 ++ e2))
    by exact after_register.
  assert (Hrest : Cap.resume growslice
                    (skipn (before_register sch) (skipn (before_join sch) reads)) r2 s2
                  = (Ok Cap.Returned, s3, e3)).
  { rewrite skipn_skipn, (Nat.add_comm (before_register sch)).
    apply (reader_after_all growslice k reads _ s r2 _ s2 s3 (e1 ++ e2) e3 Hall).
    rewrite <- app_assoc. exact reader_returned. }
  rewrite (bind_run_ok _ _ _ _ _ _ (listen_run_ok _ _ _ _ _ Hrest)).
  rewrite signalled, !bind_emit, !prepend_prepend. f_equal.
  rewrite <- !app_assoc. reflexivity.
Qed.
End Turn.

Lemma followed_by_prepend {A} (e : list event)
    (x y : result A * OpenTTDServer * list event) :
  followed_by x y -> followed_by (prepend e x) (prepend e y).
Proof.
  unfold followed_by. intros H Hx.
  destruct x as [[r s] t]. rewrite (H Hx). reflexivity.
Qed.

Lemma map_run_prepend {A B} (f : A -> B) (e : list event)
    (x : result A * OpenTTDServer * list event) :
  map_run f (prepend e x) = prepend e (map_run f x).
Proof. destruct x as [[r s] t]. reflexivity. Qed.

Lemma map_run_fuel_inv {A B} (f : A -> B) (x : result A * OpenTTDServer * list event)
    (s : OpenTTDServer) (e : list event) :
  map_run f x = (OutOfFuel, s, e) -> x = (OutOfFuel, s, e).
Proof.
  destruct x as [[[a| | |] s1] e1]; unfold map_run, outcome, server_of, trace;
    cbn [fst snd]; intros H; try discriminate.
  congruence.
Qed.

Lemma reader_after_0 (growslice : Z -> Z -> Z) (k : nat)
    (reads : list read_result) (s : OpenTTDServer) :
  reader_after growslice k reads 0 s
  = (Ok (Cap.AwaitingData [] 0), set_connection (Some k) s, []).
Proof. reflexivity. Qed.

(** A turn in the usual order: both writes, then the whole reader. *)
Lemma turn_usual (growslice : Z -> Z -> Z) (k : nat)
    (password botName botVersion : string) (reads : list read_result)
    (rest : list (schedule * attempt)) (s : OpenTTDServer) :
  Sched.Connect_from growslice k password botName botVersion
    ((usual, Dialed reads) :: rest) s
  = prepend (dialed ++ [EvConnected;
                        EvWrite (join_bytes password botName botVersion);
                        EvWrite registration])
      (('(r3, heard3) <- Mx.listen (Cap.listenSocket growslice reads) ;;
        match r3 with
        | Cap.AwaitingData chunk spare => M.ret (Sched.Serving chunk spare)
        | Cap.Returned =>
            if existsb is_disconnected heard3 then
              M.emit (EvLog LogReconnecting) ;;;
              M.emit (EvSleep 2) ;;;
              Sched.Connect_from growslice (S k) password botName botVersion rest
            else M.ret Sched.WaitingForever
        end) (set_connection (Some k) s)).
Proof.
  rewrite (turn_registered growslice k password botName botVersion usual reads rest s
             eq_refl _ _ [] (reader_after_0 _ _ _ _) _ _ []
             ltac:(discriminate) (reader_after_0 _ _ _ _) ltac:(discriminate)).
  reflexivity.
Qed.

(** [Connect_from] is [Connect] with every turn in the usual order, for
    as long as the reader within length is not cut. *)
Lemma Connect_from_is_usual_order (growslice : Z -> Z -> Z)
    (password botName botVersion : string) (script : list attempt) :
  forall (k : nat) (s : OpenTTDServer),
    followed_by (Connect_from k password botName botVersion script s)
      (map_run connect_exit_of
         (Sched.Connect_from growslice k password botName botVersion
            (in_usual_order script) s)).
Proof.
  induction script as [|[|reads] script IH]; intros k s.
  - intros _. reflexivity.
  - rewrite Connect_from_dial_error.
    cbn [in_usual_order map Sched.Connect_from].
    rewrite !bind_emit, !prepend_prepend, map_run_prepend.
    apply followed_by_prepend, IH.
  - cbn [in_usual_order map]. fold (in_usual_order script).
    rewrite turn_usual, map_run_prepend.
    cbn [Connect_from].
    rewrite !bind_emit, bind_modify, bind_emit.
    rewrite (bind_run_ok _ _ _ _ _ _
               (handshake_run password botName botVersion
                  (set_connection (Some k) s) k eq_refl)).
    rewrite !prepend_prepend.
    apply followed_by_prepend.
    pose proof (listenSocket_follows growslice reads (set_connection (Some k) s))
      as Hreader.
    unfold followed_by in Hreader.
    destruct (listenSocket reads (set_connection (Some k) s))
      as [[[r| | |] s1] e1] eqn:Eold.
    + specialize (Hreader eq_refl).
      apply map_run_ok_inv in Hreader as (a & Hcap & Ha).
      rewrite (bind_run_ok _ _ _ _ _ _ (listen_run_ok _ _ _ _ _ Eold)).
      rewrite (bind_run_ok _ _ _ _ _ _ (listen_run_ok _ _ _ _ _ Hcap)).
      rewrite map_run_prepend. apply followed_by_prepend.
      destruct a as [|chunk spare]; cbn [reader_exit_of] in Ha; subst r.
      * destruct (existsb is_disconnected e1); [|intros _; reflexivity].
        rewrite !bind_emit, !prepend_prepend, map_run_prepend.
        apply followed_by_prepend, IH.
      * intros _. reflexivity.
    + specialize (Hreader eq_refl). apply map_run_panic_inv in Hreader.
      intros _. unfold M.bind, Mx.listen. rewrite Eold, Hreader. reflexivity.
    + intros Hcut. exfalso. revert Hcut. unfold M.bind, Mx.listen. rewrite Eold.
      discriminate.
    + specialize (Hreader eq_refl). apply map_run_fuel_inv in Hreader.
      intros _. unfold M.bind, Mx.listen. rewrite Eold, Hreader. reflexivity.
Qed.

(** C8. The registration for daily date updates is the packet
    07 00 02 00 00 02 00 (type 2, category 0, frequency mask 0x02), and
    [Connect] writes it right after the login message when, at each of
    its two writes, the reader has not yet cleared [server.connection].
    Nothing makes the reader wait for the writes: when it has handled a
    read error or a Shutdown packet before the login message is written,
    that [Write] is a call on a nil connection and [Connect] panics with
    nothing written; when it has done so between the two writes, the login
    message is written and the registration is not.  Either way that
    connection goes without its registration and [Connect] does not dial
    again. *)
Theorem registration_races_the_reader (growslice : Z -> Z -> Z) (k : nat)
    (password botName botVersion : string) (sch : schedule)
    (reads : list read_result) (rest : list (schedule * attempt))
    (s : OpenTTDServer)
    (r1 : Cap.reader_exit) (s1 : OpenTTDServer) (e1 : list event) :
  reader_first sch = false ->
  reader_after growslice k reads (before_join sch) s = (Ok r1, s1, e1) ->
  (connection s1 = None ->
   Sched.Connect_from growslice k password botName botVersion
     ((sch, Dialed reads) :: rest) s
   = (Panic "nil pointer dereference", s1, dialed ++ [EvConnected] ++ e1))
  /\ (forall (r2 : Cap.reader_exit) (s2 : OpenTTDServer) (e2 : list event),
        connection s1 <> None ->
        reader_after growslice k reads (before_join sch + before_register sch) s
        = (Ok r2, s2, e1 ++ e2) ->
        (connection s2 = None ->
         Sched.Connect_from growslice k password botName botVersion
           ((sch, Dialed reads) :: rest) s
         = (Panic "nil pointer dereference", s2,
            dialed ++ [EvConnected] ++ e1
            ++ [EvWrite (join_bytes password botName botVersion)] ++ e2))
        /\ (connection s2 <> None ->
            exists tail,
              trace (Sched.Connect_from growslice k password botName botVersion
                       ((sch, Dialed reads) :: rest) s)
              = dialed ++ [EvConnected] ++ e1
                ++ [EvWrite (join_bytes password botName botVersion)] ++ e2
                ++ [EvWrite registration] ++ tail))
  /\ registration
     = framed_packet (to_byte adminPacketAdminUPDATE_FREQUENCY)
         (PutUint16 adminUpdateDATE ++ PutUint16 adminFrequencyDAILY)
  /\ adminUpdateDATE = 0 /\ adminFrequencyDAILY = 2.
Proof.
  intros Hsecond H1. split; [|split; [|repeat split]].
  - apply (turn_nil_at_join growslice k password botName botVersion sch reads rest s
             Hsecond r1 s1 e1 H1).
  - intros r2 s2 e2 Hlive H2. split.
    + apply (turn_nil_at_register growslice k password botName botVersion sch reads
               rest s Hsecond r1 s1 e1 H1 r2 s2 e2 Hlive H2).
    + apply (turn_registered_trace growslice k password botName botVersion sch reads
               rest s Hsecond r1 s1 e1 H1 r2 s2 e2 Hlive H2).
Qed.

(** A peer that closes the connection at once, with the reader ahead of
    the first write, and with the reader between the two writes. *)
Lemma registration_races_the_reader_witness :
  Sched.Connect grow_exact "pw" "bot" "1"
    [(mkSchedule false 1 0, Dialed [ReadError (OtherError "EOF")])] zeroServer
  = (Panic "nil pointer dereference", set_connection None zeroServer,
     dialed ++ [EvConnected] ++ [EvLog LogSocketError; EvDisconnected])
  /\ Sched.Connect grow_exact "pw" "bot" "1"
       [(mkSchedule false 0 1, Dialed [ReadError (OtherError "EOF")])] zeroServer
     = (Panic "nil pointer dereference", set_connection None zeroServer,
        dialed ++ [EvConnected] ++ []
        ++ [EvWrite (join_bytes "pw" "bot" "1")]
        ++ [EvLog LogSocketError; EvDisconnected]).
Proof.
  split.
  - exact (proj1 (registration_races_the_reader grow_exact 0 "pw" "bot" "1"
                    (mkSchedule false 1 0) [ReadError (OtherError "EOF")] []
                    zeroServer Cap.Returned (set_connection None zeroServer)
                    [EvLog LogSocketError; EvDisconnected] eq_refl eq_refl)
             eq_refl).
  - refine (proj1 (proj1 (proj2
              (registration_races_the_reader grow_exact 0 "pw" "bot" "1"
                 (mkSchedule false 0 1) [ReadError (OtherError "EOF")] []
                 zeroServer (Cap.AwaitingData [] 0)
                 (set_connection (Some 0%nat) zeroServer) [] eq_refl eq_refl))
              Cap.Returned (set_connection None zeroServer)
              [EvLog LogSocketError; EvDisconnected] _ eq_refl) eq_refl).
    discriminate.
Defined.

(* ================================================================= *)
(** ** Framing, split invariance and progress of the reader *)

(** X14. Whatever capacity [append] gives the buffer: a stream of whole
    packets of less than 65536 bytes in total, each with a payload that
    holds the bytes its decoder takes with a slice, received in any
    pieces, makes the reader frame exactly these packets: each once, in
    order, with its type and payload, handed to its decoder before the
    next one is framed, until a decoder ends the reader; when no decoder
    does, the buffer is empty at the end. *)
Theorem framing_delivers_packets (growslice : Z -> Z -> Z)
    (packets : list (byte * list byte)) (reads : list (list byte))
    (s : OpenTTDServer) :
  List.concat reads = encode_stream packets ->
  len (encode_stream packets) < 65536 ->
  forallb long_enough packets = true ->
  map_run reader_exit_of (Cap.listenSocket growslice (map ReadData reads) s)
  = (c <- deliver packets ;; M.ret (finish c)) s.
Proof.
  intros Hreads Hlen Hlong.
  apply Cap_listenSocket_frames_stream;
    [exact Hreads | exact Hlen | apply deliver_within, Hlong].
Qed.

Lemma framing_delivers_packets_witness :
  List.concat [[x03; x00]; [x67; x07]; [x00; x6b; x13; x43; x0b]; [x00]]
  = encode_stream [(x67, []); (x6b, [x13; x43; x0b; x00])]
  /\ map_run reader_exit_of
       (Cap.listenSocket grow_round8
          (map ReadData [[x03; x00]; [x67; x07]; [x00; x6b; x13; x43; x0b]; [x00]])
          dailyServer)
     = (c <- deliver [(x67, []); (x6b, [x13; x43; x0b; x00])] ;; M.ret (finish c))
         dailyServer.
Proof.
  assert (H1 : List.concat [[x03; x00]; [x67; x07]; [x00; x6b; x13; x43; x0b]; [x00]]
               = encode_stream [(x67, []); (x6b, [x13; x43; x0b; x00])])
    by reflexivity.
  assert (H2 : len (encode_stream [(x67, []); (x6b, [x13; x43; x0b; x00])]) < 65536)
    by reflexivity.
  assert (H3 : forallb long_enough [(x67, []); (x6b, [x13; x43; x0b; x00])] = true)
    by reflexivity.
  split; [exact H1|].
  exact (framing_delivers_packets grow_round8 [(x67, []); (x6b, [x13; x43; x0b; x00])]
           [[x03; x00]; [x67; x07]; [x00; x6b; x13; x43; x0b]; [x00]] dailyServer
           H1 H2 H3).
Defined.

(** X15. Split invariance below 65536 bytes, for payloads that hold what
    their decoders read: two ways of cutting the same stream of whole
    packets into reads (one byte at a time, all at once, or anything
    between), under any two ways of growing the buffer, give the same
    outcome, the same server object and the same trace of framed packets,
    log lines and writes. *)
Theorem framing_split_invariant (growslice growslice' : Z -> Z -> Z)
    (packets : list (byte * list byte))
    (reads reads' : list (list byte)) (s : OpenTTDServer) :
  List.concat reads = encode_stream packets ->
  List.concat reads' = encode_stream packets ->
  len (encode_stream packets) < 65536 ->
  forallb long_enough packets = true ->
  map_run reader_exit_of (Cap.listenSocket growslice (map ReadData reads) s)
  = map_run reader_exit_of (Cap.listenSocket growslice' (map ReadData reads') s).
Proof.
  intros H1 H2 Hlen Hlong.
  rewrite (Cap_listenSocket_frames_stream growslice packets reads s H1 Hlen
             (deliver_within packets Hlong s)).
  rewrite (Cap_listenSocket_frames_stream growslice' packets reads' s H2 Hlen
             (deliver_within packets Hlong s)).
  reflexivity.
Qed.

Lemma framing_split_invariant_witness :
  map_run reader_exit_of
    (Cap.listenSocket grow_exact
       (map ReadData [[x03]; [x00]; [x67]; [x07]; [x00]; [x6b]; [x13]; [x43]; [x0b]; [x00]])
       dailyServer)
  = map_run reader_exit_of
      (Cap.listenSocket grow_round8
         (map ReadData [[x03; x00; x67; x07; x00; x6b; x13; x43; x0b; x00]])
         dailyServer).
Proof.
  exact (framing_split_invariant grow_exact grow_round8
           [(x67, []); (x6b, [x13; x43; x0b; x00])]
           [[x03]; [x00]; [x67]; [x07]; [x00]; [x6b]; [x13]; [x43]; [x0b]; [x00]]
           [[x03; x00; x67; x07; x00; x6b; x13; x43; x0b; x00]]
           dailyServer eq_refl eq_refl eq_refl eq_refl).
Defined.

(** A Date packet with a payload of two bytes, followed by an RCON-end
    packet.  Read in one piece, the decoder of the Date packet takes the
    four bytes 01 00 06 00, two of them of the next packet, as the day
    count 393217 and the command goes out for 1076-08-04; the next packet
    is framed all the same.  Read in two pieces cut between the packets,
    the slice panics when the buffer has no spare capacity, and takes two
    zero bytes (day 1, 0000-01-02) when it has.  So for such payloads the
    run depends on the cut and on the allocator. *)
Lemma short_payload_depends_on_split :
  Cap.listenSocket grow_exact [ReadData short_date_stream] dailyServer
  = (Ok (Cap.AwaitingData [] 0), dailyServer,
     [EvFramed 107 [x01; x00];
      EvWrite (rconPacket "d 1076-08-04");
      EvFramed 125 [x6f; x6b; x00];
      EvLog (LogRconEnd "ok")])
  /\ Cap.listenSocket grow_exact
       [ReadData [x05; x00; x6b; x01; x00]; ReadData [x06; x00; x7d; x6f; x6b; x00]]
       dailyServer
     = (Panic "slice bounds out of range", dailyServer, [EvFramed 107 [x01; x00]])
  /\ trace (Cap.listenSocket grow_round8
              [ReadData [x05; x00; x6b; x01; x00]; ReadData [x06; x00; x7d; x6f; x6b; x00]]
              dailyServer)
     = [EvFramed 107 [x01; x00];
        EvWrite (rconPacket "d 0000-01-02");
        EvFramed 125 [x6f; x6b; x00];
        EvLog (LogRconEnd "ok")]
  /\ outcome (listenSocket [ReadData short_date_stream] dailyServer)
     = BeyondLen "slice bounds above len".
Proof.
  split; [reflexivity|]. split; [reflexivity|]. split; reflexivity.
Qed.

(** X16. The read loop makes progress, whatever the reads, the buffer,
    its capacity and the way it grows: the framing loop stops within one
    turn per byte of the buffer plus one (a turn that goes on has removed
    at least three bytes) and the loop of [extractString] within its
    [len(bytes) + 2] turns, so every run of the reader ends as the code
    ends: it returns, waits for the next read, or panics. *)
Theorem read_loop_makes_progress (growslice : Z -> Z -> Z)
    (reads : list read_result) (chunk : list byte) (spare : Z)
    (s : OpenTTDServer) :
  ends_as_code (Cap.socketLoop growslice reads chunk spare s).
Proof. apply Cap_socketLoop_ends. Qed.

(* ================================================================= *)
(** ** The turns of Connect *)

Lemma Sched_Connect_from_dial_error (growslice : Z -> Z -> Z) (k : nat)
    (password botName botVersion : string) (sch : schedule)
    (rest : list (schedule * attempt)) (s : OpenTTDServer) :
  Sched.Connect_from growslice k password botName botVersion
    ((sch, DialError) :: rest) s
  = prepend [EvLog LogConnecting; EvDial false; EvLog LogConnectError; EvSleep 2]
      (Sched.Connect_from growslice (S k) password botName botVersion rest s).
Proof.
  cbn [Sched.Connect_from]. rewrite !bind_emit, !prepend_prepend. reflexivity.
Qed.

Lemma turn_both_blocked (growslice : Z -> Z -> Z) (k : nat)
    (password botName botVersion : string) (sch : schedule)
    (reads : list read_result) (rest : list (schedule * attempt))
    (s : OpenTTDServer) :
  reader_first sch = true ->
  Sched.Connect_from growslice k password botName botVersion
    ((sch, Dialed reads) :: rest) s
  = (Ok Sched.BothBlocked, set_connection (Some k) s, dialed).
Proof.
  intros Hfirst. cbn [Sched.Connect_from]. rewrite Hfirst.
  rewrite !bind_emit, bind_modify. reflexivity.
Qed.

(** X18. [Connect] goes to its next turn after a delay of 2 seconds in
    two cases: after a failed dial, on the unchanged server object; and
    after a connection on which both writes were done while
    [server.connection] was still set and whose reader then returned
    after a send on [disconnected], from the server object as the reader
    left it.  When the reader has evaluated [<-server.connected] before
    the channel of the turn was made, it waits on another channel than
    the one [Connect] sends on: both block and there is no next turn. *)
Theorem Connect_retries (growslice : Z -> Z -> Z) (k : nat)
    (password botName botVersion : string) (sch : schedule)
    (reads : list read_result) (rest : list (schedule * attempt))
    (s : OpenTTDServer) :
  Sched.Connect_from growslice k password botName botVersion
    ((sch, DialError) :: rest) s
  = prepend [EvLog LogConnecting; EvDial false; EvLog LogConnectError; EvSleep 2]
      (Sched.Connect_from growslice (S k) password botName botVersion rest s)
  /\ (reader_first sch = true ->
      Sched.Connect_from growslice k password botName botVersion
        ((sch, Dialed reads) :: rest) s
      = (Ok Sched.BothBlocked, set_connection (Some k) s, dialed))
  /\ (forall (r1 r2 : Cap.reader_exit) (s1 s2 s3 : OpenTTDServer)
        (e1 e2 e3 : list event),
        reader_first sch = false ->
        reader_after growslice k reads (before_join sch) s = (Ok r1, s1, e1) ->
        connection s1 <> None ->
        reader_after growslice k reads (before_join sch + before_register sch) s
        = (Ok r2, s2, e1 ++ e2) ->
        connection s2 <> None ->
        Cap.listenSocket growslice reads (set_connection (Some k) s)
        = (Ok Cap.Returned, s3, e1 ++ e2 ++ e3) ->
        existsb is_disconnected (e1 ++ e2 ++ e3) = true ->
        Sched.Connect_from growslice k password botName botVersion
          ((sch, Dialed reads) :: rest) s
        = prepend
            (dialed ++ [EvConnected] ++ e1
             ++ [EvWrite (join_bytes password botName botVersion)] ++ e2
             ++ [EvWrite registration] ++ e3
             ++ [EvLog LogReconnecting; EvSleep 2])
            (Sched.Connect_from growslice (S k) password botName botVersion rest s3)).
Proof.
  split; [apply Sched_Connect_from_dial_error|].
  split; [apply turn_both_blocked|].
  intros r1 r2 s1 s2 s3 e1 e2 e3 Hsecond H1 Hlive1 H2 Hlive2 Hall Hsig.
  apply (turn_retries growslice k password botName botVersion sch reads rest s
           Hsecond r1 s1 e1 H1 r2 s2 e2 Hlive1 H2 Hlive2 s3 e3 Hall Hsig).
Qed.

(** A connection on which a Protocol packet arrives before the login
    message is written and the peer closes after the handshake. *)
Lemma Connect_retries_witness :
  Sched.Connect_from grow_exact 0 "pw" "bot" "1"
    [(mkSchedule false 1 0, Dialed [ReadData [x03; x00; x67]; ReadError (OtherError "EOF")]);
     (usual, DialError)]
    zeroServer
  = prepend
      (dialed ++ [EvConnected] ++ [EvFramed 103 []]
       ++ [EvWrite (join_bytes "pw" "bot" "1")] ++ []
       ++ [EvWrite registration] ++ [EvLog LogSocketError; EvDisconnected]
       ++ [EvLog LogReconnecting; EvSleep 2])
      (Sched.Connect_from grow_exact 1 "pw" "bot" "1" [(usual, DialError)]
         (set_connection None zeroServer)).
Proof.
  refine (proj2 (proj2
            (Connect_retries grow_exact 0 "pw" "bot" "1" (mkSchedule false 1 0)
               [ReadData [x03; x00; x67]; ReadError (OtherError "EOF")]
               [(usual, DialError)] zeroServer))
            (Cap.AwaitingData [] 0) (Cap.AwaitingData [] 0)
            (set_connection (Some 0%nat) zeroServer)
            (set_connection (Some 0%nat) zeroServer)
            (set_connection None zeroServer)
            [EvFramed 103 []] [] [EvLog LogSocketError; EvDisconnected]
            eq_refl eq_refl _ eq_refl _ eq_refl eq_refl); discriminate.
Defined.

(* ================================================================= *)
(** ** Framing goes on after a decoder has read beyond its payload *)

(** One turn of the inner loop on a buffer that starts with a whole
    packet: the decoder has the rest of the buffer, then the zeros of the
    spare capacity, after its payload. *)
Lemma Cap_processChunk_packet (spare : Z) (fuel : nat) (ty : byte)
    (data rest : list byte) (s : OpenTTDServer) :
  len (framed_packet ty data ++ rest) < 65536 ->
  Cap.processChunk spare (S fuel) (framed_packet ty data ++ rest) s
  = (M.emit (EvFramed (byte_val ty) data) ;;;
     c <- Cap.handlePacket (rest ++ repeat x00 (Z.to_nat spare)) (byte_val ty) data ;;
     match c with
     | Exit => M.ret Stopped
     | Next => Cap.processChunk spare fuel rest
     end) s.
Proof.
  intros Hlen. pose proof (len_nonneg data) as Hd. pose proof (len_nonneg rest) as Hr.
  rewrite len_app, len_framed_packet in Hlen.
  pose proof (declared_length_framed ty data rest ltac:(lia)) as Hdecl.
  set (chunk := framed_packet ty data ++ rest) in *.
  assert (Hchunk : chunk = to_byte (3 + len data) :: to_byte ((3 + len data) / 256)
                             :: ty :: data ++ rest) by reflexivity.
  assert (Hlc : len chunk = 3 + len data + len rest)
    by (unfold chunk; rewrite len_app, len_framed_packet; reflexivity).
  cbn [Cap.processChunk].
  replace (len chunk <? 2) with false by (symmetry; apply Z.ltb_ge; lia).
  assert (Hhead : Cap.slice chunk (repeat x00 (Z.to_nat spare)) 0 2
                  = Ok [to_byte (3 + len data); to_byte ((3 + len data) / 256)]).
  { rewrite Cap_slice_within; rewrite Hchunk, slice_header; reflexivity. }
  rewrite Hhead, bind_lift_ok.
  change (Uint16 [to_byte (3 + len data); to_byte ((3 + len data) / 256)])
    with (declared_length chunk).
  rewrite Hdecl, bind_lift_ok.
  rewrite uint16_small by lia.
  replace (3 + len data >? len chunk) with false
    by (symmetry; rewrite Z.gtb_ltb; apply Z.ltb_ge; lia).
  assert (Hidx : index chunk 2 = Ok ty).
  { rewrite Hchunk.
    change (index ([to_byte (3 + len data); to_byte ((3 + len data) / 256)]
                     ++ ty :: data ++ rest) (len [to_byte (3 + len data);
                                                  to_byte ((3 + len data) / 256)])
            = Ok ty).
    apply index_app_len. }
  rewrite Hidx, bind_lift_ok.
  assert (Hsl : slice chunk 3 (3 + len data) = Ok data).
  { unfold slice. rewrite Hlc.
    replace (3 + len data <? 3) with false by (symmetry; apply Z.ltb_ge; lia).
    replace (3 + len data + len rest <? 3 + len data) with false
      by (symmetry; apply Z.ltb_ge; lia).
    cbn [orb Z.ltb Z.compare]. rewrite Hchunk.
    change (skipn (Z.to_nat 3) (?a :: ?b :: ?c :: ?l)) with l.
    replace (3 + len data - 3) with (len data) by lia.
    rewrite firstn_len_app. reflexivity. }
  rewrite Cap_slice_within by (rewrite Hsl; reflexivity).
  rewrite Hsl, bind_lift_ok.
  assert (Hbeyond : skipn (Z.to_nat (3 + len data)) chunk = rest).
  { unfold chunk. rewrite <- (len_framed_packet ty data). apply skipn_len_app. }
  rewrite Hbeyond.
  apply bind_ext. intros [] s1.
  apply bind_ext. intros c s2. destruct c; [|reflexivity].
  assert (Hsf : slice_from chunk (3 + len data) = Ok rest).
  { unfold slice_from. rewrite Hlc.
    replace (3 + len data <? 0) with false by (symmetry; apply Z.ltb_ge; lia).
    replace (3 + len data + len rest <? 3 + len data) with false
      by (symmetry; apply Z.ltb_ge; lia).
    cbn [orb]. exact (f_equal Ok Hbeyond). }
  rewrite Hsf, bind_lift_ok. reflexivity.
Qed.

Lemma Cap_processChunk_incomplete (spare : Z) (fuel : nat) (b : list byte)
    (s : OpenTTDServer) :
  incomplete b -> len b < 65536 ->
  Cap.processChunk spare (S fuel) b s = (Ok (NeedData b), s, []).
Proof.
  intros Hinc Hlen.
  rewrite <- (processChunk_incomplete fuel b s Hinc Hlen).
  apply processChunk_follows.
  rewrite (processChunk_incomplete fuel b s Hinc Hlen). reflexivity.
Qed.

Lemma framed_app (e1 e2 : list event) : framed (e1 ++ e2) = framed e1 ++ framed e2.
Proof.
  induction e1 as [|e e1 IH]; [reflexivity|].
  destruct e; cbn [app framed]; rewrite IH; reflexivity.
Qed.

Lemma quiet_bind {A B} (m : M A) (k : A -> M B) (s : OpenTTDServer) :
  frames_nothing (m s) -> (forall a s', frames_nothing (k a s')) ->
  frames_nothing (M.bind m k s).
Proof.
  unfold frames_nothing, trace, M.bind. intros Hm Hk.
  destruct (m s) as [[[a| | |] s1] e1]; cbn [snd] in *; try exact Hm.
  specialize (Hk a s1). destruct (k a s1) as [[r s2] e2]. cbn [snd] in *.
  rewrite framed_app, Hm, Hk. reflexivity.
Qed.

Lemma quiet_connWrite (data : list byte) (s : OpenTTDServer) :
  frames_nothing (connWrite data s).
Proof. unfold connWrite. destruct (connection s); reflexivity. Qed.

Lemma quiet_forEach {A} (l : list A) (body : A -> M unit) :
  (forall a s, frames_nothing (body a s)) ->
  forall s, frames_nothing (Mx.forEach l body s).
Proof.
  intros Hbody. induction l as [|a l IH]; intros s; [reflexivity|].
  cbn [Mx.forEach]. apply quiet_bind; [apply Hbody | intros _ s'; apply IH].
Qed.

Lemma quiet_dateChanged (dt : date) (s : OpenTTDServer) :
  frames_nothing (dateChanged dt s).
Proof.
  assert (Hcmd : forall (c : string) s',
             frames_nothing (rconCommand (processCommand c dt) s'))
    by (intros; apply quiet_connWrite).
  unfold dateChanged.
  apply quiet_bind; [reflexivity | intros server s1].
  apply quiet_bind; [apply quiet_forEach, Hcmd | intros _ s2].
  apply quiet_bind.
  - destruct (Day dt =? 1); [apply quiet_forEach, Hcmd | reflexivity].
  - intros _ s3.
    destruct ((Day dt =? 1) && (Month dt =? 1));
      [apply quiet_forEach, Hcmd | reflexivity].
Qed.

Lemma quiet_lift {A} (r : result A) (s : OpenTTDServer) : frames_nothing (M.lift r s).
Proof. reflexivity. Qed.

Ltac quiet_step :=
  first
    [ apply quiet_dateChanged
    | apply quiet_bind; [|intros ? ?]
    | apply quiet_lift
    | match goal with
      | |- frames_nothing (match ?x with pair _ _ => _ end _) => destruct x
      | |- frames_nothing ((if ?c then _ else _) _) => destruct c
      end
    | reflexivity ].

(** Only the framing loop records a framed packet. *)
Lemma Cap_handlePacket_quiet (beyond : list byte) (packetType : Z)
    (packetData : list byte) (s : OpenTTDServer) :
  frames_nothing (Cap.handlePacket beyond packetType packetData s).
Proof.
  unfold Cap.handlePacket.
  repeat match goal with
         | |- frames_nothing ((if ?c then _ else _) _) => destruct c
         end.
  - reflexivity.
  - unfold Cap.decodeWelcome. repeat quiet_step.
  - unfold decodeShutdown. repeat quiet_step.
  - unfold Cap.decodeDate. repeat quiet_step.
  - unfold Cap.decodeChat. repeat quiet_step.
  - unfold Cap.decodeRcon. repeat quiet_step.
  - unfold decodeRconEnd. repeat quiet_step.
  - repeat quiet_step.
Qed.

(** The inner loop on whole packets followed by an incomplete rest frames
    an initial part of the packets, and all of them when it ends asking
    for more data. *)
Lemma Cap_processChunk_frames (spare : Z) (ps : list (byte * list byte)) :
  forall (b : list byte) (fuel : nat) (s : OpenTTDServer),
    incomplete b ->
    len (encode_stream ps ++ b) < 65536 ->
    (List.length (encode_stream ps ++ b) < fuel)%nat ->
    exists later,
      tagged ps
      = framed (trace (Cap.processChunk spare fuel (encode_stream ps ++ b) s)) ++ later
      /\ (forall c,
            outcome (Cap.processChunk spare fuel (encode_stream ps ++ b) s)
            = Ok (NeedData c) -> c = b /\ later = []).
Proof.
  induction ps as [|[ty data] ps IH]; intros b fuel s Hinc Hlen Hfuel.
  - destruct fuel as [|fuel]; [inversion Hfuel|].
    cbn [encode_stream map List.concat app] in *.
    rewrite (Cap_processChunk_incomplete spare fuel b s Hinc Hlen).
    exists []. split; [reflexivity|].
    intros c Hc. unfold outcome in Hc. cbn [fst] in Hc.
    split; [congruence | reflexivity].
  - destruct fuel as [|fuel]; [inversion Hfuel|].
    rewrite encode_stream_cons in *. cbn [fst snd] in *.
    rewrite <- app_assoc in *.
    rewrite Cap_processChunk_packet by exact Hlen.
    rewrite bind_emit.
    pose proof (Cap_handlePacket_quiet
                  ((encode_stream ps ++ b) ++ repeat x00 (Z.to_nat spare))
                  (byte_val ty) data s) as Hquiet.
    unfold frames_nothing, trace in Hquiet. unfold M.bind.
    destruct (Cap.handlePacket ((encode_stream ps ++ b) ++ repeat x00 (Z.to_nat spare))
                (byte_val ty) data s) as [[[c| | |] s1] e1]; cbn [snd] in Hquiet.
    + destruct c.
      * destruct (IH b fuel s1 Hinc) as (later & Hframed & Hout).
        { rewrite len_app in Hlen. pose proof (len_nonneg (framed_packet ty data)). lia. }
        { rewrite length_app in Hfuel. rewrite framed_packet_cons in Hfuel.
          cbn [List.length] in Hfuel. lia. }
        destruct (Cap.processChunk spare fuel (encode_stream ps ++ b) s1)
          as [[r s2] e2].
        unfold prepend, outcome, server_of, trace in *. cbn [fst snd] in *.
        exists later. split.
        -- cbn [tagged map fst snd app framed]. rewrite framed_app, Hquiet.
           cbn [app]. f_equal. exact Hframed.
        -- exact Hout.
      * unfold prepend, outcome, server_of, trace, M.ret. cbn [fst snd].
        exists (tagged ps). split.
        -- cbn [tagged map fst snd app framed]. rewrite framed_app, Hquiet.
           reflexivity.
        -- intros c Hc. discriminate.
    + unfold prepend, outcome, server_of, trace. cbn [fst snd].
      exists (tagged ps). split.
      * cbn [tagged map fst snd app framed]. rewrite Hquiet. reflexivity.
      * intros c Hc. discriminate.
    + unfold prepend, outcome, server_of, trace. cbn [fst snd].
      exists (tagged ps). split.
      * cbn [tagged map fst snd app framed]. rewrite Hquiet. reflexivity.
      * intros c Hc. discriminate.
    + unfold prepend, outcome, server_of, trace. cbn [fst snd].
      exists (tagged ps). split.
      * cbn [tagged map fst snd app framed]. rewrite Hquiet. reflexivity.
      * intros c Hc. discriminate.
Qed.

Lemma tagged_app (ps1 ps2 : list (byte * list byte)) :
  tagged (ps1 ++ ps2) = tagged ps1 ++ tagged ps2.
Proof. apply map_app. Qed.

Lemma Cap_socketLoop_frames (growslice : Z -> Z -> Z) (reads : list (list byte)) :
  forall (ps : list (byte * list byte)) (b : list byte) (spare : Z)
         (s : OpenTTDServer),
    incomplete b ->
    b ++ List.concat reads = encode_stream ps ->
    len (encode_stream ps) < 65536 ->
    exists later,
      tagged ps
      = framed (trace (Cap.socketLoop growslice (map ReadData reads) b spare s))
        ++ later
      /\ (forall chunk spare',
            outcome (Cap.socketLoop growslice (map ReadData reads) b spare s)
            = Ok (Cap.AwaitingData chunk spare') -> chunk = [] /\ later = []).
Proof.
  induction reads as [|r reads IH]; intros ps b spare s Hinc Hstream Hlen.
  - cbn [List.concat] in Hstream. rewrite app_nil_r in Hstream. subst b.
    destruct ps as [|[ty data] ps].
    + exists []. split; [reflexivity|].
      intros chunk spare' Hc. unfold outcome in Hc. cbn in Hc.
      split; [congruence | reflexivity].
    + exfalso. rewrite encode_stream_cons in Hinc, Hlen. cbn [fst snd] in Hinc, Hlen.
      apply (packet_not_incomplete ty data (encode_stream ps)); [|exact Hinc].
      rewrite len_app, len_framed_packet in Hlen.
      pose proof (len_nonneg (encode_stream ps)). lia.
  - cbn [map Cap.socketLoop List.concat] in *. rewrite app_assoc in Hstream.
    destruct (stream_prefix ps (b ++ r) (List.concat reads) Hstream Hlen)
      as (ps1 & ps2 & b' & Hps & Hx & Hinc' & Hrest).
    assert (Hlen1 : len (b ++ r) < 65536).
    { rewrite <- Hstream, len_app in Hlen. pose proof (len_nonneg (List.concat reads)). lia. }
    assert (Hlen2 : len (encode_stream ps2) < 65536).
    { rewrite Hps, encode_stream_app, len_app in Hlen.
      pose proof (len_nonneg (encode_stream ps1)). lia. }
    rewrite Hx in *. subst ps. rewrite tagged_app.
    destruct (Cap_processChunk_frames (Cap.spare_after_append growslice b spare r)
                ps1 b' (S (List.length (encode_stream ps1 ++ b'))) s
                Hinc' Hlen1 (Nat.lt_succ_diag_r _)) as (later1 & Hframed1 & Hout1).
    unfold M.bind.
    destruct (Cap.processChunk (Cap.spare_after_append growslice b spare r)
                (S (List.length (encode_stream ps1 ++ b'))) (encode_stream ps1 ++ b') s)
      as [[[d| | |] s1] e1]; unfold outcome, trace in Hframed1, Hout1;
      cbn [fst snd] in Hframed1, Hout1.
    + destruct d as [c|].
      * destruct (Hout1 c eq_refl) as [-> ->]. rewrite app_nil_r in Hframed1.
        destruct (IH ps2 b' (Cap.spare_after_append growslice b spare r) s1
                    Hinc' Hrest Hlen2) as (later & Hframed & Hout).
        destruct (Cap.socketLoop growslice (map ReadData reads) b'
                    (Cap.spare_after_append growslice b spare r) s1) as [[r2 s2] e2].
        unfold outcome, trace in *. cbn [fst snd] in *.
        exists later. split.
        -- rewrite framed_app, Hframed1, Hframed, app_assoc. reflexivity.
        -- exact Hout.
      * unfold M.ret, outcome, trace. cbn [fst snd].
        exists (later1 ++ tagged ps2). split.
        -- rewrite app_nil_r, Hframed1, app_assoc. reflexivity.
        -- intros chunk spare' Hc. discriminate.
    + unfold outcome, trace. cbn [fst snd]. exists (later1 ++ tagged ps2). split.
      * rewrite Hframed1, app_assoc. reflexivity.
      * intros chunk spare' Hc. discriminate.
    + unfold outcome, trace. cbn [fst snd]. exists (later1 ++ tagged ps2). split.
      * rewrite Hframed1, app_assoc. reflexivity.
      * intros chunk spare' Hc. discriminate.
    + unfold outcome, trace. cbn [fst snd]. exists (later1 ++ tagged ps2). split.
      * rewrite Hframed1, app_assoc. reflexivity.
      * intros chunk spare' Hc. discriminate.
Qed.

(** X22. Framing does not depend on what the decoders read.  For every
    stream of whole packets of less than 65536 bytes in total, payloads
    too short for their decoders included, received in any pieces and
    with any capacity of the buffer, the packets that the reader frames
    are an initial part of the packets of the stream, in order and each
    with its type and payload; and when the run ends with the reader
    waiting for the next read (no decoder has panicked or ended it), all
    packets of the stream have been framed and the buffer is empty. *)
Theorem framing_goes_on (growslice : Z -> Z -> Z)
    (packets : list (byte * list byte)) (reads : list (list byte))
    (s : OpenTTDServer) :
  List.concat reads = encode_stream packets ->
  len (encode_stream packets) < 65536 ->
  exists later,
    tagged packets
    = framed (trace (Cap.listenSocket growslice (map ReadData reads) s)) ++ later
    /\ (forall chunk spare,
          outcome (Cap.listenSocket growslice (map ReadData reads) s)
          = Ok (Cap.AwaitingData chunk spare) -> chunk = [] /\ later = []).
Proof.
  intros Hreads Hlen. unfold Cap.listenSocket.
  apply Cap_socketLoop_frames; [left; rewrite len_nil; lia | exact Hreads | exact Hlen].
Qed.

(** The Date packet with a payload of two bytes and the RCON-end packet
    after it, read in one piece: both are framed. *)
Lemma framing_goes_on_witness :
  List.concat [short_date_stream]
  = encode_stream [(x6b, [x01; x00]); (x7d, [x6f; x6b; x00])]
  /\ tagged [(x6b, [x01; x00]); (x7d, [x6f; x6b; x00])]
     = framed (trace (Cap.listenSocket grow_exact
                        (map ReadData [short_date_stream]) dailyServer)) ++ [].
Proof.
  assert (H1 : List.concat [short_date_stream]
               = encode_stream [(x6b, [x01; x00]); (x7d, [x6f; x6b; x00])])
    by reflexivity.
  assert (H2 : len (encode_stream [(x6b, [x01; x00]); (x7d, [x6f; x6b; x00])]) < 65536)
    by reflexivity.
  split; [exact H1|].
  destruct (framing_goes_on grow_exact [(x6b, [x01; x00]); (x7d, [x6f; x6b; x00])]
              [short_date_stream] dailyServer H1 H2) as (later & Hframed & Hout).
  destruct (Hout [] 0 eq_refl) as [_ Hlater].
  rewrite Hlater in Hframed. exact Hframed.
Defined.
